(** * Semantic-Document-Search: extraction, hashing and the document store

    A shallow embedding of [utils.py] and [database.py], of the commands and
    [main] of [cli.py], and of the indexing pipeline that [cli.py] drives,
    with the properties the specification states about them and further
    properties of the code.

    Conventions.
    - A Python [str] is a list of Unicode code points ([pystr]); a Python
      [bytes] object is a [list byte].
    - A Python call that may raise returns a [result]: [Ok v] for a normal
      return and [Raise e] for an exception [e].
    - Text written to standard output ([print]) is part of the model of
      [cli.py] only, where it is the list of the lines printed; the warnings
      and notices [utils.py] and [database.py] print are left out. *)

From Stdlib Require Import ZArith NArith List String Ascii Bool Lia.
From Stdlib Require Import Strings.Byte Sorting.Sorted.
From Equations Require Import Equations.
Import ListNotations.

Local Open Scope N_scope.

(** ** Python values *)

Abbreviation codepoint := N (only parsing).
Abbreviation pystr := (list N) (only parsing).
Abbreviation bytes := (list byte) (only parsing).

(** A string literal of the source, as code points. *)
Fixpoint lit (s : string) : pystr :=
  match s with
  | EmptyString => []
  | String a s' => N_of_ascii a :: lit s'
  end.

Definition str_eqb (a b : pystr) : bool :=
  if list_eq_dec N.eq_dec a b then true else false.

(** Exceptions raised by the modelled code. The payload is the message or
    the value the exception carries. *)
Inductive exn : Type :=
| FileNotFoundError (msg : pystr)
| ValueError (msg : pystr)
| ImportError (msg : pystr)
| IsADirectoryError
| UnicodeDecodeError
| LookupError
| LibraryError (reason : pystr)
| OperationalError (msg : pystr)
| OverflowError (msg : pystr).

Inductive result (A : Type) : Type :=
| Ok (a : A)
| Raise (e : exn).
Arguments Ok {A} a.
Arguments Raise {A} e.

Definition bind {A B} (r : result A) (k : A -> result B) : result B :=
  match r with
  | Ok a => k a
  | Raise e => Raise e
  end.

Notation "x <- r ;; k" := (bind r (fun x => k))
  (at level 61, r at next level, right associativity).

(** ** [str] methods used by the source *)

Module Str.

Definition LF : codepoint := 10.
Definition CR : codepoint := 13.
Definition TAB : codepoint := 9.
Definition SP : codepoint := 32.

Fixpoint startswith (p s : pystr) : bool :=
  match p, s with
  | [], _ => true
  | _ :: _, [] => false
  | a :: p', b :: s' => N.eqb a b && startswith p' s'
  end.

(** [s.replace(old, new)] for a non-empty [old]: occurrences are replaced
    left to right without overlap. [skip] counts the characters of the
    occurrence being replaced that are still to be passed over. *)
Fixpoint replace_from (old new : pystr) (skip : nat) (s : pystr) : pystr :=
  match s with
  | [] => []
  | c :: s' =>
      match skip with
      | S k => replace_from old new k s'
      | O =>
          if startswith old s
          then new ++ replace_from old new (pred (List.length old)) s'
          else c :: replace_from old new 0 s'
      end
  end.

Definition replace (old new s : pystr) : pystr := replace_from old new 0 s.

(** The line boundaries of [str.splitlines]: U+000A to U+000D, U+001C to
    U+001E, U+0085, U+2028 and U+2029 (the pair CR LF counts once). *)
Definition is_linebreak (c : codepoint) : bool :=
  (c =? 10) || (c =? 11) || (c =? 12) || (c =? 13) || (c =? 28) ||
  (c =? 29) || (c =? 30) || (c =? 133) || (c =? 8232) || (c =? 8233).

(** [s.splitlines()], line breaks not kept. A trailing line break does not
    open a last empty line. *)
Fixpoint splitlines (s : pystr) : list pystr :=
  match s with
  | [] => []
  | c :: s' =>
      if is_linebreak c then
        [] :: (if c =? CR then
                 match s' with
                 | d :: s'' => if d =? LF then splitlines s'' else splitlines s'
                 | [] => splitlines s'
                 end
               else splitlines s')
      else
        match splitlines s' with
        | [] => [[c]]
        | l :: ls => (c :: l) :: ls
        end
  end.

(** [c.isspace()]: the Unicode white space of CPython. *)
Definition isspace (c : codepoint) : bool :=
  ((9 <=? c) && (c <=? 13)) || ((28 <=? c) && (c <=? 32)) ||
  (c =? 133) || (c =? 160) || (c =? 5760) ||
  ((8192 <=? c) && (c <=? 8202)) || (c =? 8232) || (c =? 8233) ||
  (c =? 8239) || (c =? 8287) || (c =? 12288).

Fixpoint lstrip (s : pystr) : pystr :=
  match s with
  | [] => []
  | c :: s' => if isspace c then lstrip s' else s
  end.

Definition rstrip (s : pystr) : pystr := rev (lstrip (rev s)).

(** [s.strip()] *)
Definition strip (s : pystr) : pystr := rstrip (lstrip s).

(** [sep.join(parts)] *)
Fixpoint join (sep : pystr) (parts : list pystr) : pystr :=
  match parts with
  | [] => []
  | [p] => p
  | p :: ps => p ++ sep ++ join sep ps
  end.

(** [s.lower()]: on an ASCII string, the letters A to Z shifted to a to z.
    On a string with a code point outside ASCII the result follows the
    Unicode case tables, which are taken as a parameter where this is
    used. *)
Definition lower_with (unicode : pystr -> pystr) (s : pystr) : pystr :=
  if forallb (fun c => c <? 128) s
  then map (fun c => if (65 <=? c) && (c <=? 90) then c + 32 else c) s
  else unicode s.

Definition nonempty (s : pystr) : bool :=
  match s with [] => false | _ => true end.

End Str.

(** ** [re.sub(r"[ \t]+", " ", line)] *)

Module Re.

Definition is_blank (c : codepoint) : bool := (c =? Str.SP) || (c =? Str.TAB).

(** Every maximal run of spaces and tabs becomes one space. [in_run] tells
    that the character before was part of a run already replaced. *)
Fixpoint sub_blanks_from (in_run : bool) (s : pystr) : pystr :=
  match s with
  | [] => []
  | c :: s' =>
      if is_blank c then
        if in_run then sub_blanks_from true s'
        else Str.SP :: sub_blanks_from true s'
      else c :: sub_blanks_from false s'
  end.

Definition sub_blanks (s : pystr) : pystr := sub_blanks_from false s.

End Re.

(** ** utils.py: cleaning *)

Definition _clean_text (text : pystr) : pystr :=
  let text := Str.replace [Str.CR] [Str.LF]
                (Str.replace [Str.CR; Str.LF] [Str.LF] text) in
  let cleaned_lines :=
    fold_left
      (fun cleaned_lines line =>
         let line := Str.strip (Re.sub_blanks line) in
         if Str.nonempty line then cleaned_lines ++ [line] else cleaned_lines)
      (Str.splitlines text) [] in
  Str.join [Str.LF] cleaned_lines.

(** ** Text codecs *)

Module Codecs.

Inductive encoding : Type := utf_8 | latin_1 | cp1252 | ascii.
Inductive errors : Type := strict | replace.

(** U+FFFD, the placeholder of [errors="replace"]. *)
Definition REPLACEMENT : codepoint := 65533.

Definition is_cont (b : N) : bool := (128 <=? b) && (b <=? 191).

(** Second byte of a three-byte sequence: no overlong form after 0xE0, no
    surrogate after 0xED. *)
Definition second3 (b0 b1 : N) : bool :=
  if b0 =? 224 then (160 <=? b1) && (b1 <=? 191)
  else if b0 =? 237 then (128 <=? b1) && (b1 <=? 159)
  else is_cont b1.

(** Second byte of a four-byte sequence: no overlong form after 0xF0,
    nothing above U+10FFFF after 0xF4. *)
Definition second4 (b0 b1 : N) : bool :=
  if b0 =? 240 then (144 <=? b1) && (b1 <=? 191)
  else if b0 =? 244 then (128 <=? b1) && (b1 <=? 143)
  else is_cont b1.

(** The UTF-8 decoder. An ill-formed sequence ends the decoding in strict
    mode; in replace mode its maximal well-formed prefix (at least one
    byte) becomes one U+FFFD and decoding goes on after it. *)
Fixpoint utf8_decode (e : errors) (bs : list N) : option pystr :=
  let bad (k : option pystr) :=
    match e with
    | strict => None
    | replace => option_map (cons REPLACEMENT) k
    end in
  let good (cp : codepoint) (k : option pystr) := option_map (cons cp) k in
  match bs with
  | [] => Some []
  | b0 :: r0 =>
      if b0 <? 128 then good b0 (utf8_decode e r0)
      else if (194 <=? b0) && (b0 <=? 223) then
        match r0 with
        | [] => bad (Some [])
        | b1 :: r1 =>
            if is_cont b1
            then good ((b0 - 192) * 64 + (b1 - 128)) (utf8_decode e r1)
            else bad (utf8_decode e r0)
        end
      else if (224 <=? b0) && (b0 <=? 239) then
        match r0 with
        | [] => bad (Some [])
        | b1 :: r1 =>
            if second3 b0 b1 then
              match r1 with
              | [] => bad (Some [])
              | b2 :: r2 =>
                  if is_cont b2
                  then good ((b0 - 224) * 4096 + (b1 - 128) * 64 + (b2 - 128))
                            (utf8_decode e r2)
                  else bad (utf8_decode e r1)
              end
            else bad (utf8_decode e r0)
        end
      else if (240 <=? b0) && (b0 <=? 244) then
        match r0 with
        | [] => bad (Some [])
        | b1 :: r1 =>
            if second4 b0 b1 then
              match r1 with
              | [] => bad (Some [])
              | b2 :: r2 =>
                  if is_cont b2 then
                    match r2 with
                    | [] => bad (Some [])
                    | b3 :: r3 =>
                        if is_cont b3
                        then good ((b0 - 240) * 262144 + (b1 - 128) * 4096
                                   + (b2 - 128) * 64 + (b3 - 128))
                                  (utf8_decode e r3)
                        else bad (utf8_decode e r2)
                    end
                  else bad (utf8_decode e r1)
              end
            else bad (utf8_decode e r0)
        end
      else bad (utf8_decode e r0)
  end.

(** Windows-1252: 0x80 to 0x9F go through a table with five holes, every
    other byte is its own code point. *)
Definition cp1252_char (b : N) : option codepoint :=
  if (b <? 128) || (160 <=? b) then Some b
  else nth (N.to_nat (b - 128))
         [Some 8364; None; Some 8218; Some 402; Some 8222; Some 8230;
          Some 8224; Some 8225; Some 710; Some 8240; Some 352; Some 8249;
          Some 338; None; Some 381; None;
          None; Some 8216; Some 8217; Some 8220; Some 8221; Some 8226;
          Some 8211; Some 8212; Some 732; Some 8482; Some 353; Some 8250;
          Some 339; None; Some 382; Some 376] None.

Definition ascii_char (b : N) : option codepoint :=
  if b <? 128 then Some b else None.

(** A one-byte codec: an undefined byte ends the decoding in strict mode
    and becomes U+FFFD in replace mode. *)
Fixpoint charmap_decode (table : N -> option codepoint) (e : errors)
         (bs : list N) : option pystr :=
  match bs with
  | [] => Some []
  | b :: r =>
      match table b, e with
      | Some c, _ => option_map (cons c) (charmap_decode table e r)
      | None, strict => None
      | None, replace => option_map (cons REPLACEMENT) (charmap_decode table e r)
      end
  end.

(** [data.decode(enc, errors)]; [None] stands for [UnicodeDecodeError]. *)
Definition decode (enc : encoding) (e : errors) (data : bytes) : option pystr :=
  let bs := map Byte.to_N data in
  match enc with
  | utf_8 => utf8_decode e bs
  | latin_1 => Some bs
  | cp1252 => charmap_decode cp1252_char e bs
  | ascii => charmap_decode ascii_char e bs
  end.

End Codecs.

(** ** The file system and [os.path] *)

Inductive node : Type :=
| File (content : bytes)
| Directory.

(** What a path names, if anything. *)
Definition filesystem := pystr -> option node.

Module Os.

Definition exists_ (fs : filesystem) (p : pystr) : bool :=
  match fs p with Some _ => true | None => false end.

(** [s.rfind(c)] for a one-character [c]: the last index, or -1. *)
Fixpoint rfind_from (c : codepoint) (i : Z) (found : Z) (s : pystr) : Z :=
  match s with
  | [] => found
  | d :: s' => rfind_from c (i + 1)%Z (if d =? c then i else found) s'
  end.

Definition rfind (c : codepoint) (s : pystr) : Z := rfind_from c 0%Z (-1)%Z s.

Definition slice (s : pystr) (lo hi : Z) : pystr :=
  firstn (Z.to_nat (hi - lo)) (skipn (Z.to_nat lo) s).

(** [posixpath.splitext]: the extension starts at the last dot of the last
    path component, unless that component has only dots before it. *)
Definition splitext (p : pystr) : pystr * pystr :=
  let sepIndex := rfind 47 p in
  let dotIndex := rfind 46 p in
  if (sepIndex <? dotIndex)%Z
     && existsb (fun c => negb (c =? 46)) (slice p (sepIndex + 1) dotIndex)
  then (firstn (Z.to_nat dotIndex) p, skipn (Z.to_nat dotIndex) p)
  else (p, []).

End Os.

(** The translation of line ends that reading in text mode performs: CR LF
    and CR both read as LF. *)
Definition universal_newlines (s : pystr) : pystr :=
  Str.replace [Str.CR] [Str.LF] (Str.replace [Str.CR; Str.LF] [Str.LF] s).

(** [open(path, "r", encoding=enc, errors=e)] followed by [f.read()]: the
    whole content decoded and its line ends translated. *)
Definition read_text (fs : filesystem) (path : pystr)
           (enc : Codecs.encoding) (e : Codecs.errors) : result pystr :=
  match fs path with
  | None => Raise (FileNotFoundError path)
  | Some Directory => Raise IsADirectoryError
  | Some (File content) =>
      match Codecs.decode enc e content with
      | Some s => Ok (universal_newlines s)
      | None => Raise UnicodeDecodeError
      end
  end.

(** ** The document parsers *)

(** [page.extract_text()]: the text of a page, [None], or an exception. *)
Definition pdf_page := result (option pystr).

(** What python-docx exposes of a document: the paragraph texts and, per
    table, per row, the cell texts. *)
Record docx_document : Type := {
  paragraphs : list pystr;
  tables : list (list (list pystr))
}.

(** The collaborators [utils.py] imports: pdfplumber and python-docx, each
    absent ([None]) or a function of the file it opens, and [str.lower] on
    the strings that are not ASCII. *)
Record libraries : Type := {
  pdfplumber_open : option (node -> result (list pdf_page));
  docx_Document : option (node -> result docx_document);
  unicode_lower : pystr -> pystr
}.

(** ** utils.py: extraction *)

Section Extraction.

Variable env : libraries.
Variable fs : filesystem.

Definition _extract_pdf (filepath : pystr) : result pystr :=
  match pdfplumber_open env with
  | None =>
      Raise (ImportError
        (lit "pdfplumber is required for PDF extraction. Run: pip install pdfplumber"))
  | Some open_ =>
      match fs filepath with
      | None => Raise (FileNotFoundError filepath)
      | Some nd =>
          pdf <- open_ nd ;;
          let pages :=
            fold_left
              (fun pages page =>
                 match page with
                 | Ok (Some content) =>
                     if Str.nonempty content then pages ++ [content] else pages
                 | Ok None => pages
                 | Raise _ => pages
                 end)
              pdf [] in
          Ok (Str.join [Str.LF] pages)
      end
  end.

Definition _extract_docx (filepath : pystr) : result pystr :=
  match docx_Document env with
  | None =>
      Raise (ImportError
        (lit "python-docx is required for DOCX extraction. Run: pip install python-docx"))
  | Some Document =>
      match fs filepath with
      | None => Raise (FileNotFoundError filepath)
      | Some nd =>
          doc <- Document nd ;;
          let paragraphs := paragraphs doc in
          let paragraphs :=
            fold_left
              (fun paragraphs table =>
                 fold_left
                   (fun paragraphs row =>
                      fold_left
                        (fun paragraphs cell =>
                           if Str.nonempty (Str.strip cell)
                           then paragraphs ++ [cell] else paragraphs)
                        row paragraphs)
                   table paragraphs)
              (tables doc) paragraphs in
          Ok (Str.join [Str.LF] paragraphs)
      end
  end.

(** The [for enc in encodings] loop of [_extract_txt]: the first encoding
    that decodes wins, a decoding or lookup error moves on to the next,
    any other exception leaves the loop. *)
Fixpoint try_encodings (filepath : pystr) (encodings : list Codecs.encoding)
  : result pystr :=
  match encodings with
  | [] => read_text fs filepath Codecs.utf_8 Codecs.replace
  | enc :: rest =>
      match read_text fs filepath enc Codecs.strict with
      | Ok s => Ok s
      | Raise UnicodeDecodeError => try_encodings filepath rest
      | Raise LookupError => try_encodings filepath rest
      | Raise e => Raise e
      end
  end.

Definition _extract_txt (filepath : pystr) : result pystr :=
  let encodings := [Codecs.utf_8; Codecs.latin_1; Codecs.cp1252; Codecs.ascii] in
  try_encodings filepath encodings.

Definition extract_text (filepath : pystr) : result pystr :=
  if negb (Os.exists_ fs filepath) then
    Raise (FileNotFoundError (lit "File not found: " ++ filepath))
  else
    let ext := Str.lower_with (unicode_lower env) (snd (Os.splitext filepath)) in
    raw_text <-
      (if str_eqb ext (lit ".pdf") then _extract_pdf filepath
       else if str_eqb ext (lit ".docx") then _extract_docx filepath
       else if str_eqb ext (lit ".txt") then _extract_txt filepath
       else Raise (ValueError (lit "Unsupported file type '" ++ ext
                                 ++ lit "'. Supported: .pdf, .docx, .txt"))) ;;
    Ok (_clean_text raw_text).

End Extraction.

(** ** hashlib.sha256 *)

Module Sha256.

Definition words8 : Type := N * N * N * N * N * N * N * N.

Definition w32 (x : N) : N := x mod 4294967296.
Definition add32 (x y : N) : N := w32 (x + y).
Definition not32 (x : N) : N := N.lxor x 4294967295.
Definition rotr (n x : N) : N := N.lor (N.shiftr x n) (w32 (N.shiftl x (32 - n))).

Definition Ch (x y z : N) : N := N.lxor (N.land x y) (N.land (not32 x) z).
Definition Maj (x y z : N) : N :=
  N.lxor (N.lxor (N.land x y) (N.land x z)) (N.land y z).
Definition Sigma0 (x : N) : N := N.lxor (N.lxor (rotr 2 x) (rotr 13 x)) (rotr 22 x).
Definition Sigma1 (x : N) : N := N.lxor (N.lxor (rotr 6 x) (rotr 11 x)) (rotr 25 x).
Definition sigma0 (x : N) : N := N.lxor (N.lxor (rotr 7 x) (rotr 18 x)) (N.shiftr x 3).
Definition sigma1 (x : N) : N := N.lxor (N.lxor (rotr 17 x) (rotr 19 x)) (N.shiftr x 10).

Definition K : list N :=
  [1116352408; 1899447441; 3049323471; 3921009573; 961987163; 1508970993;
   2453635748; 2870763221; 3624381080; 310598401; 607225278; 1426881987;
   1925078388; 2162078206; 2614888103; 3248222580; 3835390401; 4022224774;
   264347078; 604807628; 770255983; 1249150122; 1555081692; 1996064986;
   2554220882; 2821834349; 2952996808; 3210313671; 3336571891; 3584528711;
   113926993; 338241895; 666307205; 773529912; 1294757372; 1396182291;
   1695183700; 1986661051; 2177026350; 2456956037; 2730485921; 2820302411;
   3259730800; 3345764771; 3516065817; 3600352804; 4094571909; 275423344;
   430227734; 506948616; 659060556; 883997877; 958139571; 1322822218;
   1537002063; 1747873779; 1955562222; 2024104815; 2227730452; 2361852424;
   2428436474; 2756734187; 3204031479; 3329325298].

Definition H0 : words8 :=
  (1779033703, 3144134277, 1013904242, 2773480762,
   1359893119, 2600822924, 528734635, 1541459225).

(** The sixteen big-endian words of a 64-byte block. *)
Fixpoint be_words (bs : list N) : list N :=
  match bs with
  | b0 :: b1 :: b2 :: b3 :: r =>
      (b0 * 16777216 + b1 * 65536 + b2 * 256 + b3) :: be_words r
  | _ => []
  end.

(** The message schedule: [n] more words after the ones in [w]. *)
Fixpoint expand (n : nat) (w : list N) : list N :=
  match n with
  | O => w
  | S k =>
      let t := List.length w in
      let wt := add32 (add32 (sigma1 (nth (t - 2) w 0)) (nth (t - 7) w 0))
                      (add32 (sigma0 (nth (t - 15) w 0)) (nth (t - 16) w 0)) in
      expand k (w ++ [wt])
  end.

Definition round (s : words8) (kw : N * N) : words8 :=
  let '(a, b, c, d, e, f, g, h) := s in
  let t1 := add32 (add32 (add32 h (Sigma1 e)) (add32 (Ch e f g) (fst kw))) (snd kw) in
  let t2 := add32 (Sigma0 a) (Maj a b c) in
  (add32 t1 t2, a, b, c, add32 d t1, e, f, g).

Definition compress (hs : words8) (block : bytes) : words8 :=
  let w := expand 48 (be_words (map Byte.to_N block)) in
  let '(a, b, c, d, e, f, g, h) := fold_left round (combine K w) hs in
  let '(a', b', c', d', e', f', g', h') := hs in
  (add32 a' a, add32 b' b, add32 c' c, add32 d' d,
   add32 e' e, add32 f' f, add32 g' g, add32 h' h).

(** The hash object: the chaining value, the bytes of the block being
    filled, and the number of bytes fed so far. *)
Record t : Type := {
  chain : words8;
  pending : bytes;
  total : N
}.

(** [hashlib.sha256()] *)
Definition new : t := {| chain := H0; pending := []; total := 0 |}.

Definition update_byte (s : t) (b : byte) : t :=
  let block := pending s ++ [b] in
  if Nat.eqb (List.length block) 64
  then {| chain := compress (chain s) block; pending := []; total := total s + 1 |}
  else {| chain := chain s; pending := block; total := total s + 1 |}.

(** [h.update(data)] *)
Definition update (s : t) (data : bytes) : t := fold_left update_byte data s.

Definition byte_of_N (n : N) : byte :=
  match Byte.of_N (n mod 256) with Some b => b | None => x00 end.

(** The padding: 0x80, zeros up to 56 modulo 64, the bit length on eight
    big-endian bytes. *)
Definition padding (s : t) : bytes :=
  let zeros := ((119 - List.length (pending s)) mod 64)%nat in
  let bits := total s * 8 in
  x80 :: repeat x00 zeros
    ++ map (fun i => byte_of_N (N.shiftr bits (8 * i))) [7; 6; 5; 4; 3; 2; 1; 0].

Definition final (s : t) : words8 := chain (fold_left update_byte (padding s) s).

Definition hex_digit (n : N) : codepoint := if n <? 10 then 48 + n else 87 + n.

Definition hex_byte (n : N) : pystr :=
  [hex_digit (N.land (N.shiftr n 4) 15); hex_digit (N.land n 15)].

Definition hex_word (w : N) : pystr :=
  hex_byte (N.shiftr w 24) ++ hex_byte (N.shiftr w 16)
    ++ hex_byte (N.shiftr w 8) ++ hex_byte w.

(** [h.hexdigest()] *)
Definition hexdigest (s : t) : pystr :=
  let '(a, b, c, d, e, f, g, h) := final s in
  hex_word a ++ hex_word b ++ hex_word c ++ hex_word d
    ++ hex_word e ++ hex_word f ++ hex_word g ++ hex_word h.

End Sha256.

(** The characters of a lowercase hexadecimal string. *)
Definition is_lower_hex (c : codepoint) : bool :=
  ((48 <=? c) && (c <=? 57)) || ((97 <=? c) && (c <=? 102)).

(** ** utils.py: hashing *)

Definition inspect {A} (a : A) : {b | a = b} := exist _ a eq_refl.

(** [f.read(size)] on a binary file of which [rest] is still unread: the
    chunk returned and what is left after it. *)
Definition read (size : nat) (rest : bytes) : bytes * bytes :=
  (firstn size rest, skipn size rest).

(** [for chunk in iter(lambda: f.read(size), b""): sha256.update(chunk)] *)
Equations? update_chunks (size : nat) (sha256 : Sha256.t) (rest : bytes)
  : Sha256.t by wf (List.length rest) lt :=
  update_chunks size sha256 rest with inspect (read size rest) := {
    | exist _ ([], _) _ => sha256
    | exist _ (chunk, rest') Hread => update_chunks size (Sha256.update sha256 chunk) rest' }.
Proof.
  rewrite length_skipn.
  destruct size; [discriminate|]. destruct rest; [discriminate|]. simpl. lia.
Qed.

Definition CHUNK : nat := N.to_nat 65536.

Definition file_hash (fs : filesystem) (filepath : pystr) : result pystr :=
  let sha256 := Sha256.new in
  match fs filepath with
  | None => Raise (FileNotFoundError filepath)
  | Some Directory => Raise IsADirectoryError
  | Some (File content) =>
      Ok (Sha256.hexdigest (update_chunks CHUNK sha256 content))
  end.

(** ** numpy: arrays and the NPY format *)

Module Numpy.

Inductive byteorder : Type := little | big | not_applicable.
Inductive kind : Type := kind_bool | kind_int | kind_uint | kind_float | kind_complex.

Record dtype : Type := {
  byte_order : byteorder;
  dkind : kind;
  itemsize : N
}.

(** An array by its logical content: element type, shape, and the element
    bytes in the order of its contiguous layout, row-major unless [fortran].
    An array that is contiguous both ways counts as row-major, and a strided
    view is represented by its row-major copy, which is what [np.save]
    writes for it. *)
Record ndarray : Type := {
  dt : dtype;
  shape : list N;
  fortran : bool;
  buffer : bytes
}.

Definition size (shape : list N) : N := fold_right N.mul 1 shape.

(** Contiguous in both orders: no element, or at most one axis longer
    than 1. *)
Definition both_contiguous (shape : list N) : bool :=
  (size shape =? 0)
  || Nat.leb (List.length (filter (fun n => negb (n =? 1)) shape)) 1.

Definition member (n : N) (l : list N) : bool := existsb (N.eqb n) l.

(** The numeric element types, with the byte order one-byte items have. *)
Definition valid_dtype (d : dtype) : bool :=
  match dkind d with
  | kind_bool => itemsize d =? 1
  | kind_int | kind_uint => member (itemsize d) [1; 2; 4; 8]
  | kind_float => member (itemsize d) [2; 4; 8; 16]
  | kind_complex => member (itemsize d) [8; 16; 32]
  end
  && match byte_order d with
     | not_applicable => itemsize d =? 1
     | _ => negb (itemsize d =? 1)
     end.

(** numpy's limit on the number of axes. *)
Definition MAXDIMS : nat := 64.

Definition well_formed (a : ndarray) : Prop :=
  valid_dtype (dt a) = true
  /\ (List.length (shape a) <= MAXDIMS)%nat
  /\ Forall (fun n => n < 2 ^ 63) (shape a)
  /\ N.of_nat (List.length (buffer a)) = itemsize (dt a) * size (shape a)
  /\ (fortran a = true -> both_contiguous (shape a) = false).

(** *** [repr] of the header values *)

(** The decimal digits of [n] before [acc]; [fuel] bounds their number. *)
Fixpoint digits (fuel : nat) (n : N) (acc : pystr) : pystr :=
  match fuel with
  | O => acc
  | S k =>
      let acc' := (48 + n mod 10) :: acc in
      if n <? 10 then acc' else digits k (n / 10) acc'
  end.

Definition repr_int (n : N) : pystr := digits (S (N.to_nat (N.log2 n))) n [].

Definition repr_bool (b : bool) : pystr := if b then lit "True" else lit "False".

Fixpoint repr_items (l : list N) : pystr :=
  match l with
  | [] => []
  | [n] => repr_int n
  | n :: l' => repr_int n ++ lit ", " ++ repr_items l'
  end.

Definition repr_tuple (l : list N) : pystr :=
  match l with
  | [] => lit "()"
  | [n] => lit "(" ++ repr_int n ++ lit ",)"
  | _ => lit "(" ++ repr_items l ++ lit ")"
  end.

Definition order_char (o : byteorder) : codepoint :=
  match o with little => 60 | big => 62 | not_applicable => 124 end.

Definition kind_char (k : kind) : codepoint :=
  match k with
  | kind_bool => 98 | kind_int => 105 | kind_uint => 117
  | kind_float => 102 | kind_complex => 99
  end.

(** [dtype.str], as in ['<f4']. *)
Definition descr (d : dtype) : pystr :=
  order_char (byte_order d) :: kind_char (dkind d) :: repr_int (itemsize d).

(** *** Writing *)

Definition MAGIC_PREFIX : list N := [147; 78; 85; 77; 80; 89].
Definition ARRAY_ALIGN : N := 64.
Definition GROWTH_AXIS_MAX_DIGITS : N := 21.

(** The spare room that lets the first axis (the last for a column-major
    array) grow in place. *)
Definition spare_room (a : ndarray) : N :=
  let growing := if fortran a then last (shape a) 0 else hd 0 (shape a) in
  match shape a with
  | [] => 0
  | _ => GROWTH_AXIS_MAX_DIGITS - N.of_nat (List.length (repr_int growing))
  end.

(** The header dictionary, keys sorted, followed by the spare room. *)
Definition header_text (a : ndarray) : pystr :=
  lit "{'descr': '" ++ descr (dt a)
    ++ lit "', 'fortran_order': " ++ repr_bool (fortran a)
    ++ lit ", 'shape': " ++ repr_tuple (shape a) ++ lit ", }"
    ++ repeat Str.SP (N.to_nat (spare_room a)).

(** [struct.pack] of an unsigned integer on [width] little-endian bytes. *)
Fixpoint pack_le (width : nat) (n : N) : list N :=
  match width with
  | O => []
  | S k => n mod 256 :: pack_le k (n / 256)
  end.

(** The header with its prefix, padded with spaces and closed by a newline
    so that the data starts on a multiple of [ARRAY_ALIGN]: version 1.0 when
    the length fits two bytes, version 2.0 otherwise. *)
Definition wrap_header (header : pystr) : result (list N) :=
  let hlen := N.of_nat (List.length header) + 1 in
  let padlen1 := ARRAY_ALIGN - (8 + 2 + hlen) mod ARRAY_ALIGN in
  let padlen2 := ARRAY_ALIGN - (8 + 4 + hlen) mod ARRAY_ALIGN in
  if hlen + padlen1 <? 65536 then
    Ok (MAGIC_PREFIX ++ [1; 0] ++ pack_le 2 (hlen + padlen1)
          ++ header ++ repeat Str.SP (N.to_nat padlen1) ++ [Str.LF])
  else if hlen + padlen2 <? 4294967296 then
    Ok (MAGIC_PREFIX ++ [2; 0] ++ pack_le 4 (hlen + padlen2)
          ++ header ++ repeat Str.SP (N.to_nat padlen2) ++ [Str.LF])
  else Raise (ValueError (lit "Header length too big for version=(2, 0)")).

(** [np.save(buf, a)] on an empty [io.BytesIO]: what the buffer holds
    afterwards. *)
Definition save (a : ndarray) : result bytes :=
  header <- wrap_header (header_text a) ;;
  Ok (map Sha256.byte_of_N header ++ buffer a).

(** *** Reading *)

(** What follows the text [p] at the start of [s]. *)
Fixpoint expect (p s : pystr) : option pystr :=
  match p, s with
  | [], _ => Some s
  | _ :: _, [] => None
  | a :: p', b :: s' => if a =? b then expect p' s' else None
  end.

Definition is_digit (c : codepoint) : bool := (48 <=? c) && (c <=? 57).

Fixpoint take_digits (s : pystr) : pystr * pystr :=
  match s with
  | [] => ([], [])
  | c :: s' =>
      if is_digit c
      then let '(d, r) := take_digits s' in (c :: d, r)
      else ([], s)
  end.

Definition digit_step (acc c : N) : N := 10 * acc + (c - 48).

Definition parse_int (s : pystr) : option (N * pystr) :=
  match take_digits s with
  | ([], _) => None
  | (d, r) => Some (fold_left digit_step d 0, r)
  end.

(** The items of a tuple after its opening parenthesis, up to and with the
    closing one. *)
Fixpoint parse_items (fuel : nat) (s : pystr) : option (list N * pystr) :=
  match fuel with
  | O => None
  | S k =>
      match parse_int s with
      | None => None
      | Some (n, r) =>
          match expect (lit ")") r, expect (lit ",)") r, expect (lit ", ") r with
          | Some r', _, _ => Some ([n], r')
          | None, Some r', _ => Some ([n], r')
          | None, None, Some r' =>
              match parse_items k r' with
              | Some (l, r'') => Some (n :: l, r'')
              | None => None
              end
          | None, None, None => None
          end
      end
  end.

Definition parse_tuple (s : pystr) : option (list N * pystr) :=
  match expect (lit "()") s, expect (lit "(") s with
  | Some r, _ => Some ([], r)
  | None, Some r => parse_items (List.length r) r
  | None, None => None
  end.

Definition parse_bool (s : pystr) : option (bool * pystr) :=
  match expect (lit "True") s, expect (lit "False") s with
  | Some r, _ => Some (true, r)
  | None, Some r => Some (false, r)
  | None, None => None
  end.

Definition parse_order (c : codepoint) : option byteorder :=
  if c =? 60 then Some little else if c =? 62 then Some big
  else if c =? 124 then Some not_applicable else None.

Definition parse_kind (c : codepoint) : option kind :=
  if c =? 98 then Some kind_bool else if c =? 105 then Some kind_int
  else if c =? 117 then Some kind_uint else if c =? 102 then Some kind_float
  else if c =? 99 then Some kind_complex else None.

(** [numpy.dtype(descr)] on a little-endian host: a one-byte item has no
    byte order, and ['|'] on a longer one means the native order. *)
Definition make_dtype (o : byteorder) (k : kind) (n : N) : dtype :=
  {| byte_order := if n =? 1 then not_applicable
                   else match o with not_applicable => little | _ => o end;
     dkind := k;
     itemsize := n |}.

Definition parse_descr (s : pystr) : option (dtype * pystr) :=
  match s with
  | o :: k :: r =>
      match parse_order o, parse_kind k, parse_int r with
      | Some o', Some k', Some (n, r') => Some (make_dtype o' k' n, r')
      | _, _, _ => None
      end
  | _ => None
  end.

Definition option_bind {A B} (o : option A) (k : A -> option B) : option B :=
  match o with Some a => k a | None => None end.

(** The header dictionary as [save] lays it out; after it only spaces and
    the closing newline may follow. *)
Definition parse_header (s : pystr) : option (dtype * bool * list N) :=
  option_bind (expect (lit "{'descr': '") s) (fun s =>
  option_bind (parse_descr s) (fun '(d, s) =>
  option_bind (expect (lit "', 'fortran_order': ") s) (fun s =>
  option_bind (parse_bool s) (fun '(f, s) =>
  option_bind (expect (lit ", 'shape': ") s) (fun s =>
  option_bind (parse_tuple s) (fun '(sh, s) =>
  option_bind (expect (lit ", }") s) (fun s =>
  if forallb (fun c => (c =? Str.SP) || (c =? Str.LF)) s
  then Some (d, f, sh) else None))))))).

(** [struct.unpack] of little-endian bytes. *)
Fixpoint unpack_le (bs : list N) : N :=
  match bs with
  | [] => 0
  | b :: r => b + 256 * unpack_le r
  end.

Definition MAX_HEADER_SIZE : N := 10000.

Definition invalid (msg : string) {A} : result A := Raise (ValueError (lit msg)).

(** The array after a prefix of [width] length bytes. *)
Definition read_array (width : nat) (s : list N) (raw : bytes) : result ndarray :=
  if Nat.ltb (List.length s) width then invalid "EOF: reading array header"
  else
    let hlen := unpack_le (firstn width s) in
    let s := skipn width s in
    let raw := skipn width raw in
    if N.of_nat (List.length s) <? hlen then invalid "EOF: reading array header"
    else if MAX_HEADER_SIZE <? hlen then invalid "Header info length is large"
    else
      match parse_header (firstn (N.to_nat hlen) s) with
      | None => invalid "Cannot parse header"
      | Some (d, f, sh) =>
          if negb (valid_dtype d) then invalid "descr is not a valid dtype descriptor"
          else
            let data := skipn (N.to_nat hlen) raw in
            let nbytes := itemsize d * size sh in
            if N.of_nat (List.length data) <? nbytes
            then invalid "EOF: reading array data"
            else Ok {| dt := d; shape := sh;
                       fortran := f && negb (both_contiguous sh);
                       buffer := firstn (N.to_nat nbytes) data |}
      end.

(** [np.load(buf)] with pickles not allowed (the default). What is not an
    NPY file of version 1.0 to 3.0 (an archive, a pickle, an empty buffer)
    yields no array and is modelled as refused. *)
Definition load (raw : bytes) : result ndarray :=
  let s := map Byte.to_N raw in
  match expect MAGIC_PREFIX s with
  | None => invalid "Cannot load file containing pickled data when allow_pickle=False"
  | Some r =>
      match r with
      | major :: minor :: r' =>
          if (major =? 1) && (minor =? 0) then read_array 2 r' (skipn 8 raw)
          else if ((major =? 2) || (major =? 3)) && (minor =? 0)
               then read_array 4 r' (skipn 8 raw)
          else invalid "we only support format version (1,0), (2,0), and (3,0)"
      | _ => invalid "EOF: reading magic string"
      end
  end.

End Numpy.

(** ** database.py: the SQLite store *)

(** Every operation of [database.py] opens its own connection to the one
    database file, commits and closes; the content of that file is the state
    [db] that the operations below take and return. *)

Module Database.

(** A Python [float]: the bit pattern of an IEEE-754 binary64. *)
Definition float64 := N.

(** All exponent bits set and a fraction that is not zero. *)
Definition is_nan (x : float64) : bool :=
  ((x / 2 ^ 52) mod 2 ^ 11 =? 2047) && negb (x mod 2 ^ 52 =? 0).

Definition NEGATIVE_ZERO : float64 := 2 ^ 63.

(** What a REAL column gives back for a float that was bound to it.  SQLite
    binds a NaN as NULL.  A float whose value is an integer is kept as that
    integer and turned into a float again when it is read, which gives the
    same float except for the negative zero, read as 0.0. *)
Definition real_column (x : float64) : option float64 :=
  if is_nan x then None
  else if x =? NEGATIVE_ZERO then Some 0
  else Some x.

(** The same for an argument that may be [None], which is bound as NULL. *)
Definition bound_real (v : option float64) : option float64 :=
  match v with
  | Some x => real_column x
  | None => None
  end.

(** A row of the table [documents]. [id] is the rowid. *)
Record row : Type := {
  id : Z;
  path : pystr;
  text : pystr;
  hash : pystr;
  embedding : bytes;
  file_size : option Z;
  modified_time : option float64
}.

(** The table: its rows in rowid order, which is the order a scan of the
    table or of an index on equal keys visits them, and the entry of
    [sqlite_sequence] that AUTOINCREMENT maintains (the largest rowid the
    table ever held). *)
Record table : Type := {
  rows : list row;
  seq : Z
}.

(** The database file: the table [documents], once created, and whether the
    index [idx_hash] exists. *)
Record db : Type := {
  documents : option table;
  idx_hash : bool
}.

(** A database file that [sqlite3.connect] has just created. *)
Definition empty_db : db := {| documents := None; idx_hash := false |}.

Definition no_such_table {A} : result A :=
  Raise (OperationalError (lit "no such table: documents")).

(** [CREATE TABLE IF NOT EXISTS] followed by [CREATE INDEX IF NOT EXISTS]. *)
Definition init_db (d : db) : db :=
  let d :=
    match documents d with
    | Some _ => d
    | None => {| documents := Some {| rows := []; seq := 0 |};
                 idx_hash := idx_hash d |}
    end in
  {| documents := documents d; idx_hash := true |}.

Definition serialize_embedding (embedding : Numpy.ndarray) : result bytes :=
  Numpy.save embedding.

Definition deserialize_embedding (blob : bytes) : result Numpy.ndarray :=
  Numpy.load blob.

Definition MAX_ROWID : Z := 9223372036854775807.

Definition max_rowid (rs : list row) : Z := fold_left (fun m r => Z.max m (id r)) rs 0%Z.

(** [INSERT OR REPLACE] of a row without an explicit [id]: the new rowid is
    one more than the largest the table ever held, the rows that conflict on
    the unique [path] are deleted, and the new row is added, with the time
    as the REAL column holds it. *)
Definition insert_or_replace (t : table) (p tx h : pystr) (e : bytes)
           (fsz : option Z) (mt : option float64) : result table :=
  let largest := Z.max (seq t) (max_rowid (rows t)) in
  if (MAX_ROWID <=? largest)%Z
  then Raise (OperationalError (lit "database or disk is full"))
  else
    let new_id := (largest + 1)%Z in
    let kept := filter (fun r => negb (str_eqb (path r) p)) (rows t) in
    Ok {| rows := kept ++ [{| id := new_id; path := p; text := tx; hash := h;
                              embedding := e; file_size := fsz;
                              modified_time := bound_real mt |}];
          seq := new_id |}.

Definition fits_int64 (z : Z) : bool :=
  ((- 9223372036854775808 <=? z) && (z <=? 9223372036854775807))%Z.

Definition insert_document (d : db) (path text file_hash : pystr)
           (embedding : Numpy.ndarray) (file_size : option Z)
           (modified_time : option float64) : result db :=
  blob <- serialize_embedding embedding ;;
  match documents d with
  | None => no_such_table
  | Some t =>
      bound <- match file_size with
               | Some z =>
                   if fits_int64 z then Ok tt
                   else Raise (OverflowError
                          (lit "Python int too large to convert to SQLite INTEGER"))
               | None => Ok tt
               end ;;
      t' <- insert_or_replace t path text file_hash blob file_size modified_time ;;
      Ok {| documents := Some t'; idx_hash := idx_hash d |}
  end.

(** [SELECT path FROM documents WHERE hash = ?] and [fetchone]. *)
Definition check_existing_hash (d : db) (file_hash : pystr) : result (option pystr) :=
  match documents d with
  | None => no_such_table
  | Some t =>
      let row := find (fun r => str_eqb (hash r) file_hash) (rows t) in
      Ok (match row with Some r => Some (path r) | None => None end)
  end.

(** An entry of the list [get_all_documents] returns. *)
Record document : Type := {
  doc_id : Z;
  doc_path : pystr;
  doc_text : pystr;
  doc_hash : pystr;
  doc_embedding : Numpy.ndarray;
  doc_file_size : option Z;
  doc_modified_time : option float64
}.

Fixpoint load_rows (rs : list row) : result (list document) :=
  match rs with
  | [] => Ok []
  | r :: rs' =>
      e <- deserialize_embedding (embedding r) ;;
      results <- load_rows rs' ;;
      Ok ({| doc_id := id r; doc_path := path r; doc_text := text r;
             doc_hash := hash r; doc_embedding := e;
             doc_file_size := file_size r;
             doc_modified_time := modified_time r |} :: results)
  end.

Definition get_all_documents (d : db) : result (list document) :=
  match documents d with
  | None => no_such_table
  | Some t => load_rows (rows t)
  end.

Definition get_document_count (d : db) : result Z :=
  match documents d with
  | None => no_such_table
  | Some t => Ok (Z.of_nat (List.length (rows t)))
  end.

Definition document_exists_by_path (d : db) (p : pystr) : result bool :=
  match documents d with
  | None => no_such_table
  | Some t => Ok (existsb (fun r => str_eqb (path r) p) (rows t))
  end.

(** The integrity the engine keeps: rowids increase along the table and
    never exceed the recorded sequence, and [path] is unique. *)
Definition consistent_table (t : table) : Prop :=
  StronglySorted Z.lt (map id (rows t))
  /\ Forall (fun r => (0 < id r <= seq t)%Z) (rows t)
  /\ NoDup (map path (rows t)).

Definition consistent (d : db) : Prop :=
  match documents d with
  | Some t => consistent_table t
  | None => True
  end.

(** A call of [insert_document], by its arguments. *)
Record call : Type := {
  arg_path : pystr;
  arg_text : pystr;
  arg_hash : pystr;
  arg_embedding : Numpy.ndarray;
  arg_file_size : option Z;
  arg_modified_time : option float64
}.

Definition insert_call (d : db) (c : call) : result db :=
  insert_document d (arg_path c) (arg_text c) (arg_hash c) (arg_embedding c)
                  (arg_file_size c) (arg_modified_time c).

(** A sequence of calls; one that raises leaves the store as it was (its
    transaction is never committed). *)
Definition insert_calls (d : db) (cs : list call) : db :=
  fold_left (fun d c => match insert_call d c with Ok d' => d' | Raise _ => d end) cs d.

(** The stored records of a path. *)
Definition records_of (d : db) (p : pystr) : list row :=
  match documents d with
  | Some t => filter (fun r => str_eqb (path r) p) (rows t)
  | None => []
  end.

End Database.

(** ** utils.py: metadata *)

(** What [os.stat] gives of a path. *)
Record stat_result : Type := {
  st_size : Z;
  st_mtime : Database.float64
}.

(** The operating system beside the file contents: [os.stat],
    [os.path.abspath], and the files found under a directory, however deep
    ([None] when the directory does not exist). *)
Record system : Type := {
  os_stat : pystr -> result stat_result;
  os_abspath : pystr -> pystr;
  os_walk : pystr -> option (list pystr)
}.

Record metadata : Type := {
  file_path : pystr;
  file_size : Z;
  modified_time : Database.float64;
  extension : pystr
}.

Definition file_metadata (env : libraries) (sys : system) (filepath : pystr)
  : result metadata :=
  stat <- os_stat sys filepath ;;
  Ok {| file_path := os_abspath sys filepath;
        file_size := st_size stat;
        modified_time := st_mtime stat;
        extension := Str.lower_with (unicode_lower env) (snd (Os.splitext filepath)) |}.

(** ** The indexing pipeline *)

Module Indexer.

(** What became of one file of the run. *)
Inductive outcome : Type :=
| Indexed
| SkippedUnsupported
| SkippedDuplicate (first_path : pystr)
| Failed (reason : exn).

(** The aggregate counts of a run and its failures with their reasons. *)
Record report : Type := {
  indexed : nat;
  skipped_unsupported : nat;
  skipped_duplicate : nat;
  failed : nat;
  failures : list (pystr * exn)
}.

Definition is_indexed (o : pystr * outcome) : bool :=
  match snd o with Indexed => true | _ => false end.
Definition is_unsupported (o : pystr * outcome) : bool :=
  match snd o with SkippedUnsupported => true | _ => false end.
Definition is_duplicate (o : pystr * outcome) : bool :=
  match snd o with SkippedDuplicate _ => true | _ => false end.
Definition is_failed (o : pystr * outcome) : bool :=
  match snd o with Failed _ => true | _ => false end.

Definition summarize (outcomes : list (pystr * outcome)) : report :=
  {| indexed := List.length (filter is_indexed outcomes);
     skipped_unsupported := List.length (filter is_unsupported outcomes);
     skipped_duplicate := List.length (filter is_duplicate outcomes);
     failed := List.length (filter is_failed outcomes);
     failures :=
       flat_map (fun o => match snd o with
                          | Failed e => [(fst o, e)]
                          | _ => []
                          end) outcomes |}.

Section Pipeline.

Variable env : libraries.
Variable sys : system.
Variable fs : filesystem.

(** The embedder, a collaborator outside the repository. *)
Variable embed : pystr -> Numpy.ndarray.

Definition supported (ext : pystr) : bool :=
  str_eqb ext (lit ".pdf") || str_eqb ext (lit ".docx") || str_eqb ext (lit ".txt").

(** Modelled from the spec: step 3b, the stored path this hash is known
    under when it is a different path. *)
Definition duplicate_of (path : pystr) (known : option pystr) : option pystr :=
  match known with
  | Some other => if str_eqb other path then None else Some other
  | None => None
  end.

(** Modelled from the spec: the per-file body of [index_directory], whose
    module [indexer] is not among the sources. Section 4.4, steps 3a to 3g:
    an unsupported extension is skipped; the content hash is computed and a
    record with this hash under a different path makes the file an exact
    duplicate; the text is extracted; the metadata and the embedding are
    computed and the record is upserted. An error of any step is caught,
    recorded with its reason, and leaves the store as it was. *)
Definition index_file (store : Database.db) (path : pystr)
  : Database.db * outcome :=
  let ext := Str.lower_with (unicode_lower env) (snd (Os.splitext path)) in
  if negb (supported ext) then (store, SkippedUnsupported)
  else
    match file_hash fs path with
    | Raise e => (store, Failed e)
    | Ok content_hash =>
        match Database.check_existing_hash store content_hash with
        | Raise e => (store, Failed e)
        | Ok known =>
            match duplicate_of path known with
            | Some other => (store, SkippedDuplicate other)
            | None =>
                match extract_text env fs path with
                | Raise e => (store, Failed e)
                | Ok text =>
                    match file_metadata env sys path with
                    | Raise e => (store, Failed e)
                    | Ok meta =>
                        let embedding := embed text in
                        match Database.insert_document store path text content_hash
                                embedding (Some (file_size meta))
                                (Some (modified_time meta)) with
                        | Raise e => (store, Failed e)
                        | Ok store' => (store', Indexed)
                        end
                    end
                end
            end
        end
    end.

(** Modelled from the spec: the loop of [index_directory] over the
    enumerated files, one after the other, each to completion. *)
Fixpoint index_files (store : Database.db) (files : list pystr)
  : Database.db * list (pystr * outcome) :=
  match files with
  | [] => (store, [])
  | path :: rest =>
      let '(store, o) := index_file store path in
      let '(store, outcomes) := index_files store rest in
      (store, (path, o) :: outcomes)
  end.

(** Modelled from the spec: [index_directory(root_path)] of the missing
    module [indexer], section 4.4: the schema is ensured, the files under
    the root are enumerated and processed, and the outcomes are reported.
    A root that does not exist aborts the run. *)
Definition index_directory (store : Database.db) (root_path : pystr)
  : result (Database.db * list (pystr * outcome) * report) :=
  let store := Database.init_db store in
  match os_walk sys root_path with
  | None => Raise (FileNotFoundError root_path)
  | Some files =>
      let '(store, outcomes) := index_files store files in
      Ok (store, outcomes, summarize outcomes)
  end.

End Pipeline.

End Indexer.

(** ** Reading a text file, as the specification words it *)

(** The first of the encodings that decodes the content in strict mode, or
    else the permissive UTF-8 decoding. *)
Fixpoint first_decoding (encodings : list Codecs.encoding) (content : bytes)
  : option pystr :=
  match encodings with
  | [] => Codecs.decode Codecs.utf_8 Codecs.replace content
  | enc :: rest =>
      match Codecs.decode enc Codecs.strict content with
      | Some s => Some s
      | None => first_decoding rest content
      end
  end.

(** The extension [extract_text] dispatches on. *)
Definition extension_of (env : libraries) (filepath : pystr) : pystr :=
  Str.lower_with (unicode_lower env) (snd (Os.splitext filepath)).

(** A parser that fails on a file raises an exception of its own library,
    not the [FileNotFoundError] of a missing path. *)
Definition parsers_keep_to_their_errors (env : libraries) : Prop :=
  (forall open_ nd msg,
     pdfplumber_open env = Some open_ -> open_ nd <> Raise (FileNotFoundError msg))
  /\ (forall Document nd msg,
     docx_Document env = Some Document -> Document nd <> Raise (FileNotFoundError msg)).

(** ** Cleaned text, as the specification words it *)

(** What the loop of [_clean_text] makes of one line. *)
Definition clean_line (line : pystr) : pystr := Str.strip (Re.sub_blanks line).

(** No tab, and no space right after a space; [after_space] tells whether a
    space comes just before [s]. *)
Fixpoint single_spaced (after_space : bool) (s : pystr) : Prop :=
  match s with
  | [] => True
  | c :: s' =>
      c <> Str.TAB /\ (c = Str.SP -> after_space = false)
      /\ single_spaced (c =? Str.SP) s'
  end.

(** A line of a cleaned text: not empty, free of line boundaries, single
    spaced, and with no white space at either end. *)
Definition tidy_line (l : pystr) : Prop :=
  l <> []
  /\ Forall (fun c => Str.is_linebreak c = false) l
  /\ single_spaced false l
  /\ (forall c r, l = c :: r -> Str.isspace c = false)
  /\ (forall c r, l = r ++ [c] -> Str.isspace c = false).

(** A cleaned text: no carriage return, no tab, no two spaces in a row, and
    made of tidy lines joined by single newlines. *)
Definition tidy_text (s : pystr) : Prop :=
  ~ In Str.CR s
  /\ ~ In Str.TAB s
  /\ (forall a b, s <> a ++ [Str.SP; Str.SP] ++ b)
  /\ exists lines, s = Str.join [Str.LF] lines /\ Forall tidy_line lines.

(** ** Runs of the pipeline *)






(** ** cli.py: the commands and [main] *)

Module Cli.

(** What a call into the application can raise, by the classes the handlers
    of [cli.py] tell apart: [KeyboardInterrupt] and [SystemExit], which are
    no [Exception]; [NotImplementedError]; and any other [Exception]. *)
Inductive raised : Type :=
| KeyboardInterrupt
| SystemExit (status : Z)
| NotImplementedError (msg : pystr)
| Error (e : exn).

Inductive ending (A : Type) : Type :=
| Return (a : A)
| Throw (r : raised).
Arguments Return {A} a.
Arguments Throw {A} r.

(** A call that prints: the arguments of its [print] calls, in order, and
    how it ended. *)
Definition io (A : Type) : Type := list pystr * ending A.

(** The functions the commands import and call, each import taken together
    with the call that follows it (a module that cannot be imported raises
    from the same place), and [str] of an exception, which [main] prints. *)
Record application : Type := {
  index_directory : pystr -> io unit;
  search : pystr -> Z -> io unit;
  find_duplicates : Database.float64 -> io unit;
  cluster_documents : Z -> io unit;
  str_of : raised -> pystr
}.

(** The namespace [parse_args] returns, by the sub-command that was chosen;
    [build_parser] binds [func] to the command of the same name. *)
Inductive args : Type :=
| Index (directory : pystr)
| Search (query : pystr) (topk : Z)
| Duplicates (threshold : Database.float64)
| Cluster (k : Z).

(** [try: body except NotImplementedError: print(notice)] *)
Definition unless_not_implemented (body : io unit) (notice : pystr) : io unit :=
  match body with
  | (out, Throw (NotImplementedError _)) => (out ++ [notice], Return tt)
  | other => other
  end.

Section Commands.

Variable app : application.

Definition cmd_index (directory : pystr) : io unit :=
  index_directory app directory.

Definition cmd_search (query : pystr) (topk : Z) : io unit :=
  unless_not_implemented (search app query topk)
    (lit "[Search] Not yet implemented. Coming in Phase 3.").

Definition cmd_duplicates (threshold : Database.float64) : io unit :=
  unless_not_implemented (find_duplicates app threshold)
    (lit "[Duplicates] Not yet implemented. Coming in Phase 4.").

Definition cmd_cluster (k : Z) : io unit :=
  unless_not_implemented (cluster_documents app k)
    (lit "[Cluster] Not yet implemented. Coming in Phase 5.").

(** [args.func(args)] *)
Definition func (a : args) : io unit :=
  match a with
  | Index directory => cmd_index directory
  | Search query topk => cmd_search query topk
  | Duplicates threshold => cmd_duplicates threshold
  | Cluster k => cmd_cluster k
  end.

(** How the process ends: [main] returns, [sys.exit] is called, or an
    exception leaves [main]. *)
Inductive exit : Type :=
| Finished
| Exited (status : Z)
| Uncaught (r : raised).

(** [main] once [parse_args] has returned [a]. *)
Definition main (a : args) : list pystr * exit :=
  match func a with
  | (out, Return _) => (out, Finished)
  | (out, Throw KeyboardInterrupt) =>
      (out ++ [Str.LF :: lit "[Interrupted]"], Exited 0)
  | (out, Throw (SystemExit status)) => (out, Uncaught (SystemExit status))
  | (out, Throw e) =>
      (out ++ [Str.LF :: lit "[Fatal Error] " ++ str_of app e], Uncaught e)
  end.

(** The call into the application that the command of [a] makes. *)
Definition call (a : args) : io unit :=
  match a with
  | Index directory => index_directory app directory
  | Search query topk => search app query topk
  | Duplicates threshold => find_duplicates app threshold
  | Cluster k => cluster_documents app k
  end.

(** The notice of a command that has one. *)
Definition notice (a : args) : option pystr :=
  match a with
  | Index _ => None
  | Search _ _ => Some (lit "[Search] Not yet implemented. Coming in Phase 3.")
  | Duplicates _ => Some (lit "[Duplicates] Not yet implemented. Coming in Phase 4.")
  | Cluster _ => Some (lit "[Cluster] Not yet implemented. Coming in Phase 5.")
  end.

End Commands.

End Cli.

(** ** Sample inputs *)

Module Sample.

(** A float32 vector of three zeros. *)
Definition array : Numpy.ndarray :=
  {| Numpy.dt := {| Numpy.byte_order := Numpy.little;
                    Numpy.dkind := Numpy.kind_float;
                    Numpy.itemsize := 4 |};
     Numpy.shape := [3];
     Numpy.fortran := false;
     Numpy.buffer := repeat x00 12 |}.

Definition embed (text : pystr) : Numpy.ndarray := array.

(** pdfplumber refuses every file; python-docx is not installed; a string
    that is not ASCII is its own lowercase. *)
Definition env : libraries :=
  {| pdfplumber_open :=
       Some (fun _ => Raise (LibraryError (lit "No /Root object! - Is this really a PDF?")));
     docx_Document := None;
     unicode_lower := fun s => s |}.

Definition pdf : pystr := lit "docs/broken.pdf".

Definition listing : list pystr :=
  [pdf; lit "docs/a.txt"; lit "docs/b.txt"; lit "docs/c.txt"; lit "docs/d.txt"].

Definition sys : system :=
  {| os_stat := fun _ => Ok {| st_size := 12; st_mtime := 0 |};
     os_abspath := fun p => p;
     os_walk := fun root => if str_eqb root (lit "docs") then Some listing else None |}.

Fixpoint lookup (files : list (pystr * node)) (p : pystr) : option node :=
  match files with
  | [] => None
  | (q, nd) :: rest => if str_eqb q p then Some nd else lookup rest p
  end.

(** The bytes of [a TAB b SP SP LF LF SP SP c SP LF]. *)
Definition messy : bytes :=
  [x61; x09; x62; x20; x20; x0a; x0a; x20; x20; x63; x20; x0a].

(** Five files with five different contents. *)
Definition fs_distinct : filesystem :=
  lookup [(pdf, File [x25; x50; x44; x46]);
          (lit "docs/a.txt", File messy);
          (lit "docs/b.txt", File [x62]);
          (lit "docs/c.txt", File [x63]);
          (lit "docs/d.txt", File [x64])].


Definition calls : list Database.call :=
  [{| Database.arg_path := lit "docs/a.txt"; Database.arg_text := lit "a b";
      Database.arg_hash := lit "h1"; Database.arg_embedding := array;
      Database.arg_file_size := Some 12%Z; Database.arg_modified_time := Some 0 |};
   {| Database.arg_path := lit "docs/b.txt"; Database.arg_text := lit "b";
      Database.arg_hash := lit "h1"; Database.arg_embedding := array;
      Database.arg_file_size := None; Database.arg_modified_time := None |}].

(** python-docx finds no file under the path it is given. *)
Definition vanished : libraries :=
  {| pdfplumber_open := None;
     docx_Document :=
       Some (fun _ => Raise (FileNotFoundError
                               (lit "[Errno 2] No such file or directory: 'docs/d.docx'")));
     unicode_lower := fun s => s |}.

(** A quiet NaN. *)
Definition nan : Database.float64 := 9221120237041090560.

(** The two sample calls, and the first of them once more. *)
Definition calls_again : list Database.call :=
  calls ++ [{| Database.arg_path := lit "docs/a.txt"; Database.arg_text := lit "a b";
               Database.arg_hash := lit "h1"; Database.arg_embedding := array;
               Database.arg_file_size := Some 12%Z;
               Database.arg_modified_time := Some 0 |}].

(** The store after the two sample calls. *)
Definition store : Database.db :=
  Database.insert_calls (Database.init_db Database.empty_db) calls.

(** Both parsers at work: a PDF of five pages, of which the second fails and
    the third and fourth give no text, and a document of two paragraphs and
    one table of two cells. *)
Definition reader : libraries :=
  {| pdfplumber_open :=
       Some (fun _ => Ok [Ok (Some (lit "one"));
                          Raise (LibraryError (lit "bad page"));
                          Ok None;
                          Ok (Some []);
                          Ok (Some (lit "two"))]);
     docx_Document :=
       Some (fun _ => Ok {| paragraphs := [lit "title"; []];
                            tables := [[[lit "cell"; lit " "]]] |});
     unicode_lower := fun s => s |}.

(** An application whose indexer works and prints one line and whose other
    modules are stubs. *)
Definition app : Cli.application :=
  {| Cli.index_directory :=
       fun _ => ([lit "Indexed 0 files"], Cli.Return tt);
     Cli.search :=
       fun _ _ => ([], Cli.Throw (Cli.NotImplementedError []));
     Cli.find_duplicates :=
       fun _ => ([], Cli.Throw (Cli.NotImplementedError []));
     Cli.cluster_documents :=
       fun _ => ([], Cli.Throw (Cli.NotImplementedError []));
     Cli.str_of := fun _ => [] |}.

End Sample.

(** ** Rows and the documents read from them *)

(** [doc] is what [get_all_documents] makes of the row [r]. *)
Definition loaded (r : Database.row) (doc : Database.document) : Prop :=
  Database.doc_id doc = Database.id r
  /\ Database.doc_path doc = Database.path r
  /\ Database.doc_text doc = Database.text r
  /\ Database.doc_hash doc = Database.hash r
  /\ Database.deserialize_embedding (Database.embedding r)
     = Ok (Database.doc_embedding doc)
  /\ Database.doc_file_size doc = Database.file_size r
  /\ Database.doc_modified_time doc = Database.modified_time r.

(** The row [r] holds what the call [c] of [insert_document] passed, the
    time as the REAL column holds it. *)
Definition row_of_call (r : Database.row) (c : Database.call) : Prop :=
  Database.path r = Database.arg_path c
  /\ Database.text r = Database.arg_text c
  /\ Database.hash r = Database.arg_hash c
  /\ Database.serialize_embedding (Database.arg_embedding c) = Ok (Database.embedding r)
  /\ Database.file_size r = Database.arg_file_size c
  /\ Database.modified_time r = Database.bound_real (Database.arg_modified_time c).

(** The document [doc] is what the call [c] passed, the array included, with
    the time as the REAL column gives it back. *)
Definition document_of_call (doc : Database.document) (c : Database.call) : Prop :=
  Database.doc_path doc = Database.arg_path c
  /\ Database.doc_text doc = Database.arg_text c
  /\ Database.doc_hash doc = Database.arg_hash c
  /\ Database.doc_embedding doc = Database.arg_embedding c
  /\ Database.doc_file_size doc = Database.arg_file_size c
  /\ Database.doc_modified_time doc
     = Database.bound_real (Database.arg_modified_time c).

(** ** Text without its white space *)

(** The characters of [s] that are not white space, in order. *)
Definition visible (s : pystr) : pystr := filter (fun c => negb (Str.isspace c)) s.

(** ** Document texts, as lists *)

(** The texts of the pages that gave a non-empty text, in page order. *)
Definition page_texts (pages : list pdf_page) : list pystr :=
  flat_map (fun page =>
              match page with
              | Ok (Some content) => if Str.nonempty content then [content] else []
              | _ => []
              end) pages.

(** The cells of all tables, table by table and row by row, that are not
    blank. *)
Definition cell_texts (doc : docx_document) : list pystr :=
  filter (fun cell => Str.nonempty (Str.strip cell))
         (List.concat (List.concat (tables doc))).

(** * Properties *)

(** ** Strings and results *)

Lemma str_eqb_eq (a b : pystr) : str_eqb a b = true <-> a = b.
Proof.
  unfold str_eqb. destruct (list_eq_dec N.eq_dec a b); split; congruence.
Qed.

Lemma str_eqb_refl (a : pystr) : str_eqb a a = true.
Proof. apply str_eqb_eq. reflexivity. Qed.

Lemma str_eqb_neq (a b : pystr) : str_eqb a b = false <-> a <> b.
Proof.
  unfold str_eqb. destruct (list_eq_dec N.eq_dec a b); split; congruence.
Qed.

Lemma bind_ok {A B} (r : result A) (k : A -> result B) (b : B) :
  bind r k = Ok b -> exists a, r = Ok a /\ k a = Ok b.
Proof. destruct r as [a|e]; simpl; [eauto | discriminate]. Qed.

(** ** The document store *)

Section DatabaseFacts.
Import Database.

Lemma fold_max_ge (rs : list row) (m : Z) :
  (m <= fold_left (fun m r => Z.max m (id r)) rs m)%Z.
Proof.
  revert m. induction rs as [|r rs IH]; intro m; simpl; [lia|].
  specialize (IH (Z.max m (id r))). lia.
Qed.

Lemma fold_max_in (rs : list row) (m : Z) (r : row) :
  In r rs -> (id r <= fold_left (fun m r => Z.max m (id r)) rs m)%Z.
Proof.
  revert m. induction rs as [|r0 rs IH]; intros m Hin; [contradiction|].
  simpl. destruct Hin as [->|Hin].
  - pose proof (fold_max_ge rs (Z.max m (id r))). lia.
  - apply IH. exact Hin.
Qed.

Lemma max_rowid_in (rs : list row) (r : row) : In r rs -> (id r <= max_rowid rs)%Z.
Proof. apply fold_max_in. Qed.

Lemma sorted_filter (f : row -> bool) (rs : list row) :
  StronglySorted Z.lt (map id rs) -> StronglySorted Z.lt (map id (filter f rs)).
Proof.
  induction rs as [|r rs IH]; simpl; intro H; [constructor|].
  apply StronglySorted_inv in H. destruct H as [Hs Hall].
  destruct (f r); simpl; [|auto].
  constructor; [auto|].
  rewrite Forall_forall in *. intros z Hz.
  apply Hall. rewrite in_map_iff in *. destruct Hz as [x [Hx Hin]].
  exists x. split; [exact Hx|]. apply filter_In in Hin. tauto.
Qed.

Lemma sorted_snoc (l : list Z) (x : Z) :
  StronglySorted Z.lt l -> Forall (fun y => (y < x)%Z) l ->
  StronglySorted Z.lt (l ++ [x]).
Proof.
  induction l as [|a l IH]; simpl; intros Hs Hall.
  - constructor; constructor.
  - apply StronglySorted_inv in Hs. destruct Hs as [Hs Ha].
    inversion Hall; subst. constructor; [auto|].
    apply Forall_app. split; [exact Ha|]. constructor; [assumption|constructor].
Qed.

Lemma filter_complement_nil (f : row -> bool) (rs : list row) :
  filter f (filter (fun r => negb (f r)) rs) = [].
Proof.
  induction rs as [|r rs IH]; simpl; [reflexivity|].
  destruct (f r) eqn:E; simpl; [exact IH|]. rewrite E. exact IH.
Qed.

Lemma filter_split_length (f : row -> bool) (rs : list row) :
  (List.length (filter f rs) + List.length (filter (fun r => negb (f r)) rs)
   = List.length rs)%nat.
Proof.
  induction rs as [|r rs IH]; simpl; [reflexivity|].
  destruct (f r); simpl; lia.
Qed.

(** With unique paths, a path has at most one row. *)
Lemma unique_path_filter (p : pystr) (rs : list row) :
  NoDup (map path rs) ->
  (List.length (filter (fun r => str_eqb (path r) p) rs) <= 1)%nat.
Proof.
  induction rs as [|r rs IH]; simpl; intro H; [lia|].
  inversion H as [|x l Hnot Hnd]; subst.
  destruct (str_eqb (path r) p) eqn:E; [|auto].
  apply str_eqb_eq in E. simpl.
  assert (Hnil : filter (fun r0 => str_eqb (path r0) p) rs = []).
  { destruct (filter (fun r0 => str_eqb (path r0) p) rs) as [|r1 l1] eqn:F;
      [reflexivity|].
    exfalso. apply Hnot.
    assert (Hin : In r1 (filter (fun r0 => str_eqb (path r0) p) rs))
      by (rewrite F; left; reflexivity).
    apply filter_In in Hin. destruct Hin as [Hin Hp].
    apply str_eqb_eq in Hp. rewrite E, <- Hp. apply in_map. exact Hin. }
  rewrite Hnil. simpl. lia.
Qed.

Lemma nodup_path_filter (f : row -> bool) (rs : list row) :
  NoDup (map path rs) -> NoDup (map path (filter f rs)).
Proof.
  induction rs as [|r rs IH]; simpl; intro H; [constructor|].
  inversion H as [|x l Hnot Hnd]; subst.
  destruct (f r); simpl; [|auto].
  constructor; [|auto].
  intro Hin. apply Hnot. apply in_map_iff in Hin. destruct Hin as [y [Hy Hin]].
  apply filter_In in Hin. rewrite <- Hy. apply in_map. tauto.
Qed.

Lemma insert_or_replace_rows (t t' : table) (p tx h : pystr) (e : bytes)
      (fsz : option Z) (mt : option float64) :
  insert_or_replace t p tx h e fsz mt = Ok t' ->
  let new_id := (Z.max (seq t) (max_rowid (rows t)) + 1)%Z in
  rows t' = filter (fun r => negb (str_eqb (path r) p)) (rows t)
              ++ [{| id := new_id; path := p; text := tx; hash := h;
                     embedding := e; file_size := fsz;
                     modified_time := bound_real mt |}]
  /\ seq t' = new_id
  /\ (new_id <= MAX_ROWID)%Z.
Proof.
  unfold insert_or_replace.
  destruct (MAX_ROWID <=? Z.max (seq t) (max_rowid (rows t)))%Z eqn:E;
    [discriminate|].
  intro H. injection H as <-. cbn [rows seq]. apply Z.leb_gt in E.
  split; [reflexivity|split; [reflexivity|lia]].
Qed.

Lemma insert_or_replace_consistent (t t' : table) (p tx h : pystr) (e : bytes)
      (fsz : option Z) (mt : option float64) :
  consistent_table t ->
  insert_or_replace t p tx h e fsz mt = Ok t' ->
  consistent_table t'.
Proof.
  intros [Hs [Hb Hn]] H.
  apply insert_or_replace_rows in H. cbv zeta in H. destruct H as [Hr [Hq _]].
  pose proof (fold_max_ge (rows t) 0) as Hpos. fold (max_rowid (rows t)) in Hpos.
  unfold consistent_table. rewrite Hr, Hq. repeat split.
  - rewrite map_app. simpl. apply sorted_snoc; [apply sorted_filter; exact Hs|].
    rewrite Forall_forall. intros z Hz. apply in_map_iff in Hz.
    destruct Hz as [r [<- Hin]]. apply filter_In in Hin. destruct Hin as [Hin _].
    apply max_rowid_in in Hin. lia.
  - apply Forall_app. split.
    + rewrite Forall_forall in *. intros r Hin. apply filter_In in Hin.
      destruct Hin as [Hin _]. specialize (Hb r Hin). simpl in *. lia.
    + constructor; [simpl; lia|constructor].
  - rewrite map_app. simpl. apply NoDup_app. repeat split.
    + apply nodup_path_filter. exact Hn.
    + constructor; [intros []|constructor].
    + intros a Ha [<-|[]]. apply in_map_iff in Ha. destruct Ha as [r [Hp Hin]].
      apply filter_In in Hin. destruct Hin as [_ Hneq].
      rewrite Hp, str_eqb_refl in Hneq. discriminate.
Qed.

Lemma insert_document_inv (d d' : db) (p tx h : pystr) (e : Numpy.ndarray)
      (fsz : option Z) (mt : option float64) :
  insert_document d p tx h e fsz mt = Ok d' ->
  exists t blob t',
    documents d = Some t /\ serialize_embedding e = Ok blob
    /\ insert_or_replace t p tx h blob fsz mt = Ok t'
    /\ d' = {| documents := Some t'; idx_hash := idx_hash d |}.
Proof.
  unfold insert_document. intro H.
  apply bind_ok in H. destruct H as [blob [Hblob H]].
  destruct (documents d) as [t|]; [|discriminate].
  apply bind_ok in H. destruct H as [u [_ H]].
  apply bind_ok in H. destruct H as [t' [Ht' H]].
  injection H as <-. exists t, blob, t'. auto.
Qed.

Lemma insert_document_consistent (d d' : db) (p tx h : pystr)
      (e : Numpy.ndarray) (fsz : option Z) (mt : option float64) :
  consistent d -> insert_document d p tx h e fsz mt = Ok d' -> consistent d'.
Proof.
  intros Hc H. apply insert_document_inv in H.
  destruct H as [t [blob [t' [Ht [_ [Hins ->]]]]]].
  unfold consistent in *. simpl. rewrite Ht in Hc.
  eapply insert_or_replace_consistent; eauto.
Qed.

Lemma insert_calls_consistent (cs : list call) (d : db) :
  consistent d -> consistent (insert_calls d cs).
Proof.
  unfold insert_calls. revert d.
  induction cs as [|c cs IH]; intros d Hc; cbn [fold_left]; [exact Hc|].
  apply IH. destruct (insert_call d c) as [d'|] eqn:E; [|exact Hc].
  eapply insert_document_consistent; eauto.
Qed.

Lemma consistent_records_of (d : db) (p : pystr) :
  consistent d -> (List.length (records_of d p) <= 1)%nat.
Proof.
  unfold consistent, records_of. destruct (documents d) as [t|]; simpl; [|lia].
  intros [_ [_ Hn]]. apply unique_path_filter. exact Hn.
Qed.

(** C1, amended. Whatever calls of [insert_document] a consistent store has
    gone through, it holds at most one record per path; and a call for a path
    that already has a record succeeds only by replacing it: the number of
    records is unchanged, and the one record of the path carries the text,
    hash, serialized embedding and size of this call, and its time as the
    REAL column holds it, which is the time of the call unless that is a NaN
    or the negative zero. *)
Theorem insert_document_replaces (d : db) (cs : list call) :
  consistent d ->
  let store := insert_calls d cs in
  (forall q, (List.length (records_of store q) <= 1)%nat)
  /\ forall p tx h e fsz mt store',
       document_exists_by_path store p = Ok true ->
       insert_document store p tx h e fsz mt = Ok store' ->
       get_document_count store' = get_document_count store
       /\ (forall q, (List.length (records_of store' q) <= 1)%nat)
       /\ exists new_id blob,
            serialize_embedding e = Ok blob
            /\ records_of store' p =
                 [{| id := new_id; path := p; text := tx; hash := h;
                     embedding := blob; file_size := fsz;
                     modified_time := bound_real mt |}]
            /\ (forall x, mt = Some x -> is_nan x = false ->
                 x <> NEGATIVE_ZERO -> bound_real mt = Some x).
Proof.
  intros Hd store.
  assert (Hs : consistent store) by (apply insert_calls_consistent; exact Hd).
  split; [intro q; apply consistent_records_of; exact Hs|].
  intros p tx h e fsz mt store' Hex Hins.
  assert (Hs' : consistent store') by (eapply insert_document_consistent; eauto).
  apply insert_document_inv in Hins.
  destruct Hins as [t [blob [t' [Ht [Hblob [Hins ->]]]]]].
  apply insert_or_replace_rows in Hins. cbv zeta in Hins.
  destruct Hins as [Hr [_ _]].
  split; [|split; [intro q; apply consistent_records_of; exact Hs'|]].
  - unfold get_document_count, document_exists_by_path in *. simpl.
    rewrite Ht in *. f_equal. f_equal. rewrite Hr, length_app. simpl.
    injection Hex as Hex.
    pose proof (filter_split_length (fun r => str_eqb (path r) p) (rows t)) as Hl.
    assert (Hone : (List.length (filter (fun r => str_eqb (path r) p) (rows t)) = 1)%nat).
    { unfold consistent in Hs. rewrite Ht in Hs. destruct Hs as [_ [_ Hn]].
      pose proof (unique_path_filter p (rows t) Hn) as Hle.
      apply existsb_exists in Hex. destruct Hex as [r [Hin Hp]].
      assert (Hf : In r (filter (fun r => str_eqb (path r) p) (rows t)))
        by (apply filter_In; auto).
      destruct (filter (fun r => str_eqb (path r) p) (rows t)); [contradiction|].
      simpl in *. lia. }
    lia.
  - exists (Z.max (seq t) (max_rowid (rows t)) + 1)%Z, blob.
    split; [exact Hblob|split].
    + unfold records_of. simpl. rewrite Hr, filter_app.
      rewrite (filter_complement_nil (fun r => str_eqb (path r) p)).
      simpl. rewrite str_eqb_refl. reflexivity.
    + intros x -> Hnan Hzero. cbn [bound_real]. unfold real_column.
      apply N.eqb_neq in Hzero. rewrite Hnan, Hzero. reflexivity.
Qed.

Lemma find_none_iff (f : row -> bool) (rs : list row) :
  find f rs = None <-> forall r, In r rs -> f r = false.
Proof.
  split; [apply find_none|].
  induction rs as [|r rs IH]; simpl; intro H; [reflexivity|].
  rewrite (H r (or_introl eq_refl)). apply IH. intros r' Hin. apply H. right. exact Hin.
Qed.

(** In a table sorted by rowid, [find] returns the matching row of least
    rowid. *)
Lemma find_least (f : row -> bool) (rs : list row) (r : row) :
  StronglySorted Z.lt (map id rs) -> find f rs = Some r ->
  In r rs /\ f r = true /\ forall r', In r' rs -> f r' = true -> (id r <= id r')%Z.
Proof.
  induction rs as [|r0 rs IH]; simpl; intros Hs Hf; [discriminate|].
  apply StronglySorted_inv in Hs. destruct Hs as [Hs Hall].
  destruct (f r0) eqn:E.
  - injection Hf as <-. repeat split; auto.
    intros r' [<-|Hin] _; [lia|].
    rewrite Forall_forall in Hall. specialize (Hall (id r') (in_map id rs r' Hin)). lia.
  - destruct (IH Hs Hf) as [Hin [Hfr Hmin]]. repeat split; auto.
    intros r' [<-|Hin'] Hr'; [congruence|auto].
Qed.

Lemma check_existing_hash_find (d : db) (t : table) (h : pystr) :
  documents d = Some t ->
  check_existing_hash d h
  = Ok (match find (fun r => str_eqb (hash r) h) (rows t) with
        | Some r => Some (path r)
        | None => None
        end).
Proof. unfold check_existing_hash. intros ->. reflexivity. Qed.

(** C8, amended. On an initialized, consistent store [check_existing_hash]
    returns [None] exactly when no stored record has the hash; a path it
    returns is the one of the stored record of least rowid among those with
    the hash, and rowids follow the latest insertion of each path: a call of
    [insert_document] gives its record a rowid above all the records it
    keeps, also when the path was stored before. After two byte-identical
    files are stored under different paths in a store that did not hold their
    hash, the first path is returned. *)
Theorem check_existing_hash_first_path (d : db) (t : table) (h : pystr) :
  consistent d ->
  documents d = Some t ->
  (check_existing_hash d h = Ok None
   <-> forall r, In r (rows t) -> hash r <> h)
  /\ (forall r, In r (rows t) -> hash r = h ->
      exists p, check_existing_hash d h = Ok (Some p))
  /\ (forall p, check_existing_hash d h = Ok (Some p) ->
      exists r, In r (rows t) /\ hash r = h /\ path r = p
                /\ forall r', In r' (rows t) -> hash r' = h -> (id r <= id r')%Z)
  /\ (forall p tx h' e fsz mt d' t',
      insert_document d p tx h' e fsz mt = Ok d' -> documents d' = Some t' ->
      exists new kept,
        rows t' = kept ++ [new] /\ path new = p /\ hash new = h'
        /\ incl kept (rows t) /\ Forall (fun r => (id r < id new)%Z) kept)
  /\ (forall p1 p2 tx1 tx2 e1 e2 fsz1 fsz2 mt1 mt2 d1 d2,
      check_existing_hash d h = Ok None ->
      insert_document d p1 tx1 h e1 fsz1 mt1 = Ok d1 ->
      insert_document d1 p2 tx2 h e2 fsz2 mt2 = Ok d2 ->
      p1 <> p2 ->
      check_existing_hash d2 h = Ok (Some p1)).
Proof.
  intros Hc Ht. pose proof Hc as Hc0.
  unfold consistent in Hc. rewrite Ht in Hc. destruct Hc as [Hs [Hb Hn]].
  rewrite (check_existing_hash_find d t h Ht).
  assert (Hnone : find (fun r => str_eqb (hash r) h) (rows t) = None
                  <-> forall r, In r (rows t) -> hash r <> h).
  { rewrite find_none_iff. split; intros H r Hin.
    - apply str_eqb_neq. apply H. exact Hin.
    - apply str_eqb_neq. apply H. exact Hin. }
  split; [|split; [|split; [|split]]].
  - destruct (find _ (rows t)) as [r|] eqn:F.
    + split; [discriminate|]. intro H. apply Hnone in H. discriminate.
    + split; [intros _; apply Hnone; reflexivity|reflexivity].
  - intros r Hin Hh.
    destruct (find _ (rows t)) as [r0|] eqn:F; [eauto|].
    exfalso. exact (proj1 Hnone eq_refl r Hin Hh).
  - intros p Hp.
    destruct (find _ (rows t)) as [r|] eqn:F; [|discriminate].
    injection Hp as <-. apply find_least in F; [|exact Hs].
    destruct F as [Hin [Hh Hmin]]. apply str_eqb_eq in Hh.
    exists r. repeat split; auto.
    intros r' Hin' Hh'. apply Hmin; [exact Hin'|]. apply str_eqb_eq. exact Hh'.
  - intros p tx h' e fsz mt d' t' Hins Ht'.
    apply insert_document_inv in Hins.
    destruct Hins as [t0 [blob [t1 [Ht0 [_ [Hins ->]]]]]].
    simpl in Ht'. injection Ht' as ->. rewrite Ht in Ht0. injection Ht0 as <-.
    apply insert_or_replace_rows in Hins. cbv zeta in Hins.
    destruct Hins as [Hr [_ _]]. rewrite Hr.
    eexists. eexists. split; [reflexivity|]. simpl. repeat split.
    + intros r Hin. apply filter_In in Hin. tauto.
    + rewrite Forall_forall. intros r Hin. apply filter_In in Hin.
      destruct Hin as [Hin _]. apply max_rowid_in in Hin. simpl. lia.
  - intros p1 p2 tx1 tx2 e1 e2 fsz1 fsz2 mt1 mt2 d1 d2 Hfresh H1 H2 Hneq.
    destruct (find _ (rows t)) as [r|] eqn:F; [discriminate|].
    apply insert_document_inv in H1.
    destruct H1 as [t0 [blob1 [t1 [Ht0 [_ [Hins1 ->]]]]]].
    rewrite Ht in Ht0. injection Ht0 as <-.
    apply insert_document_inv in H2.
    destruct H2 as [t1' [blob2 [t2 [Ht1 [_ [Hins2 ->]]]]]].
    simpl in Ht1. injection Ht1 as <-.
    apply insert_or_replace_rows in Hins1, Hins2. cbv zeta in Hins1, Hins2.
    destruct Hins1 as [Hr1 _], Hins2 as [Hr2 _].
    unfold check_existing_hash. simpl. rewrite Hr2, Hr1. f_equal.
    rewrite filter_app. simpl.
    assert (Hp : str_eqb p1 p2 = false) by (apply str_eqb_neq; exact Hneq).
    rewrite Hp. simpl.
    rewrite <- app_assoc. simpl.
    set (kept := filter _ (filter _ (rows t))).
    assert (Hk : find (fun r => str_eqb (hash r) h) kept = None).
    { apply find_none_iff. intros r Hin. subst kept.
      apply filter_In in Hin. destruct Hin as [Hin _].
      apply filter_In in Hin. destruct Hin as [Hin _].
      rewrite find_none_iff in F. apply F. exact Hin. }
    clear - Hk. induction kept as [|r rs IH]; simpl in *.
    + rewrite str_eqb_refl. reflexivity.
    + destruct (str_eqb (hash r) h); [discriminate|]. apply IH. exact Hk.
Qed.

(** C9. [init_db] is idempotent: any number of calls leaves what one call
    leaves, namely the table [documents] and the index on [hash], and a call
    keeps the table it finds, rows and sequence. *)
Theorem init_db_idempotent (d : db) (n : nat) :
  Nat.iter (S n) init_db d = init_db d
  /\ init_db (init_db d) = init_db d
  /\ (exists t, documents (init_db d) = Some t)
  /\ idx_hash (init_db d) = true
  /\ (forall t, documents d = Some t -> documents (init_db d) = Some t)
  /\ (documents d = None -> documents (init_db d) = Some {| rows := []; seq := 0 |})
  /\ documents (init_db (init_db d)) = documents (init_db d).
Proof.
  assert (Hidem : forall x, init_db (init_db x) = init_db x).
  { intros [[t|] i]; reflexivity. }
  split; [|split; [apply Hidem|]].
  - induction n as [|n IH]; [reflexivity|].
    change (Nat.iter (S (S n)) init_db d) with (init_db (Nat.iter (S n) init_db d)).
    rewrite IH. apply Hidem.
  - destruct d as [[t|] i]; cbn; repeat split; eauto; discriminate.
Qed.

End DatabaseFacts.

(** ** Hashing *)

Section HashFacts.

Lemma update_app (sha : Sha256.t) (a b : bytes) :
  Sha256.update sha (a ++ b) = Sha256.update (Sha256.update sha a) b.
Proof. unfold Sha256.update. apply fold_left_app. Qed.

(** Reading by chunks of any positive size feeds the hash the whole content. *)
Lemma update_chunks_whole (size : nat) (sha : Sha256.t) (rest : bytes) :
  size <> O -> update_chunks size sha rest = Sha256.update sha rest.
Proof.
  intro Hsize. funelim (update_chunks size sha rest).
  - match goal with H : firstn _ _ = [] |- _ => rename H into Hc end.
    destruct size; [congruence|]. destruct rest; [reflexivity|discriminate].
  - match goal with H : firstn _ _ = _ :: _ |- _ => rename H into Hc end.
    match goal with IH : _ -> update_chunks _ _ _ = _ |- _ => rewrite (IH Hsize) end.
    rewrite <- update_app, <- Hc, firstn_skipn. reflexivity.
Qed.

Lemma hex_digit_lower (x : N) : is_lower_hex (Sha256.hex_digit (N.land x 15)) = true.
Proof.
  assert (H : N.land x 15 < 16).
  { change 15 with (N.ones 4). rewrite N.land_ones. apply N.mod_lt. discriminate. }
  unfold Sha256.hex_digit, is_lower_hex.
  destruct (N.ltb_spec (N.land x 15) 10).
  - apply orb_true_iff. left. apply andb_true_iff. split; apply N.leb_le; lia.
  - apply orb_true_iff. right. apply andb_true_iff. split; apply N.leb_le; lia.
Qed.

Lemma hex_word_lower (w : N) : forallb is_lower_hex (Sha256.hex_word w) = true.
Proof.
  unfold Sha256.hex_word, Sha256.hex_byte. cbn [app forallb].
  rewrite !hex_digit_lower. reflexivity.
Qed.

Lemma hexdigest_length (s : Sha256.t) : List.length (Sha256.hexdigest s) = 64%nat.
Proof.
  unfold Sha256.hexdigest.
  destruct (Sha256.final s) as [[[[[[[a b] c] d] e] f] g] h].
  rewrite !length_app. reflexivity.
Qed.

Lemma hexdigest_lower (s : Sha256.t) : forallb is_lower_hex (Sha256.hexdigest s) = true.
Proof.
  unfold Sha256.hexdigest.
  destruct (Sha256.final s) as [[[[[[[a b] c] d] e] f] g] h].
  rewrite !forallb_app, !hex_word_lower. reflexivity.
Qed.

(** C4. The hash of a file is the hexadecimal SHA-256 digest of its whole
    content, whatever the chunk size of the reads: 64 characters among
    [0-9a-f], the same for any file system and path that hold the same
    bytes; [file_hash] takes no part in extraction or cleaning. *)
Theorem file_hash_of_content (fs : filesystem) (filepath : pystr) (content : bytes) :
  fs filepath = Some (File content) ->
  file_hash fs filepath
  = Ok (Sha256.hexdigest (Sha256.update Sha256.new content))
  /\ (forall size, size <> O ->
      update_chunks size Sha256.new content = Sha256.update Sha256.new content)
  /\ (forall digest, file_hash fs filepath = Ok digest ->
      List.length digest = 64%nat /\ forallb is_lower_hex digest = true)
  /\ (forall fs' filepath', fs' filepath' = Some (File content) ->
      file_hash fs' filepath' = file_hash fs filepath).
Proof.
  intro Hfile.
  assert (Hchunk : CHUNK <> O) by (unfold CHUNK; lia).
  assert (Hhash : forall fs0 p0, fs0 p0 = Some (File content) ->
            file_hash fs0 p0
            = Ok (Sha256.hexdigest (Sha256.update Sha256.new content))).
  { intros fs0 p0 H0. unfold file_hash. rewrite H0.
    rewrite (update_chunks_whole CHUNK _ _ Hchunk). reflexivity. }
  split; [apply Hhash; exact Hfile|].
  split; [intros size Hsize; apply update_chunks_whole; exact Hsize|].
  split.
  - intros digest Hd. rewrite (Hhash _ _ Hfile) in Hd. injection Hd as <-.
    split; [apply hexdigest_length|apply hexdigest_lower].
  - intros fs' p' H'. rewrite (Hhash _ _ Hfile), (Hhash _ _ H'). reflexivity.
Qed.

End HashFacts.

(** ** Extraction *)

Section ExtractionFacts.

Variable env : libraries.
Variable fs : filesystem.

(** The permissive UTF-8 decoder is total. *)
Lemma utf8_replace_total (bs : list N) :
  exists s, Codecs.utf8_decode Codecs.replace bs = Some s.
Proof.
  assert (H : forall n bs, (List.length bs <= n)%nat ->
                           exists s, Codecs.utf8_decode Codecs.replace bs = Some s).
  { clear bs. induction n as [|n IH]; intros bs Hlen.
    - destruct bs; [simpl; eauto|simpl in Hlen; lia].
    - destruct bs as [|b0 r0]; [simpl; eauto|].
      simpl in Hlen.
      assert (H0 : exists s, Codecs.utf8_decode Codecs.replace r0 = Some s)
        by (apply IH; lia).
      assert (H1 : forall b1 r1, r0 = b1 :: r1 ->
                exists s, Codecs.utf8_decode Codecs.replace r1 = Some s).
      { intros b1 r1 ->. apply IH. simpl in Hlen. lia. }
      assert (H2 : forall b1 b2 r2, r0 = b1 :: b2 :: r2 ->
                exists s, Codecs.utf8_decode Codecs.replace r2 = Some s).
      { intros b1 b2 r2 ->. apply IH. simpl in Hlen. lia. }
      assert (H3 : forall b1 b2 b3 r3, r0 = b1 :: b2 :: b3 :: r3 ->
                exists s, Codecs.utf8_decode Codecs.replace r3 = Some s).
      { intros b1 b2 b3 r3 ->. apply IH. simpl in Hlen. lia. }
      cbn [Codecs.utf8_decode].
      destruct H0 as [s0 Hs0].
      destruct (b0 <? 128); [rewrite Hs0; simpl; eauto|].
      destruct ((194 <=? b0) && (b0 <=? 223)).
      { destruct r0 as [|b1 r1]; [simpl; eauto|].
        destruct (H1 _ _ eq_refl) as [s1 Hs1].
        destruct (Codecs.is_cont b1); [rewrite Hs1|rewrite Hs0]; simpl; eauto. }
      destruct ((224 <=? b0) && (b0 <=? 239)).
      { destruct r0 as [|b1 r1]; [simpl; eauto|].
        destruct (H1 _ _ eq_refl) as [s1 Hs1].
        destruct (Codecs.second3 b0 b1); [|rewrite Hs0; simpl; eauto].
        destruct r1 as [|b2 r2]; [simpl; eauto|].
        destruct (H2 _ _ _ eq_refl) as [s2 Hs2].
        destruct (Codecs.is_cont b2); [rewrite Hs2|rewrite Hs1]; simpl; eauto. }
      destruct ((240 <=? b0) && (b0 <=? 244)).
      { destruct r0 as [|b1 r1]; [simpl; eauto|].
        destruct (H1 _ _ eq_refl) as [s1 Hs1].
        destruct (Codecs.second4 b0 b1); [|rewrite Hs0; simpl; eauto].
        destruct r1 as [|b2 r2]; [simpl; eauto|].
        destruct (H2 _ _ _ eq_refl) as [s2 Hs2].
        destruct (Codecs.is_cont b2); [|rewrite Hs1; simpl; eauto].
        destruct r2 as [|b3 r3]; [simpl; eauto|].
        destruct (H3 _ _ _ _ eq_refl) as [s3 Hs3].
        destruct (Codecs.is_cont b3); [rewrite Hs3|rewrite Hs2]; simpl; eauto. }
      rewrite Hs0. simpl. eauto. }
  apply (H (List.length bs)). lia.
Qed.

Lemma first_decoding_total (encodings : list Codecs.encoding) (content : bytes) :
  exists s, first_decoding encodings content = Some s.
Proof.
  induction encodings as [|enc rest IH]; simpl.
  - apply utf8_replace_total.
  - destruct (Codecs.decode enc Codecs.strict content); eauto.
Qed.

(** The loop of [_extract_txt] on a regular file computes [first_decoding]. *)
Lemma try_encodings_first_decoding (filepath : pystr) (content : bytes)
      (encodings : list Codecs.encoding) :
  fs filepath = Some (File content) ->
  try_encodings fs filepath encodings
  = match first_decoding encodings content with
    | Some s => Ok (universal_newlines s)
    | None => Raise UnicodeDecodeError
    end.
Proof.
  intro Hfile. induction encodings as [|enc rest IH]; simpl.
  - unfold read_text. rewrite Hfile. reflexivity.
  - unfold read_text at 1. rewrite Hfile.
    destruct (Codecs.decode enc Codecs.strict content); [reflexivity|exact IH].
Qed.

Lemma extract_text_missing (filepath : pystr) :
  fs filepath = None ->
  extract_text env fs filepath
  = Raise (FileNotFoundError (lit "File not found: " ++ filepath)).
Proof. intro H. unfold extract_text, Os.exists_. rewrite H. reflexivity. Qed.

(** What [extract_text] does once the path is known to exist. *)
Lemma extract_text_existing (filepath : pystr) :
  fs filepath <> None ->
  extract_text env fs filepath
  = let ext := extension_of env filepath in
    raw_text <-
      (if str_eqb ext (lit ".pdf") then _extract_pdf env fs filepath
       else if str_eqb ext (lit ".docx") then _extract_docx env fs filepath
       else if str_eqb ext (lit ".txt") then _extract_txt fs filepath
       else Raise (ValueError (lit "Unsupported file type '" ++ ext
                                 ++ lit "'. Supported: .pdf, .docx, .txt"))) ;;
    Ok (_clean_text raw_text).
Proof.
  intro H. unfold extract_text, Os.exists_.
  destruct (fs filepath); [reflexivity|congruence].
Qed.

(** C6, amended. [extract_text] raises its [FileNotFoundError] whenever the
    path does not exist, whatever the extension. On an existing path a
    [FileNotFoundError] can only be the one the PDF or DOCX parser raised for
    that file, so if the parsers raise none on an existing file the error
    tells exactly that the path does not exist. On an existing path whose
    lowercased extension is none of [.pdf], [.docx], [.txt] it raises the
    [ValueError] whose message quotes that extension. *)
Theorem extract_text_errors (filepath : pystr) :
  (fs filepath = None ->
   extract_text env fs filepath
   = Raise (FileNotFoundError (lit "File not found: " ++ filepath)))
  /\ (forall nd msg,
        fs filepath = Some nd ->
        extract_text env fs filepath = Raise (FileNotFoundError msg) ->
        (extension_of env filepath = lit ".pdf"
         /\ exists open_,
              pdfplumber_open env = Some open_
              /\ open_ nd = Raise (FileNotFoundError msg))
        \/ (extension_of env filepath = lit ".docx"
            /\ exists Document,
                 docx_Document env = Some Document
                 /\ Document nd = Raise (FileNotFoundError msg)))
  /\ (parsers_keep_to_their_errors env ->
      ((exists msg, extract_text env fs filepath = Raise (FileNotFoundError msg))
       <-> fs filepath = None))
  /\ (fs filepath <> None ->
      extension_of env filepath <> lit ".pdf" ->
      extension_of env filepath <> lit ".docx" ->
      extension_of env filepath <> lit ".txt" ->
      extract_text env fs filepath
      = Raise (ValueError (lit "Unsupported file type '"
                             ++ extension_of env filepath
                             ++ lit "'. Supported: .pdf, .docx, .txt"))).
Proof.
  assert (Hparser : forall nd msg,
            fs filepath = Some nd ->
            extract_text env fs filepath = Raise (FileNotFoundError msg) ->
            (extension_of env filepath = lit ".pdf"
             /\ exists open_,
                  pdfplumber_open env = Some open_
                  /\ open_ nd = Raise (FileNotFoundError msg))
            \/ (extension_of env filepath = lit ".docx"
                /\ exists Document,
                     docx_Document env = Some Document
                     /\ Document nd = Raise (FileNotFoundError msg))).
  { intros nd msg Hnode Hraise.
    rewrite extract_text_existing in Hraise by congruence. cbv zeta in Hraise.
    destruct (str_eqb (extension_of env filepath) (lit ".pdf")) eqn:Epdf.
    { left. split; [apply str_eqb_eq; exact Epdf|].
      unfold _extract_pdf in Hraise. rewrite Hnode in Hraise.
      destruct (pdfplumber_open env) as [open_|] eqn:Ho; [|discriminate].
      destruct (open_ nd) as [pdf|e] eqn:Hopen; [discriminate|].
      simpl in Hraise. injection Hraise as ->. exists open_. auto. }
    destruct (str_eqb (extension_of env filepath) (lit ".docx")) eqn:Edocx.
    { right. split; [apply str_eqb_eq; exact Edocx|].
      unfold _extract_docx in Hraise. rewrite Hnode in Hraise.
      destruct (docx_Document env) as [Document|] eqn:Ho; [|discriminate].
      destruct (Document nd) as [doc|e] eqn:Hopen; [discriminate|].
      simpl in Hraise. injection Hraise as ->. exists Document. auto. }
    exfalso.
    destruct (str_eqb (extension_of env filepath) (lit ".txt")); [|discriminate].
    destruct nd as [content|].
    + unfold _extract_txt in Hraise.
      rewrite (try_encodings_first_decoding _ content) in Hraise by exact Hnode.
      destruct (first_decoding _ content); discriminate.
    + unfold _extract_txt, try_encodings, read_text in Hraise.
      rewrite Hnode in Hraise. discriminate. }
  split; [apply extract_text_missing|split; [exact Hparser|split]].
  - intros [Hpdf Hdocx].
    split; [|intro H; rewrite (extract_text_missing _ H); eauto].
    intros [msg Hraise].
    destruct (fs filepath) as [nd|] eqn:Hnode; [exfalso|reflexivity].
    destruct (Hparser nd msg eq_refl Hraise)
      as [[_ [open_ [Ho Hopen]]]|[_ [Document [Ho Hopen]]]].
    + exact (Hpdf _ _ _ Ho Hopen).
    + exact (Hdocx _ _ _ Ho Hopen).
  - intros Hex H1 H2 H3. rewrite extract_text_existing by exact Hex. cbv zeta.
    apply str_eqb_neq in H1, H2, H3. rewrite H1, H2, H3. reflexivity.
Qed.

(** C7. On a regular file with the extension [.txt], whatever its bytes,
    [extract_text] returns the cleaned text of the first of UTF-8, Latin-1,
    Windows-1252 and ASCII that decodes it strictly, or else of the permissive
    decoding; and the loop ends with a text for any list of encodings, since
    the permissive decoding never fails. *)
Theorem extract_txt_never_fails (filepath : pystr) (content : bytes) :
  fs filepath = Some (File content) ->
  extension_of env filepath = lit ".txt" ->
  (exists raw,
     first_decoding [Codecs.utf_8; Codecs.latin_1; Codecs.cp1252; Codecs.ascii]
                    content = Some raw
     /\ _extract_txt fs filepath = Ok (universal_newlines raw)
     /\ extract_text env fs filepath = Ok (_clean_text (universal_newlines raw)))
  /\ (forall encodings, exists s, try_encodings fs filepath encodings = Ok s)
  /\ (forall encodings, exists s,
        Codecs.decode Codecs.utf_8 Codecs.replace content = Some s
        /\ (first_decoding encodings content = Some s
            \/ exists enc, In enc encodings
                 /\ Codecs.decode enc Codecs.strict content <> None)).
Proof.
  intros Hfile Hext. split; [|split].
  - destruct (first_decoding_total
                [Codecs.utf_8; Codecs.latin_1; Codecs.cp1252; Codecs.ascii] content)
      as [raw Hraw].
    exists raw. split; [exact Hraw|].
    assert (Htxt : _extract_txt fs filepath = Ok (universal_newlines raw)).
    { unfold _extract_txt. rewrite (try_encodings_first_decoding _ content), Hraw;
        [reflexivity|exact Hfile]. }
    split; [exact Htxt|].
    rewrite extract_text_existing by congruence. cbv zeta.
    rewrite Hext, Htxt. reflexivity.
  - intro encodings. rewrite (try_encodings_first_decoding _ content) by exact Hfile.
    destruct (first_decoding_total encodings content) as [s ->]. eauto.
  - intro encodings.
    destruct (utf8_replace_total (map Byte.to_N content)) as [s Hs].
    exists s. split; [exact Hs|].
    induction encodings as [|enc rest IH]; simpl; [left; exact Hs|].
    destruct (Codecs.decode enc Codecs.strict content) eqn:E.
    + right. exists enc. split; [left; reflexivity|congruence].
    + destruct IH as [IH|[enc' [Hin Hd]]]; [left; exact IH|].
      right. exists enc'. split; [right; exact Hin|exact Hd].
Qed.

(** C5. A [.txt] file that reads as [a TAB b SP SP LF LF SP SP c SP LF] is
    extracted as [a SP b LF c]. *)
Theorem extract_text_cleaning_sample (filepath : pystr) :
  fs filepath <> None ->
  extension_of env filepath = lit ".txt" ->
  _extract_txt fs filepath = Ok [97; 9; 98; 32; 32; 10; 10; 32; 32; 99; 32; 10] ->
  extract_text env fs filepath = Ok [97; 32; 98; 10; 99].
Proof.
  intros Hex Hext Hread.
  rewrite extract_text_existing by exact Hex. cbv zeta.
  rewrite Hext, Hread. reflexivity.
Qed.

End ExtractionFacts.

(** ** Cleaning *)

Section CleaningFacts.

Lemma replace_char (c d : codepoint) (s : pystr) :
  Str.replace [c] [d] s = map (fun x => if x =? c then d else x) s.
Proof.
  unfold Str.replace. induction s as [|x s IH]; [reflexivity|].
  cbn [Str.replace_from Str.startswith map List.length pred].
  rewrite andb_true_r, (N.eqb_sym c x).
  destruct (x =? c); cbn [app]; rewrite IH; reflexivity.
Qed.

Lemma replace_absent (c : codepoint) (old new s : pystr) :
  ~ In c s -> Str.replace (c :: old) new s = s.
Proof.
  unfold Str.replace. induction s as [|x s IH]; intro H; [reflexivity|].
  cbn [Str.replace_from Str.startswith].
  assert (Hx : (c =? x) = false) by (apply N.eqb_neq; intros ->; apply H; left; reflexivity).
  rewrite Hx. cbn [andb]. rewrite IH; [reflexivity|].
  intro Hin. apply H. right. exact Hin.
Qed.

Lemma universal_newlines_no_cr (s : pystr) : ~ In Str.CR (universal_newlines s).
Proof.
  unfold universal_newlines. rewrite replace_char. intro H.
  apply in_map_iff in H. destruct H as [x [Hx _]].
  destruct (N.eqb_spec x Str.CR); [discriminate|congruence].
Qed.

Lemma fold_clean_lines (lines acc : list pystr) :
  fold_left
    (fun cleaned_lines line =>
       let line := Str.strip (Re.sub_blanks line) in
       if Str.nonempty line then cleaned_lines ++ [line] else cleaned_lines)
    lines acc
  = acc ++ filter Str.nonempty (map clean_line lines).
Proof.
  revert acc. induction lines as [|l lines IH]; intro acc; simpl.
  - rewrite app_nil_r. reflexivity.
  - rewrite IH. unfold clean_line at 2.
    destruct (Str.nonempty (Str.strip (Re.sub_blanks l))); [|reflexivity].
    rewrite <- app_assoc. reflexivity.
Qed.

Lemma clean_text_lines (text : pystr) :
  _clean_text text
  = Str.join [Str.LF]
      (filter Str.nonempty (map clean_line (Str.splitlines (universal_newlines text)))).
Proof. unfold _clean_text. rewrite fold_clean_lines. reflexivity. Qed.

(** *** Lines *)

Lemma splitlines_no_break (s : pystr) :
  Forall (Forall (fun c => Str.is_linebreak c = false)) (Str.splitlines s).
Proof.
  assert (H : forall n s, (List.length s <= n)%nat ->
            Forall (Forall (fun c => Str.is_linebreak c = false)) (Str.splitlines s)).
  { clear s. induction n as [|n IH]; intros s Hlen.
    - destruct s; [constructor|simpl in Hlen; lia].
    - destruct s as [|c s']; [constructor|]. simpl in Hlen.
      cbn [Str.splitlines]. destruct (Str.is_linebreak c) eqn:Hc.
      + constructor; [constructor|].
        destruct (c =? Str.CR); [|apply IH; lia].
        destruct s' as [|d s'']; [constructor|].
        destruct (d =? Str.LF); apply IH; simpl in *; lia.
      + assert (Hs : Forall (Forall (fun c => Str.is_linebreak c = false))
                            (Str.splitlines s')) by (apply IH; lia).
        destruct (Str.splitlines s') as [|l ls]; [repeat constructor; exact Hc|].
        inversion Hs; subst. constructor; [constructor; assumption|assumption]. }
  apply (H (List.length s)). lia.
Qed.

Lemma splitlines_line (l : pystr) :
  l <> [] -> Forall (fun c => Str.is_linebreak c = false) l ->
  Str.splitlines l = [l].
Proof.
  induction l as [|c l IH]; intros Hne Hall; [congruence|].
  inversion Hall as [|x y Hc Hl]; subst.
  cbn [Str.splitlines]. rewrite Hc.
  destruct l as [|c' l']; [reflexivity|].
  rewrite IH; [reflexivity|discriminate|exact Hl].
Qed.

Lemma splitlines_first (l rest : pystr) :
  Forall (fun c => Str.is_linebreak c = false) l ->
  Str.splitlines (l ++ Str.LF :: rest) = l :: Str.splitlines rest.
Proof.
  induction l as [|c l IH]; intro Hall.
  - reflexivity.
  - inversion Hall as [|x y Hc Hl]; subst.
    cbn [app Str.splitlines]. rewrite Hc, (IH Hl). reflexivity.
Qed.

Lemma splitlines_join (lines : list pystr) :
  Forall tidy_line lines -> Str.splitlines (Str.join [Str.LF] lines) = lines.
Proof.
  induction lines as [|l lines IH]; intro Hall; [reflexivity|].
  inversion Hall as [|x y Hl Hrest]; subst.
  destruct Hl as [Hne [Hnb _]].
  destruct lines as [|l' lines'].
  - simpl. apply splitlines_line; assumption.
  - change (Str.join [Str.LF] (l :: l' :: lines'))
      with (l ++ Str.LF :: Str.join [Str.LF] (l' :: lines')).
    rewrite splitlines_first by exact Hnb. rewrite (IH Hrest). reflexivity.
Qed.

(** *** Blanks *)

Lemma not_blank (c : codepoint) :
  Re.is_blank c = false -> c <> Str.SP /\ c <> Str.TAB.
Proof.
  unfold Re.is_blank. intro H. apply orb_false_iff in H. destruct H as [H1 H2].
  apply N.eqb_neq in H1, H2. auto.
Qed.

Lemma sub_blanks_single_spaced (b : bool) (s : pystr) :
  single_spaced b (Re.sub_blanks_from b s).
Proof.
  revert b. induction s as [|c s IH]; intro b; [exact I|].
  cbn [Re.sub_blanks_from]. destruct (Re.is_blank c) eqn:Hc.
  - destruct b; [apply IH|].
    cbn [single_spaced]. repeat split; [discriminate|apply IH].
  - apply not_blank in Hc. destruct Hc as [Hsp Htab].
    cbn [single_spaced]. repeat split; [exact Htab|congruence|].
    apply N.eqb_neq in Hsp. rewrite Hsp. apply IH.
Qed.

Lemma sub_blanks_fixed (b : bool) (s : pystr) :
  single_spaced b s -> Re.sub_blanks_from b s = s.
Proof.
  revert b. induction s as [|c s IH]; intros b H; [reflexivity|].
  cbn [single_spaced] in H. destruct H as [Htab [Hsp Hrest]].
  cbn [Re.sub_blanks_from]. unfold Re.is_blank.
  destruct (N.eqb_spec c Str.SP) as [->|Hne].
  - rewrite (Hsp eq_refl). cbn [orb]. rewrite (IH true Hrest). reflexivity.
  - apply N.eqb_neq in Htab. rewrite Htab. cbn [orb].
    rewrite (IH false Hrest). reflexivity.
Qed.

Lemma sub_blanks_forall (P : codepoint -> Prop) (b : bool) (s : pystr) :
  P Str.SP -> Forall P s -> Forall P (Re.sub_blanks_from b s).
Proof.
  intro Hsp. revert b. induction s as [|c s IH]; intros b H; [constructor|].
  inversion H; subst. cbn [Re.sub_blanks_from].
  destruct (Re.is_blank c); [destruct b|]; auto.
Qed.

Lemma single_spaced_weaken (b : bool) (s : pystr) :
  single_spaced b s -> single_spaced false s.
Proof.
  destruct s as [|c s]; [auto|]. cbn [single_spaced]. intros [H1 [_ H3]]. auto.
Qed.

Lemma single_spaced_prefix (b : bool) (x y : pystr) :
  single_spaced b (x ++ y) -> single_spaced b x.
Proof.
  revert b. induction x as [|c x IH]; intros b H; [exact I|].
  cbn [app single_spaced] in *. destruct H as [H1 [H2 H3]]. eauto.
Qed.

Lemma single_spaced_app (b : bool) (x y : pystr) (c : codepoint) :
  single_spaced b x -> c <> Str.SP -> c <> Str.TAB -> single_spaced false y ->
  single_spaced b (x ++ c :: y).
Proof.
  revert b. induction x as [|a x IH]; intros b Hx Hsp Htab Hy.
  - cbn [app single_spaced]. repeat split; [exact Htab|congruence|].
    apply N.eqb_neq in Hsp. rewrite Hsp. exact Hy.
  - cbn [app single_spaced] in *. destruct Hx as [H1 [H2 H3]]. auto.
Qed.

(** *** Stripping *)

Lemma lstrip_suffix (s : pystr) : exists pre, s = pre ++ Str.lstrip s.
Proof.
  induction s as [|c s [pre IH]]; [exists []; reflexivity|].
  cbn [Str.lstrip]. destruct (Str.isspace c).
  - exists (c :: pre). simpl. f_equal. exact IH.
  - exists []. reflexivity.
Qed.

Lemma rstrip_prefix (s : pystr) : exists suf, s = Str.rstrip s ++ suf.
Proof.
  unfold Str.rstrip. destruct (lstrip_suffix (rev s)) as [pre H].
  exists (rev pre). rewrite <- rev_app_distr, <- H, rev_involutive. reflexivity.
Qed.

Lemma lstrip_head (s r : pystr) (c : codepoint) :
  Str.lstrip s = c :: r -> Str.isspace c = false.
Proof.
  induction s as [|x s IH]; [discriminate|].
  cbn [Str.lstrip]. destruct (Str.isspace x) eqn:E; [exact IH|].
  intro H. injection H as <- _. exact E.
Qed.

Lemma rstrip_last (s r : pystr) (c : codepoint) :
  Str.rstrip s = r ++ [c] -> Str.isspace c = false.
Proof.
  unfold Str.rstrip. intro H.
  apply (f_equal (@rev codepoint)) in H.
  rewrite rev_involutive, rev_app_distr in H. simpl in H.
  eapply lstrip_head. exact H.
Qed.

Lemma lstrip_fixed (s : pystr) :
  (forall c r, s = c :: r -> Str.isspace c = false) -> Str.lstrip s = s.
Proof.
  destruct s as [|c s]; [reflexivity|]. intro H.
  cbn [Str.lstrip]. rewrite (H c s eq_refl). reflexivity.
Qed.

Lemma rstrip_fixed (s : pystr) :
  (forall c r, s = r ++ [c] -> Str.isspace c = false) -> Str.rstrip s = s.
Proof.
  intro H. unfold Str.rstrip. rewrite lstrip_fixed; [apply rev_involutive|].
  intros c r Hr. apply (H c (rev r)).
  rewrite <- (rev_involutive s), Hr. reflexivity.
Qed.

Lemma strip_head (s r : pystr) (c : codepoint) :
  Str.strip s = c :: r -> Str.isspace c = false.
Proof.
  unfold Str.strip. intro H.
  destruct (rstrip_prefix (Str.lstrip s)) as [suf Hs].
  rewrite H in Hs. simpl in Hs. eapply lstrip_head. exact Hs.
Qed.

Lemma strip_sub (s : pystr) : exists pre suf, s = pre ++ Str.strip s ++ suf.
Proof.
  unfold Str.strip.
  destruct (lstrip_suffix s) as [pre Hp].
  destruct (rstrip_prefix (Str.lstrip s)) as [suf Hs].
  exists pre, suf. rewrite <- Hs. exact Hp.
Qed.

Lemma single_spaced_suffix (b : bool) (x y : pystr) :
  single_spaced b (x ++ y) -> single_spaced false y.
Proof.
  revert b. induction x as [|c x IH]; intros b H.
  - eapply single_spaced_weaken. exact H.
  - cbn [app single_spaced] in H. destruct H as [_ [_ H]]. eauto.
Qed.

(** *** One line *)

Lemma clean_line_tidy (l : pystr) :
  Forall (fun c => Str.is_linebreak c = false) l ->
  clean_line l <> [] -> tidy_line (clean_line l).
Proof.
  intros Hnb Hne. unfold tidy_line. split; [exact Hne|].
  unfold clean_line in *.
  destruct (strip_sub (Re.sub_blanks l)) as [pre [suf Hs]].
  assert (Hall : Forall (fun c => Str.is_linebreak c = false) (Re.sub_blanks l))
    by (apply sub_blanks_forall; [reflexivity|exact Hnb]).
  assert (Hss : single_spaced false (Re.sub_blanks l))
    by apply sub_blanks_single_spaced.
  rewrite Hs in Hall, Hss.
  apply Forall_app in Hall. destruct Hall as [_ Hall].
  apply Forall_app in Hall. destruct Hall as [Hall _].
  apply single_spaced_suffix in Hss. apply single_spaced_prefix in Hss.
  repeat split; [exact Hall|exact Hss| |].
  - intros c r H. eapply strip_head. exact H.
  - intros c r H. eapply rstrip_last. unfold Str.strip in H. exact H.
Qed.

Lemma clean_line_fixed (l : pystr) : tidy_line l -> clean_line l = l.
Proof.
  intros [_ [_ [Hss [Hhead Hlast]]]]. unfold clean_line, Re.sub_blanks.
  rewrite (sub_blanks_fixed false l Hss). unfold Str.strip.
  rewrite (lstrip_fixed l Hhead). apply rstrip_fixed. exact Hlast.
Qed.

Lemma cleaned_lines_tidy (lines : list pystr) :
  Forall (Forall (fun c => Str.is_linebreak c = false)) lines ->
  Forall tidy_line (filter Str.nonempty (map clean_line lines)).
Proof.
  induction lines as [|l lines IH]; intro H; [constructor|].
  inversion H; subst. simpl.
  destruct (clean_line l) as [|c r] eqn:E; simpl; [auto|].
  constructor; [|auto]. rewrite <- E. apply clean_line_tidy; [assumption|].
  rewrite E. discriminate.
Qed.

Lemma tidy_lines_fixed (lines : list pystr) :
  Forall tidy_line lines -> filter Str.nonempty (map clean_line lines) = lines.
Proof.
  induction lines as [|l lines IH]; intro H; [reflexivity|].
  inversion H as [|x y Hl Hrest]; subst. simpl.
  rewrite (clean_line_fixed l Hl), (IH Hrest).
  destruct Hl as [Hne _]. destruct l; [congruence|reflexivity].
Qed.

(** *** The whole text *)

Lemma single_spaced_no_tab (b : bool) (s : pystr) :
  single_spaced b s -> ~ In Str.TAB s.
Proof.
  revert b. induction s as [|c s IH]; intros b H; [intros []|].
  cbn [single_spaced] in H. destruct H as [H1 [_ H3]].
  intros [Hc|Hin]; [congruence|]. exact (IH _ H3 Hin).
Qed.

Lemma single_spaced_no_double (b : bool) (s x y : pystr) :
  single_spaced b s -> s <> x ++ [Str.SP; Str.SP] ++ y.
Proof.
  intros H ->. apply single_spaced_suffix in H.
  cbn [app single_spaced] in H. destruct H as [_ [_ [_ [H _]]]].
  specialize (H eq_refl). discriminate.
Qed.

Lemma join_cons (l l' : pystr) (lines : list pystr) :
  Str.join [Str.LF] (l :: l' :: lines) = l ++ Str.LF :: Str.join [Str.LF] (l' :: lines).
Proof. reflexivity. Qed.

Lemma join_single_spaced (lines : list pystr) :
  Forall tidy_line lines -> single_spaced false (Str.join [Str.LF] lines).
Proof.
  induction lines as [|l lines IH]; intro H; [exact I|].
  inversion H as [|x y Hl Hrest]; subst.
  destruct lines as [|l' lines']; [destruct Hl as [_ [_ [Hss _]]]; exact Hss|].
  rewrite join_cons. destruct Hl as [_ [_ [Hss _]]].
  apply single_spaced_app; [exact Hss|discriminate|discriminate|auto].
Qed.

Lemma join_no_cr (lines : list pystr) :
  Forall tidy_line lines -> ~ In Str.CR (Str.join [Str.LF] lines).
Proof.
  induction lines as [|l lines IH]; intro H; [intros []|].
  inversion H as [|x y Hl Hrest]; subst.
  assert (Hline : ~ In Str.CR l).
  { destruct Hl as [_ [Hnb _]]. intro Hin. rewrite Forall_forall in Hnb.
    specialize (Hnb _ Hin). discriminate. }
  destruct lines as [|l' lines']; [exact Hline|].
  rewrite join_cons. intro Hin. apply in_app_or in Hin.
  destruct Hin as [Hin|[Hin|Hin]]; [auto|discriminate|exact (IH Hrest Hin)].
Qed.

Lemma join_tidy (lines : list pystr) :
  Forall tidy_line lines -> tidy_text (Str.join [Str.LF] lines).
Proof.
  intro H. pose proof (join_single_spaced lines H) as Hss.
  unfold tidy_text. repeat split.
  - apply join_no_cr. exact H.
  - eapply single_spaced_no_tab. exact Hss.
  - intros a b. eapply single_spaced_no_double. exact Hss.
  - exists lines. auto.
Qed.

Lemma clean_text_tidy_lines (text : pystr) :
  exists lines, _clean_text text = Str.join [Str.LF] lines /\ Forall tidy_line lines.
Proof.
  rewrite clean_text_lines. eexists. split; [reflexivity|].
  apply cleaned_lines_tidy. apply splitlines_no_break.
Qed.

Lemma clean_text_fixed (lines : list pystr) :
  Forall tidy_line lines ->
  _clean_text (Str.join [Str.LF] lines) = Str.join [Str.LF] lines.
Proof.
  intro H. rewrite clean_text_lines.
  assert (Hnl : universal_newlines (Str.join [Str.LF] lines) = Str.join [Str.LF] lines).
  { unfold universal_newlines. pose proof (join_no_cr lines H) as Hcr.
    rewrite (replace_absent Str.CR [Str.LF] [Str.LF] _ Hcr).
    apply (replace_absent Str.CR [] [Str.LF] _ Hcr). }
  rewrite Hnl, (splitlines_join lines H), (tidy_lines_fixed lines H). reflexivity.
Qed.

(** C10. Cleaning is idempotent, its result is a tidy text, and so is every
    text [extract_text] returns, which cleaning leaves as it is. *)
Theorem clean_text_idempotent (text : pystr) :
  _clean_text (_clean_text text) = _clean_text text
  /\ tidy_text (_clean_text text)
  /\ forall env fs filepath s,
       extract_text env fs filepath = Ok s -> _clean_text s = s /\ tidy_text s.
Proof.
  assert (H : forall t, _clean_text (_clean_text t) = _clean_text t
                        /\ tidy_text (_clean_text t)).
  { intro t. destruct (clean_text_tidy_lines t) as [lines [-> Hl]].
    split; [apply clean_text_fixed|apply join_tidy]; exact Hl. }
  split; [apply H|split; [apply H|]].
  intros env fs filepath s Hex. unfold extract_text in Hex.
  destruct (negb (Os.exists_ fs filepath)); [discriminate|].
  apply bind_ok in Hex. destruct Hex as [raw [_ Hs]].
  injection Hs as <-. apply H.
Qed.

End CleaningFacts.

(** ** The NPY format *)

Section NumpyFacts.
Import Numpy.

Lemma digits_acc (fuel : nat) (n : N) (acc : pystr) :
  digits fuel n acc = digits fuel n [] ++ acc.
Proof.
  revert n acc. induction fuel as [|k IH]; intros n acc; [reflexivity|].
  cbn [digits]. destruct (n <? 10); [reflexivity|].
  rewrite (IH (n / 10) ((48 + n mod 10) :: acc)).
  rewrite (IH (n / 10) [48 + n mod 10]). rewrite <- app_assoc. reflexivity.
Qed.

Lemma digits_value (fuel : nat) (n : N) :
  n < 2 ^ N.of_nat fuel ->
  fold_left digit_step (digits fuel n []) 0 = n.
Proof.
  revert n. induction fuel as [|k IH]; intros n Hn.
  - simpl in Hn. assert (n = 0) by lia. subst. reflexivity.
  - cbn [digits]. destruct (N.ltb_spec n 10) as [Hlt|Hge].
    + cbn [fold_left]. unfold digit_step. rewrite N.mod_small by exact Hlt. lia.
    + rewrite digits_acc, fold_left_app. cbn [fold_left].
      rewrite IH.
      * unfold digit_step. rewrite (N.add_comm 48), N.add_sub.
        symmetry. apply N.Div0.div_mod.
      * rewrite Nat2N.inj_succ, N.pow_succ_r' in Hn.
        apply N.Div0.div_lt_upper_bound. lia.
Qed.

Lemma digits_are_digits (fuel : nat) (n : N) :
  forallb is_digit (digits fuel n []) = true.
Proof.
  revert n. induction fuel as [|k IH]; intro n; [reflexivity|].
  assert (Hd : is_digit (48 + n mod 10) = true).
  { unfold is_digit. assert (Hm : n mod 10 < 10) by (apply N.mod_lt; discriminate).
    revert Hm. generalize (n mod 10). intros m Hm.
    apply andb_true_iff. split; apply N.leb_le; lia. }
  cbn [digits]. destruct (n <? 10).
  - cbn [forallb]. rewrite Hd. reflexivity.
  - rewrite digits_acc, forallb_app, IH. cbn [forallb]. rewrite Hd. reflexivity.
Qed.

Lemma digits_length (fuel : nat) (n : N) :
  (1 <= List.length (digits (S fuel) n []) <= S fuel)%nat.
Proof.
  revert n. induction fuel as [|k IH]; intro n.
  - cbn [digits]. destruct (n <? 10); simpl; lia.
  - specialize (IH (n / 10)).
    change (digits (S (S k)) n [])
      with (if n <? 10 then [48 + n mod 10]
            else digits (S k) (n / 10) [48 + n mod 10]).
    destruct (n <? 10); [simpl; lia|].
    rewrite digits_acc, length_app.
    change (List.length [48 + n mod 10]) with 1%nat.
    revert IH. generalize (List.length (digits (S k) (n / 10) [])). intros; lia.
Qed.

Lemma repr_int_fuel (n : N) : n < 2 ^ N.of_nat (S (N.to_nat (N.log2 n))).
Proof.
  rewrite Nat2N.inj_succ, N2Nat.id.
  destruct (N.eq_dec n 0) as [->|Hn]; [reflexivity|].
  apply N.log2_spec. lia.
Qed.

Lemma repr_int_value (n : N) : fold_left digit_step (repr_int n) 0 = n.
Proof. apply digits_value. apply repr_int_fuel. Qed.

Lemma repr_int_length (n : N) :
  (1 <= List.length (repr_int n) <= S (N.to_nat (N.log2 n)))%nat.
Proof. apply digits_length. Qed.

Lemma take_digits_app (ds rest : pystr) :
  forallb is_digit ds = true ->
  match rest with [] => True | c :: _ => is_digit c = false end ->
  take_digits (ds ++ rest) = (ds, rest).
Proof.
  intros Hds Hrest. induction ds as [|d ds IH].
  - destruct rest as [|c r]; [reflexivity|]. simpl. rewrite Hrest. reflexivity.
  - cbn [forallb] in Hds. apply andb_true_iff in Hds. destruct Hds as [Hd Hds].
    cbn [app take_digits]. rewrite Hd, (IH Hds). reflexivity.
Qed.

Lemma parse_int_repr (n : N) (rest : pystr) :
  match rest with [] => True | c :: _ => is_digit c = false end ->
  parse_int (repr_int n ++ rest) = Some (n, rest).
Proof.
  intro Hrest. unfold parse_int.
  rewrite take_digits_app; [|apply digits_are_digits|exact Hrest].
  pose proof (repr_int_length n) as Hlen.
  destruct (repr_int n) as [|d ds] eqn:E; [simpl in Hlen; lia|].
  rewrite <- E. f_equal. f_equal. apply repr_int_value.
Qed.

Lemma expect_app (p rest : pystr) : expect p (p ++ rest) = Some rest.
Proof.
  induction p as [|a p IH]; [reflexivity|].
  cbn [app expect]. rewrite N.eqb_refl. exact IH.
Qed.

Lemma parse_bool_repr (b : bool) (rest : pystr) :
  parse_bool (repr_bool b ++ rest) = Some (b, rest).
Proof. destruct b; reflexivity. Qed.

Lemma repr_int_head (n : N) :
  exists d ds, repr_int n = d :: ds /\ is_digit d = true.
Proof.
  pose proof (repr_int_length n) as Hlen.
  pose proof (digits_are_digits (S (N.to_nat (N.log2 n))) n) as Hd.
  fold (repr_int n) in Hd.
  destruct (repr_int n) as [|d ds]; [simpl in Hlen; lia|].
  cbn [forallb] in Hd. apply andb_true_iff in Hd. exists d, ds. tauto.
Qed.

Lemma digit_not (c d : codepoint) :
  is_digit d = true -> c < 48 -> (c =? d) = false.
Proof.
  unfold is_digit. intros H Hc. apply andb_true_iff in H. destruct H as [H _].
  apply N.leb_le in H. apply N.eqb_neq. lia.
Qed.

Lemma parse_items_repr (l : list N) (n : N) (rest : pystr) (fuel : nat) :
  (List.length l < fuel)%nat ->
  parse_items fuel (repr_items (n :: l) ++ lit ")" ++ rest) = Some (n :: l, rest).
Proof.
  revert n fuel. induction l as [|m l IH]; intros n fuel Hfuel.
  - destruct fuel as [|k]; [simpl in Hfuel; lia|].
    cbn [repr_items parse_items]. rewrite parse_int_repr by reflexivity. reflexivity.
  - destruct fuel as [|k]; [simpl in Hfuel; lia|].
    change (repr_items (n :: m :: l))
      with (repr_int n ++ lit ", " ++ repr_items (m :: l)).
    rewrite <- !app_assoc. cbn [parse_items].
    rewrite parse_int_repr by reflexivity.
    change (expect (lit ")") (lit ", " ++ repr_items (m :: l) ++ lit ")" ++ rest))
      with (@None (list N)).
    change (expect (lit ",)") (lit ", " ++ repr_items (m :: l) ++ lit ")" ++ rest))
      with (@None (list N)).
    rewrite expect_app. rewrite IH by (simpl in Hfuel; lia). reflexivity.
Qed.

Lemma repr_items_length (l : list N) :
  (List.length l <= List.length (repr_items l))%nat.
Proof.
  induction l as [|n l IH]; [simpl; lia|].
  pose proof (repr_int_length n) as Hn.
  destruct l as [|m l']; [simpl; lia|].
  change (repr_items (n :: m :: l'))
    with (repr_int n ++ lit ", " ++ repr_items (m :: l')).
  rewrite !length_app. simpl in IH |- *. lia.
Qed.

Lemma parse_tuple_repr (l : list N) (rest : pystr) :
  parse_tuple (repr_tuple l ++ rest) = Some (l, rest).
Proof.
  destruct l as [|n l]; [reflexivity|].
  destruct (repr_int_head n) as [d [ds [Hn Hd]]].
  assert (Hopen : forall tail,
            parse_tuple (lit "(" ++ repr_int n ++ tail)
            = parse_items (List.length (repr_int n ++ tail)) (repr_int n ++ tail)).
  { intro tail. unfold parse_tuple. rewrite Hn.
    change (lit "()") with [40; 41]. change (lit "(") with [40].
    cbn [app expect]. rewrite N.eqb_refl.
    rewrite (digit_not 41 d Hd) by reflexivity. reflexivity. }
  destruct l as [|m l].
  - cbn [repr_tuple]. rewrite <- !app_assoc. rewrite Hopen.
    pose proof (repr_int_length n) as Hlen.
    destruct (List.length (repr_int n ++ lit ",)" ++ rest)) as [|k] eqn:E;
      [rewrite length_app in E; lia|].
    cbn [parse_items]. rewrite parse_int_repr by reflexivity. reflexivity.
  - cbn [repr_tuple]. rewrite <- !app_assoc.
    assert (Hshape : repr_items (n :: m :: l) ++ lit ")" ++ rest
                     = repr_int n ++ lit ", " ++ repr_items (m :: l) ++ lit ")" ++ rest).
    { change (repr_items (n :: m :: l))
        with (repr_int n ++ lit ", " ++ repr_items (m :: l)).
      rewrite <- !app_assoc. reflexivity. }
    rewrite Hshape, Hopen, <- Hshape.
    apply parse_items_repr.
    pose proof (repr_items_length (n :: m :: l)) as Hl.
    rewrite length_app. simpl in Hl |- *. lia.
Qed.

Lemma make_dtype_valid (d : dtype) :
  valid_dtype d = true -> make_dtype (byte_order d) (dkind d) (itemsize d) = d.
Proof.
  destruct d as [o k n]. unfold valid_dtype, make_dtype. cbn [byte_order dkind itemsize].
  intro H. apply andb_true_iff in H. destruct H as [_ H].
  destruct o; [apply negb_true_iff in H; rewrite H| apply negb_true_iff in H; rewrite H
              | rewrite H]; reflexivity.
Qed.

Lemma parse_descr_repr (d : dtype) (rest : pystr) :
  valid_dtype d = true ->
  match rest with [] => True | c :: _ => is_digit c = false end ->
  parse_descr (descr d ++ rest) = Some (d, rest).
Proof.
  intros Hv Hrest. unfold parse_descr, descr. cbn [app].
  rewrite parse_int_repr by exact Hrest.
  assert (Ho : parse_order (order_char (byte_order d)) = Some (byte_order d))
    by (destruct (byte_order d); reflexivity).
  assert (Hk : parse_kind (kind_char (dkind d)) = Some (dkind d))
    by (destruct (dkind d); reflexivity).
  rewrite Ho, Hk, (make_dtype_valid d Hv). reflexivity.
Qed.

Lemma forallb_repeat (f : N -> bool) (c : N) (n : nat) :
  f c = true -> forallb f (repeat c n) = true.
Proof. intro H. induction n as [|n IH]; simpl; [reflexivity|]. rewrite H. exact IH. Qed.

(** The header text, followed by any padding of spaces and newlines, parses
    back to the element type, the order flag and the shape. *)
Lemma parse_header_text (a : ndarray) (pad : pystr) :
  valid_dtype (dt a) = true ->
  forallb (fun c => (c =? Str.SP) || (c =? Str.LF)) pad = true ->
  parse_header (header_text a ++ pad) = Some (dt a, fortran a, shape a).
Proof.
  intros Hv Hpad. unfold parse_header, header_text.
  rewrite <- !app_assoc. rewrite expect_app. cbn [option_bind].
  rewrite parse_descr_repr by (exact Hv || reflexivity). cbn [option_bind].
  rewrite expect_app. cbn [option_bind].
  rewrite parse_bool_repr. cbn [option_bind].
  rewrite expect_app. cbn [option_bind].
  rewrite parse_tuple_repr. cbn [option_bind].
  rewrite expect_app. cbn [option_bind].
  rewrite forallb_app, forallb_repeat by reflexivity.
  cbn [andb]. rewrite Hpad. reflexivity.
Qed.

(** *** Bytes *)

Lemma byte_of_N_to_N (n : N) : n < 256 -> Byte.to_N (Sha256.byte_of_N n) = n.
Proof.
  intro H. unfold Sha256.byte_of_N. rewrite N.mod_small by exact H.
  destruct (Byte.of_N n) as [b|] eqn:E.
  - apply Byte.to_of_N. exact E.
  - apply Byte.of_N_None_iff in E. lia.
Qed.

Lemma bytes_roundtrip (l : list N) :
  Forall (fun n => n < 256) l -> map Byte.to_N (map Sha256.byte_of_N l) = l.
Proof.
  induction 1 as [|n l Hn _ IH]; [reflexivity|].
  simpl. rewrite IH. rewrite byte_of_N_to_N by exact Hn. reflexivity.
Qed.

Lemma lit_small (s : string) : Forall (fun n => n < 256) (lit s).
Proof.
  induction s as [|c s IH]; [constructor|].
  simpl. constructor; [apply N_ascii_bounded|exact IH].
Qed.

Lemma digits_small (l : pystr) :
  forallb is_digit l = true -> Forall (fun n => n < 256) l.
Proof.
  induction l as [|c l IH]; intro H; [constructor|].
  cbn [forallb] in H. apply andb_true_iff in H. destruct H as [Hc Hl].
  constructor; [|auto]. unfold is_digit in Hc. apply andb_true_iff in Hc.
  destruct Hc as [_ Hc]. apply N.leb_le in Hc. lia.
Qed.

Lemma repr_int_small (n : N) : Forall (fun n => n < 256) (repr_int n).
Proof. apply digits_small. apply digits_are_digits. Qed.

Lemma repeat_small (c : N) (n : nat) : c < 256 -> Forall (fun n => n < 256) (repeat c n).
Proof. intro H. induction n; simpl; constructor; assumption. Qed.

Ltac split_small :=
  repeat match goal with
         | |- Forall _ (_ ++ _) => apply Forall_app; split
         end.

Lemma repr_items_small (l : list N) : Forall (fun n => n < 256) (repr_items l).
Proof.
  induction l as [|n l IH]; [constructor|].
  destruct l as [|m l']; [apply repr_int_small|].
  change (repr_items (n :: m :: l'))
    with (repr_int n ++ lit ", " ++ repr_items (m :: l')).
  split_small; auto using repr_int_small, lit_small.
Qed.

Lemma repr_tuple_small (l : list N) : Forall (fun n => n < 256) (repr_tuple l).
Proof.
  unfold repr_tuple. destruct l as [|n [|m l]]; [apply lit_small| |];
    split_small; auto using repr_int_small, lit_small, repr_items_small.
Qed.

Lemma descr_small (d : dtype) : Forall (fun n => n < 256) (descr d).
Proof.
  unfold descr. constructor; [destruct (byte_order d); reflexivity|].
  constructor; [destruct (dkind d); reflexivity|apply repr_int_small].
Qed.

Lemma header_text_small (a : ndarray) : Forall (fun n => n < 256) (header_text a).
Proof.
  unfold header_text. split_small;
    auto using lit_small, descr_small, repr_tuple_small.
  - destruct (fortran a); apply lit_small.
  - apply repeat_small. reflexivity.
Qed.

(** *** Lengths *)

Lemma firstn_exact {A} (l r : list A) (n : nat) :
  List.length l = n -> firstn n (l ++ r) = l.
Proof.
  intros <-. rewrite firstn_app, Nat.sub_diag, firstn_all. simpl.
  apply app_nil_r.
Qed.

Lemma skipn_exact {A} (l r : list A) (n : nat) :
  List.length l = n -> skipn n (l ++ r) = r.
Proof.
  intros <-. rewrite skipn_app, Nat.sub_diag, skipn_all. reflexivity.
Qed.

Lemma repr_int_bound (n : N) :
  n < 2 ^ 63 -> (List.length (repr_int n) <= 63)%nat.
Proof.
  intro H. pose proof (repr_int_length n) as Hl.
  assert (Hlog : N.log2 n < 63).
  { destruct (N.eq_dec n 0) as [->|Hn]; [reflexivity|].
    apply N.log2_lt_pow2; [lia|exact H]. }
  lia.
Qed.

Lemma repr_items_bound (l : list N) :
  Forall (fun n => n < 2 ^ 63) l ->
  (List.length (repr_items l) <= 65 * List.length l)%nat.
Proof.
  induction 1 as [|n l Hn Hl IH]; [simpl; lia|].
  pose proof (repr_int_bound n Hn) as Hb.
  destruct l as [|m l']; [simpl; lia|].
  change (repr_items (n :: m :: l'))
    with (repr_int n ++ lit ", " ++ repr_items (m :: l')).
  rewrite !length_app. change (List.length (lit ", ")) with 2%nat.
  simpl List.length in IH |- *. lia.
Qed.

Lemma repr_tuple_bound (l : list N) :
  Forall (fun n => n < 2 ^ 63) l ->
  (List.length (repr_tuple l) <= 3 + 65 * List.length l)%nat.
Proof.
  intro H. pose proof (repr_items_bound l H) as Hb.
  destruct l as [|n [|m l']].
  - simpl. lia.
  - inversion H; subst. pose proof (repr_int_bound n ltac:(assumption)).
    unfold repr_tuple. rewrite !length_app. simpl. lia.
  - unfold repr_tuple. rewrite !length_app.
    change (List.length (lit "(")) with 1%nat.
    change (List.length (lit ")")) with 1%nat. lia.
Qed.

Lemma valid_itemsize (d : dtype) : valid_dtype d = true -> itemsize d <= 32.
Proof.
  unfold valid_dtype, member. intro H. apply andb_true_iff in H. destruct H as [H _].
  destruct (dkind d); cbn [existsb] in H;
    repeat (apply orb_true_iff in H; destruct H as [H|H]);
    try discriminate; apply N.eqb_eq in H; lia.
Qed.

Lemma header_text_bound (a : ndarray) :
  well_formed a -> (List.length (header_text a) <= 4300)%nat.
Proof.
  intros [Hv [Hdims [Hshape _]]].
  pose proof (valid_itemsize _ Hv) as Hsz.
  assert (Hdescr : (List.length (descr (dt a)) <= 65)%nat).
  { unfold descr. simpl List.length.
    pose proof (repr_int_bound (itemsize (dt a))) as Hb.
    assert (itemsize (dt a) < 2 ^ 63) by (change (2 ^ 63) with 9223372036854775808; lia).
    specialize (Hb ltac:(assumption)). lia. }
  pose proof (repr_tuple_bound _ Hshape) as Htuple.
  assert (Hbool : (List.length (repr_bool (fortran a)) <= 5)%nat)
    by (destruct (fortran a); simpl; lia).
  unfold header_text. rewrite !length_app, repeat_length.
  change (List.length (lit "{'descr': '")) with 11%nat.
  change (List.length (lit "', 'fortran_order': ")) with 20%nat.
  change (List.length (lit ", 'shape': ")) with 11%nat.
  change (List.length (lit ", }")) with 3%nat.
  assert (Hspare : (N.to_nat (spare_room a) <= 21)%nat).
  { unfold spare_room. destruct (shape a); [simpl; lia|].
    unfold GROWTH_AXIS_MAX_DIGITS. lia. }
  unfold MAXDIMS in Hdims. lia.
Qed.

Lemma pack_le_2 (n : N) : n < 65536 -> unpack_le (pack_le 2 n) = n.
Proof.
  intro H. cbn [pack_le unpack_le].
  assert (Hq : n / 256 < 256) by (apply N.Div0.div_lt_upper_bound; lia).
  rewrite (N.mod_small (n / 256)) by exact Hq.
  rewrite N.mul_0_r, N.add_0_r, N.add_comm. symmetry. apply N.Div0.div_mod.
Qed.

Lemma pack_le_small (w : nat) (n : N) : Forall (fun n => n < 256) (pack_le w n).
Proof.
  revert n. induction w as [|w IH]; intro n; [constructor|].
  cbn [pack_le]. constructor; [apply N.mod_lt; discriminate|apply IH].
Qed.

Lemma pack_le_length (w : nat) (n : N) : List.length (pack_le w n) = w.
Proof.
  revert n. induction w as [|w IH]; intro n; [reflexivity|].
  cbn [pack_le List.length]. rewrite IH. reflexivity.
Qed.

(** *** Reading back what was written *)

Lemma read_array_wrapped (a : ndarray) (hl : N) (pad : pystr) :
  well_formed a ->
  hl = N.of_nat (List.length (header_text a ++ pad)) ->
  hl < 65536 -> hl <= MAX_HEADER_SIZE ->
  forallb (fun c => (c =? Str.SP) || (c =? Str.LF)) pad = true ->
  read_array 2
    (pack_le 2 hl ++ (header_text a ++ pad) ++ map Byte.to_N (buffer a))
    (map Sha256.byte_of_N (pack_le 2 hl)
       ++ map Sha256.byte_of_N (header_text a ++ pad) ++ buffer a)
  = Ok a.
Proof.
  intros Hwf Hhl Hsmall Hmax Hpad.
  destruct Hwf as [Hv [_ [_ [Hbuf Hfortran]]]].
  assert (Hlen : List.length (header_text a ++ pad) = N.to_nat hl)
    by (rewrite Hhl, Nat2N.id; reflexivity).
  unfold read_array. cbv zeta.
  assert (H1 : Nat.ltb (List.length (pack_le 2 hl ++ (header_text a ++ pad)
                                       ++ map Byte.to_N (buffer a))) 2 = false).
  { apply Nat.ltb_ge. rewrite length_app, pack_le_length. lia. }
  rewrite H1.
  rewrite (firstn_exact (pack_le 2 hl)) by apply pack_le_length.
  rewrite (skipn_exact (pack_le 2 hl)) by apply pack_le_length.
  rewrite (skipn_exact (map Sha256.byte_of_N (pack_le 2 hl)))
    by (rewrite length_map; apply pack_le_length).
  rewrite (pack_le_2 hl Hsmall).
  assert (H2 : (N.of_nat (List.length ((header_text a ++ pad)
                                         ++ map Byte.to_N (buffer a))) <? hl) = false).
  { apply N.ltb_ge. rewrite length_app, Nat2N.inj_add, <- Hhl. lia. }
  rewrite H2.
  assert (H3 : (MAX_HEADER_SIZE <? hl) = false) by (apply N.ltb_ge; exact Hmax).
  rewrite H3.
  rewrite (firstn_exact (header_text a ++ pad)) by exact Hlen.
  rewrite (parse_header_text a pad Hv Hpad).
  rewrite Hv. cbn [negb].
  rewrite (skipn_exact (map Sha256.byte_of_N (header_text a ++ pad)))
    by (rewrite length_map; exact Hlen).
  rewrite <- Hbuf, N.ltb_irrefl, Nat2N.id, firstn_all.
  assert (Hf : fortran a && negb (both_contiguous (shape a)) = fortran a).
  { destruct (fortran a); [rewrite (Hfortran eq_refl)|]; reflexivity. }
  rewrite Hf. destruct a; reflexivity.
Qed.

Lemma save_layout (a : ndarray) :
  well_formed a ->
  exists hl pad,
    hl = N.of_nat (List.length (header_text a ++ pad))
    /\ hl < 65536 /\ hl <= MAX_HEADER_SIZE
    /\ forallb (fun c => (c =? Str.SP) || (c =? Str.LF)) pad = true
    /\ Forall (fun n => n < 256) pad
    /\ save a = Ok (map Sha256.byte_of_N
                      (MAGIC_PREFIX ++ [1; 0] ++ pack_le 2 hl ++ header_text a ++ pad)
                    ++ buffer a).
Proof.
  intro Hwf. pose proof (header_text_bound a Hwf) as Hlen.
  remember (N.of_nat (List.length (header_text a)) + 1) as hlen eqn:Hh.
  remember (ARRAY_ALIGN - (8 + 2 + hlen) mod ARRAY_ALIGN) as padlen eqn:Hp.
  assert (Hpadlen : padlen <= 64).
  { rewrite Hp. unfold ARRAY_ALIGN. generalize ((8 + 2 + hlen) mod 64). intros; lia. }
  assert (Hhlen : hlen <= 4301) by lia.
  exists (hlen + padlen), (repeat Str.SP (N.to_nat padlen) ++ [Str.LF]).
  assert (Hlt : (hlen + padlen <? 65536) = true) by (apply N.ltb_lt; lia).
  assert (Hsave : save a
                  = Ok (map Sha256.byte_of_N
                          (MAGIC_PREFIX ++ [1; 0] ++ pack_le 2 (hlen + padlen)
                             ++ header_text a
                             ++ repeat Str.SP (N.to_nat padlen) ++ [Str.LF])
                        ++ buffer a)).
  { unfold save, wrap_header. rewrite <- Hh, <- Hp, Hlt. reflexivity. }
  clear Hp.
  repeat split.
  - rewrite (length_app (header_text a)), length_app, repeat_length.
    change (List.length [Str.LF]) with 1%nat. lia.
  - lia.
  - unfold MAX_HEADER_SIZE. lia.
  - rewrite forallb_app, forallb_repeat by reflexivity. reflexivity.
  - apply Forall_app. split; [apply repeat_small; reflexivity|].
    constructor; [reflexivity|constructor].
  - exact Hsave.
Qed.

(** C2. A well-formed numeric array, of any shape and element type, is
    serialized, and deserializing the bytes gives the array back: same
    element type, same shape, same element bytes. *)
Theorem embedding_roundtrip (a : ndarray) :
  well_formed a ->
  exists blob,
    Database.serialize_embedding a = Ok blob
    /\ Database.deserialize_embedding blob = Ok a.
Proof.
  intro Hwf.
  destruct (save_layout a Hwf) as [hl [pad [Hhl [Hsmall [Hmax [Hpad [Hpadsmall Hsave]]]]]]].
  unfold Database.serialize_embedding, Database.deserialize_embedding.
  eexists. split; [exact Hsave|].
  unfold load.
  assert (Hfull : Forall (fun n => n < 256)
                    (MAGIC_PREFIX ++ [1; 0] ++ pack_le 2 hl ++ header_text a ++ pad)).
  { split_small; auto using pack_le_small, header_text_small.
    - repeat constructor.
    - repeat constructor. }
  rewrite map_app, (bytes_roundtrip _ Hfull).
  rewrite <- !app_assoc. rewrite expect_app.
  cbn [app]. cbn [N.eqb Pos.eqb andb].
  unfold MAGIC_PREFIX. cbn [map app skipn].
  rewrite map_app, <- app_assoc, (app_assoc (header_text a) pad).
  apply read_array_wrapped; assumption.
Qed.

End NumpyFacts.

(** ** The indexing pipeline *)

Section IndexerFacts.
Import Database Indexer.

Variable env : libraries.
Variable sys : system.
Variable fs : filesystem.
Variable embed : pystr -> Numpy.ndarray.








(** *** Counting the outcomes *)






End IndexerFacts.

(** ** The model on sample inputs *)

Example sha256_abc :
  Sha256.hexdigest (Sha256.update Sha256.new [x61; x62; x63])
  = lit "ba7816bf8f01cfea414140de5dae2223b00361a396177a9cb410ff61f20015ad".
Proof. vm_compute. reflexivity. Qed.

Example sha256_two_blocks :
  Sha256.hexdigest (Sha256.update Sha256.new (repeat x61 200))
  = lit "c2a908d98f5df987ade41b5fce213067efbcc21ef2240212a41e54b5e7c28ae5".
Proof. vm_compute. reflexivity. Qed.

Example npy_header_sample :
  Numpy.header_text Sample.array
  = lit "{'descr': '<f4', 'fortran_order': False, 'shape': (3,), }" ++ repeat 32 20
  /\ exists blob, Numpy.save Sample.array = Ok blob /\ List.length blob = 140%nat.
Proof. split; [reflexivity|]. eexists. split; [vm_compute; reflexivity|reflexivity]. Qed.

Example clean_text_sample :
  _clean_text [97; 9; 98; 32; 32; 10; 10; 32; 32; 99; 32; 10] = [97; 32; 98; 10; 99].
Proof. reflexivity. Qed.

Example splitext_samples :
  Os.splitext (lit "docs/report.final.PDF") = (lit "docs/report.final", lit ".PDF")
  /\ Os.splitext (lit "docs.d/.hidden") = (lit "docs.d/.hidden", [])
  /\ Os.splitext (lit "notes") = (lit "notes", []).
Proof. repeat split. Qed.

Lemma sample_array_well_formed : Numpy.well_formed Sample.array.
Proof.
  unfold Numpy.well_formed. repeat split.
  - unfold Numpy.MAXDIMS. simpl. lia.
  - repeat constructor.
  - discriminate.
Defined.

Lemma sample_store_consistent : Database.consistent (Database.init_db Database.empty_db).
Proof. repeat split; constructor. Defined.

(** ** The theorems at the sample inputs *)

(** C1 at a store that holds two records: a third call for the first path
    replaces its record. *)
Lemma insert_document_replaces_witness :
  let store := Database.insert_calls (Database.init_db Database.empty_db) Sample.calls in
  Database.document_exists_by_path store (lit "docs/a.txt") = Ok true
  /\ exists store',
       Database.insert_document store (lit "docs/a.txt") (lit "a c") (lit "h2")
                                Sample.array None None = Ok store'
       /\ Database.get_document_count store' = Database.get_document_count store
       /\ (List.length (Database.records_of store' (lit "docs/a.txt")) <= 1)%nat.
Proof.
  cbv zeta.
  destruct (insert_document_replaces (Database.init_db Database.empty_db) Sample.calls
              sample_store_consistent) as [_ Hreplace].
  assert (Hex : Database.document_exists_by_path
                  (Database.insert_calls (Database.init_db Database.empty_db) Sample.calls)
                  (lit "docs/a.txt") = Ok true) by (vm_compute; reflexivity).
  split; [exact Hex|].
  eexists. split; [vm_compute; reflexivity|].
  match goal with
  | |- Database.get_document_count ?s = _ /\ _ =>
      destruct (Hreplace (lit "docs/a.txt") (lit "a c") (lit "h2") Sample.array
                         None None s Hex) as [Hcount [Hone _]];
        [vm_compute; reflexivity|]
  end.
  split; [exact Hcount|apply Hone].
Defined.

(** C1 as stated fails at a time that is not a number: the record of the
    path is replaced, but its [modified_time] is NULL and not the argument of
    the call. *)
Lemma insert_document_nan_time :
  exists store',
    Database.insert_document
      (Database.insert_calls (Database.init_db Database.empty_db) Sample.calls)
      (lit "docs/a.txt") (lit "a c") (lit "h2") Sample.array None (Some Sample.nan)
    = Ok store'
    /\ map Database.modified_time (Database.records_of store' (lit "docs/a.txt"))
       = [None].
Proof. eexists. split; vm_compute; reflexivity. Qed.

(** C2 at the sample array. *)
Lemma embedding_roundtrip_witness :
  exists blob,
    Database.serialize_embedding Sample.array = Ok blob
    /\ Database.deserialize_embedding blob = Ok Sample.array.
Proof. exact (embedding_roundtrip Sample.array sample_array_well_formed). Defined.

(** C4 at a file of the sample directory. *)
Lemma file_hash_of_content_witness :
  file_hash Sample.fs_distinct (lit "docs/b.txt")
  = Ok (Sha256.hexdigest (Sha256.update Sha256.new [x62])).
Proof.
  exact (proj1 (file_hash_of_content Sample.fs_distinct (lit "docs/b.txt") [x62] eq_refl)).
Defined.

(** C5 at the sample file. *)
Lemma extract_text_cleaning_sample_witness :
  extract_text Sample.env Sample.fs_distinct (lit "docs/a.txt") = Ok [97; 32; 98; 10; 99].
Proof.
  apply extract_text_cleaning_sample.
  - vm_compute. discriminate.
  - vm_compute. reflexivity.
  - vm_compute. reflexivity.
Defined.

Lemma sample_parsers_keep_to_their_errors : parsers_keep_to_their_errors Sample.env.
Proof.
  split.
  - intros open_ nd msg H. injection H as <-. discriminate.
  - intros Document nd msg H. discriminate.
Defined.

(** C6, amended, at the sample environment: a path outside the directory, a
    text file that exists, and a file of an unsupported type. *)
Lemma extract_text_errors_witness :
  extract_text Sample.env Sample.fs_distinct (lit "docs/missing.jpg")
  = Raise (FileNotFoundError (lit "File not found: docs/missing.jpg"))
  /\ ((exists msg, extract_text Sample.env Sample.fs_distinct (lit "docs/a.txt")
                   = Raise (FileNotFoundError msg))
      <-> Sample.fs_distinct (lit "docs/a.txt") = None)
  /\ extract_text Sample.env (fun _ => Some Directory) (lit "docs/photo.JPG")
     = Raise (ValueError (lit "Unsupported file type '.jpg'. Supported: .pdf, .docx, .txt")).
Proof.
  split; [|split].
  - apply (extract_text_errors Sample.env Sample.fs_distinct (lit "docs/missing.jpg")).
    vm_compute. reflexivity.
  - apply (extract_text_errors Sample.env Sample.fs_distinct (lit "docs/a.txt")).
    exact sample_parsers_keep_to_their_errors.
  - apply (extract_text_errors Sample.env (fun _ => Some Directory) (lit "docs/photo.JPG")).
    + discriminate.
    + vm_compute. discriminate.
    + vm_compute. discriminate.
    + vm_compute. discriminate.
Defined.

(** C6 as stated fails when a parser does not find a file that exists for
    [os.path.exists]: [extract_text] then raises [FileNotFoundError] on an
    existing path. *)
Lemma extract_text_parser_not_found :
  Os.exists_ (fun _ => Some (File [])) (lit "docs/d.docx") = true
  /\ extract_text Sample.vanished (fun _ => Some (File [])) (lit "docs/d.docx")
     = Raise (FileNotFoundError
                (lit "[Errno 2] No such file or directory: 'docs/d.docx'")).
Proof. split; vm_compute; reflexivity. Qed.

(** C7 at a file that is not UTF-8: Latin-1 decodes it. *)
Lemma extract_txt_never_fails_witness :
  exists raw,
    first_decoding [Codecs.utf_8; Codecs.latin_1; Codecs.cp1252; Codecs.ascii]
                   [x63; xe9; x0d; x0a] = Some raw
    /\ _extract_txt (fun _ => Some (File [x63; xe9; x0d; x0a])) (lit "caf.txt")
       = Ok (universal_newlines raw)
    /\ extract_text Sample.env (fun _ => Some (File [x63; xe9; x0d; x0a])) (lit "caf.txt")
       = Ok (_clean_text (universal_newlines raw)).
Proof.
  apply (extract_txt_never_fails Sample.env (fun _ => Some (File [x63; xe9; x0d; x0a]))
           (lit "caf.txt") [x63; xe9; x0d; x0a]).
  - reflexivity.
  - vm_compute. reflexivity.
Defined.

(** C8 at a store where two paths share a hash. *)
Lemma check_existing_hash_first_path_witness :
  Database.check_existing_hash
    (Database.insert_calls (Database.init_db Database.empty_db) Sample.calls) (lit "h1")
  = Ok (Some (lit "docs/a.txt")).
Proof.
  destruct (check_existing_hash_first_path
              (Database.init_db Database.empty_db)
              {| Database.rows := []; Database.seq := 0 |} (lit "h1")
              sample_store_consistent eq_refl) as [_ [_ [_ [_ Htwo]]]].
  eapply (Htwo (lit "docs/a.txt") (lit "docs/b.txt") (lit "a b") (lit "b")
               Sample.array Sample.array (Some 12%Z) None (Some 0) None).
  - vm_compute. reflexivity.
  - vm_compute. reflexivity.
  - vm_compute. reflexivity.
  - vm_compute. discriminate.
Defined.

(** C8 as stated fails once a path is stored again: [docs/a.txt] was inserted
    first with the hash and is still stored with it, but it now has the
    largest rowid, and the path returned is [docs/b.txt]. *)
Lemma check_existing_hash_reinserted :
  Database.check_existing_hash
    (Database.insert_calls (Database.init_db Database.empty_db) Sample.calls_again)
    (lit "h1")
  = Ok (Some (lit "docs/b.txt"))
  /\ map Database.arg_path
         (filter (fun c => str_eqb (Database.arg_hash c) (lit "h1")) Sample.calls_again)
     = [lit "docs/a.txt"; lit "docs/b.txt"; lit "docs/a.txt"]
  /\ map Database.hash
         (Database.records_of
            (Database.insert_calls (Database.init_db Database.empty_db)
                                   Sample.calls_again)
            (lit "docs/a.txt"))
     = [lit "h1"].
Proof. repeat split; vm_compute; reflexivity. Qed.



(** * Further properties *)

(** ** The store: writes seen through the reads *)

Section StoreFacts.
Import Database.

Lemma insert_document_rows (d d' : db) (p tx h : pystr) (e : Numpy.ndarray)
      (fsz : option Z) (mt : option float64) :
  insert_document d p tx h e fsz mt = Ok d' ->
  exists t t' blob,
    documents d = Some t /\ documents d' = Some t'
    /\ serialize_embedding e = Ok blob
    /\ rows t' = filter (fun r => negb (str_eqb (path r) p)) (rows t)
                 ++ [{| id := Z.max (seq t) (max_rowid (rows t)) + 1;
                        path := p; text := tx; hash := h; embedding := blob;
                        file_size := fsz; modified_time := bound_real mt |}].
Proof.
  intro H. apply insert_document_inv in H.
  destruct H as [t [blob [t' [Ht [Hblob [Hins ->]]]]]].
  apply insert_or_replace_rows in Hins. cbv zeta in Hins. destruct Hins as [Hr _].
  exists t, t', blob. auto.
Qed.

Lemma filter_filter_implied {A} (f g : A -> bool) (l : list A) :
  (forall x, f x = true -> g x = true) -> filter f (filter g l) = filter f l.
Proof.
  intro H. induction l as [|x l IH]; [reflexivity|].
  cbn [filter]. destruct (g x) eqn:G.
  - cbn [filter]. rewrite IH. reflexivity.
  - destruct (f x) eqn:F; [rewrite (H x F) in G; discriminate|exact IH].
Qed.

Lemma existsb_filter_implied {A} (f g : A -> bool) (l : list A) :
  (forall x, f x = true -> g x = true) -> existsb f (filter g l) = existsb f l.
Proof.
  intro H. induction l as [|x l IH]; [reflexivity|].
  cbn [filter existsb]. destruct (g x) eqn:G.
  - cbn [existsb]. rewrite IH. reflexivity.
  - destruct (f x) eqn:F; [rewrite (H x F) in G; discriminate|exact IH].
Qed.

Lemma other_path_kept (p q : pystr) :
  q <> p ->
  forall r : row, str_eqb (path r) q = true -> negb (str_eqb (path r) p) = true.
Proof.
  intros Hneq r Hq. apply str_eqb_eq in Hq. apply negb_true_iff.
  apply str_eqb_neq. congruence.
Qed.

(** X1. A successful [insert_document] makes its path known to
    [document_exists_by_path] and touches no other path: the records of every
    other path, and the answer of [document_exists_by_path] for it, are what
    they were. *)
Theorem insert_document_other_paths (d d' : db) (p tx h : pystr)
        (e : Numpy.ndarray) (fsz : option Z) (mt : option float64) :
  insert_document d p tx h e fsz mt = Ok d' ->
  document_exists_by_path d' p = Ok true
  /\ forall q, q <> p ->
       records_of d' q = records_of d q
       /\ document_exists_by_path d' q = document_exists_by_path d q.
Proof.
  intro H. apply insert_document_rows in H.
  destruct H as [t [t' [blob [Ht [Ht' [_ Hr]]]]]].
  unfold document_exists_by_path, records_of. rewrite Ht, Ht', Hr. split.
  - rewrite existsb_app. cbn [existsb path]. rewrite str_eqb_refl.
    rewrite orb_true_r. reflexivity.
  - intros q Hneq.
    assert (Hq : str_eqb p q = false) by (apply str_eqb_neq; congruence).
    split.
    + rewrite filter_app. cbn [filter path]. rewrite Hq, app_nil_r.
      apply filter_filter_implied. apply other_path_kept. exact Hneq.
    + rewrite existsb_app. cbn [existsb path]. rewrite Hq, !orb_false_r.
      rewrite existsb_filter_implied by (apply other_path_kept; exact Hneq).
      reflexivity.
Qed.

Lemma filter_all {A} (g : A -> bool) (l : list A) :
  (forall x, In x l -> g x = true) -> filter g l = l.
Proof.
  induction l as [|x l IH]; intro H; [reflexivity|].
  cbn [filter]. rewrite (H x (or_introl eq_refl)). f_equal.
  apply IH. intros y Hy. apply H. right. exact Hy.
Qed.

(** X2. A successful [insert_document] for a path that
    [document_exists_by_path] does not know keeps every stored record and
    adds one: [get_document_count] grows by exactly one. *)
Theorem insert_document_new_path (d d' : db) (p tx h : pystr)
        (e : Numpy.ndarray) (fsz : option Z) (mt : option float64) :
  document_exists_by_path d p = Ok false ->
  insert_document d p tx h e fsz mt = Ok d' ->
  exists n,
    get_document_count d = Ok n /\ get_document_count d' = Ok (n + 1)%Z
    /\ forall q, q <> p -> records_of d' q = records_of d q.
Proof.
  intros Hnew H. apply insert_document_rows in H.
  destruct H as [t [t' [blob [Ht [Ht' [_ Hr]]]]]].
  unfold document_exists_by_path, get_document_count, records_of in *.
  rewrite Ht in *. rewrite Ht'. injection Hnew as Hnew.
  assert (Hkept : filter (fun r => negb (str_eqb (path r) p)) (rows t) = rows t).
  { apply filter_all. intros r Hin. apply negb_true_iff.
    destruct (str_eqb (path r) p) eqn:E; [|reflexivity].
    assert (Hex : existsb (fun r => str_eqb (path r) p) (rows t) = true)
      by (apply existsb_exists; eauto).
    congruence. }
  exists (Z.of_nat (List.length (rows t))). split; [reflexivity|]. split.
  - rewrite Hr, Hkept, length_app. cbn [List.length]. f_equal. lia.
  - intros q Hneq. rewrite Hr, Hkept, filter_app. cbn [filter path].
    assert (Hq : str_eqb p q = false) by (apply str_eqb_neq; congruence).
    rewrite Hq. apply app_nil_r.
Qed.

(** X3. After a successful [insert_document], the path is found by
    [check_existing_hash] under the hash of this call only: whatever hash an
    earlier record of the path carried no longer leads to it. *)
Theorem insert_document_drops_old_hash (d d' : db) (p tx h : pystr)
        (e : Numpy.ndarray) (fsz : option Z) (mt : option float64) :
  insert_document d p tx h e fsz mt = Ok d' ->
  (exists q, check_existing_hash d' h = Ok (Some q))
  /\ forall h', check_existing_hash d' h' = Ok (Some p) -> h' = h.
Proof.
  intro H. apply insert_document_rows in H.
  destruct H as [t [t' [blob [Ht [Ht' [_ Hr]]]]]].
  unfold check_existing_hash. rewrite Ht', Hr. split.
  - destruct (find (fun r => str_eqb (hash r) h) _) as [r|] eqn:F; [eauto|].
    exfalso. rewrite find_none_iff in F.
    match type of F with
    | forall r, In r (_ ++ [?new]) -> _ =>
        assert (Hnew : str_eqb (hash new) h = false)
          by (apply F; apply in_or_app; right; left; reflexivity)
    end.
    cbn [hash] in Hnew. rewrite str_eqb_refl in Hnew. discriminate.
  - intros h' Hfound.
    destruct (find (fun r => str_eqb (hash r) h') _) as [r|] eqn:F; [|discriminate].
    injection Hfound as Hp. apply find_some in F. destruct F as [Hin Hh].
    apply str_eqb_eq in Hh. apply in_app_or in Hin.
    destruct Hin as [Hin|[<-|[]]].
    + apply filter_In in Hin. destruct Hin as [_ Hne].
      rewrite Hp, str_eqb_refl in Hne. discriminate.
    + symmetry. exact Hh.
Qed.

(** *** Reading the rows *)

Lemma load_rows_loaded (rs : list row) (docs : list document) :
  load_rows rs = Ok docs -> Forall2 loaded rs docs.
Proof.
  revert docs. induction rs as [|r rs IH]; intros docs H.
  - injection H as <-. constructor.
  - cbn [load_rows] in H. apply bind_ok in H. destruct H as [e [He H]].
    apply bind_ok in H. destruct H as [results [Hres H]].
    injection H as <-. constructor; [|apply IH; exact Hres].
    unfold loaded. cbn. repeat split. exact He.
Qed.

Lemma load_rows_app (rs rs' : list row) (docs docs' : list document) :
  load_rows rs = Ok docs -> load_rows rs' = Ok docs' ->
  load_rows (rs ++ rs') = Ok (docs ++ docs').
Proof.
  revert docs. induction rs as [|r rs IH]; intros docs H H'.
  - injection H as <-. exact H'.
  - cbn [load_rows app] in *. apply bind_ok in H. destruct H as [e [He H]].
    apply bind_ok in H. destruct H as [results [Hres H]].
    injection H as <-. rewrite He. cbn [bind].
    rewrite (IH results Hres H'). reflexivity.
Qed.

Lemma load_rows_filter (g : pystr -> bool) (rs : list row) (docs : list document) :
  load_rows rs = Ok docs ->
  load_rows (filter (fun r => g (path r)) rs)
  = Ok (filter (fun doc => g (doc_path doc)) docs).
Proof.
  revert docs. induction rs as [|r rs IH]; intros docs H.
  - injection H as <-. reflexivity.
  - cbn [load_rows] in H. apply bind_ok in H. destruct H as [e [He H]].
    apply bind_ok in H. destruct H as [results [Hres H]].
    injection H as <-. cbn [filter doc_path].
    destruct (g (path r)); [|apply IH; exact Hres].
    cbn [load_rows]. rewrite He. cbn [bind]. rewrite (IH results Hres). reflexivity.
Qed.

Lemma loaded_ids (rs : list row) (docs : list document) (P : Z -> Prop) :
  Forall2 loaded rs docs -> (forall r, In r rs -> P (id r)) ->
  Forall (fun doc => P (doc_id doc)) docs.
Proof.
  induction 1 as [|r doc rs docs Hl _ IH]; intro H; [constructor|].
  constructor.
  - destruct Hl as [-> _]. apply H. left. reflexivity.
  - apply IH. intros r' Hin. apply H. right. exact Hin.
Qed.

(** Reading back what [np.save] wrote. *)
Lemma save_load (a : Numpy.ndarray) (blob : bytes) :
  Numpy.well_formed a -> Numpy.save a = Ok blob -> Numpy.load blob = Ok a.
Proof.
  intros Hwf Hblob.
  destruct (save_layout a Hwf) as [hl [pad [Hhl [Hsmall [Hmax [Hpad [Hpadsmall Hsave]]]]]]].
  assert (Hb : blob = map Sha256.byte_of_N
                         (Numpy.MAGIC_PREFIX ++ [1; 0] ++ Numpy.pack_le 2 hl
                            ++ Numpy.header_text a ++ pad)
                       ++ Numpy.buffer a) by congruence.
  subst blob. unfold Numpy.load.
  assert (Hfull : Forall (fun n => n < 256)
                    (Numpy.MAGIC_PREFIX ++ [1; 0] ++ Numpy.pack_le 2 hl
                       ++ Numpy.header_text a ++ pad)).
  { repeat match goal with
           | |- Forall _ (_ ++ _) => apply Forall_app; split
           end;
      auto using pack_le_small, header_text_small; repeat constructor. }
  rewrite map_app, (bytes_roundtrip _ Hfull).
  rewrite <- !app_assoc. rewrite expect_app.
  cbn [app]. cbn [N.eqb Pos.eqb andb].
  unfold Numpy.MAGIC_PREFIX. cbn [map app skipn].
  rewrite map_app, <- app_assoc, (app_assoc (Numpy.header_text a) pad).
  apply read_array_wrapped; assumption.
Qed.

(** X4. Insert and read back: after a successful [insert_document] of a
    well-formed array, [get_all_documents] returns what it returned before
    without the former document of the path, followed by one document that
    carries the arguments of the call, the embedding itself included and the
    time as the REAL column gives it back ([None] for a NaN, 0.0 for the
    negative zero, the time itself otherwise), under an id above all the ids
    listed before. *)
Theorem get_all_documents_after_insert (d d' : db) (docs : list document)
        (p tx h : pystr) (e : Numpy.ndarray) (fsz : option Z) (mt : option float64) :
  Numpy.well_formed e ->
  get_all_documents d = Ok docs ->
  insert_document d p tx h e fsz mt = Ok d' ->
  exists new_id,
    get_all_documents d'
    = Ok (filter (fun doc => negb (str_eqb (doc_path doc) p)) docs
          ++ [{| doc_id := new_id; doc_path := p; doc_text := tx; doc_hash := h;
                 doc_embedding := e; doc_file_size := fsz;
                 doc_modified_time := bound_real mt |}])
    /\ Forall (fun doc => (doc_id doc < new_id)%Z) docs.
Proof.
  intros Hwf Hall H. apply insert_document_rows in H.
  destruct H as [t [t' [blob [Ht [Ht' [Hblob Hr]]]]]].
  unfold get_all_documents in *. rewrite Ht in Hall. rewrite Ht', Hr.
  exists (Z.max (seq t) (max_rowid (rows t)) + 1)%Z. split.
  - apply load_rows_app.
    + apply (load_rows_filter (fun q => negb (str_eqb q p))). exact Hall.
    + cbn [load_rows embedding]. unfold deserialize_embedding.
      rewrite (save_load e blob Hwf Hblob). reflexivity.
  - apply (loaded_ids (rows t) docs
                      (fun z => (z < Z.max (seq t) (max_rowid (rows t)) + 1)%Z));
      [apply load_rows_loaded; exact Hall|].
    intros r Hin. apply max_rowid_in in Hin. lia.
Qed.

(** X5. The read operations agree with [get_all_documents]: the count is
    the length of its list, a path exists exactly when the list has a document
    of that path, and [check_existing_hash] returns the path of the first
    document of the list that carries the hash. *)
Theorem reads_agree (d : db) (docs : list document) :
  get_all_documents d = Ok docs ->
  get_document_count d = Ok (Z.of_nat (List.length docs))
  /\ (forall p,
        document_exists_by_path d p
        = Ok (existsb (fun doc => str_eqb (doc_path doc) p) docs))
  /\ (forall h,
        check_existing_hash d h
        = Ok (match find (fun doc => str_eqb (doc_hash doc) h) docs with
              | Some doc => Some (doc_path doc)
              | None => None
              end)).
Proof.
  unfold get_all_documents, get_document_count, document_exists_by_path,
    check_existing_hash.
  destruct (documents d) as [t|]; [|discriminate].
  intro H. apply load_rows_loaded in H.
  induction H as [|r doc rs docs' Hl _ [IH1 [IH2 IH3]]].
  - repeat split.
  - destruct Hl as [_ [Hp [_ [Hh _]]]]. repeat split.
    + injection IH1 as IH1. cbn [List.length]. rewrite !Nat2Z.inj_succ, IH1.
      reflexivity.
    + intro p. specialize (IH2 p). injection IH2 as IH2.
      cbn [existsb]. rewrite Hp, IH2. reflexivity.
    + intro h. specialize (IH3 h). cbn [find]. rewrite Hh.
      destruct (str_eqb (hash r) h); [rewrite Hp; reflexivity|exact IH3].
Qed.

(** *** Stores written by [insert_document] only *)

Lemma insert_call_rows_from (seen : list call) (d d' : db) (c : call) :
  (forall t r, documents d = Some t -> In r (rows t) ->
               exists c0, In c0 seen /\ row_of_call r c0) ->
  insert_call d c = Ok d' ->
  forall t' r, documents d' = Some t' -> In r (rows t') ->
               exists c0, In c0 (seen ++ [c]) /\ row_of_call r c0.
Proof.
  intros Hinv H t' r Ht' Hin. unfold insert_call in H.
  apply insert_document_rows in H.
  destruct H as [t [t1 [blob [Ht [Ht1 [Hblob Hr]]]]]].
  rewrite Ht1 in Ht'. injection Ht' as <-. rewrite Hr in Hin.
  apply in_app_or in Hin. destruct Hin as [Hin|[<-|[]]].
  - apply filter_In in Hin. destruct Hin as [Hin _].
    destruct (Hinv t r Ht Hin) as [c0 [Hc0 Hrow]].
    exists c0. split; [apply in_or_app; left; exact Hc0|exact Hrow].
  - exists c. split; [apply in_or_app; right; left; reflexivity|].
    unfold row_of_call. cbn. repeat split. exact Hblob.
Qed.

Lemma insert_calls_rows_from (cs seen : list call) (d : db) :
  (forall t r, documents d = Some t -> In r (rows t) ->
               exists c0, In c0 seen /\ row_of_call r c0) ->
  forall t r, documents (insert_calls d cs) = Some t -> In r (rows t) ->
              exists c0, In c0 (seen ++ cs) /\ row_of_call r c0.
Proof.
  unfold insert_calls. revert seen d.
  induction cs as [|c cs IH]; intros seen d Hinv; cbn [fold_left].
  - rewrite app_nil_r. exact Hinv.
  - replace (seen ++ c :: cs) with ((seen ++ [c]) ++ cs)
      by (rewrite <- app_assoc; reflexivity).
    apply IH. destruct (insert_call d c) as [d'|] eqn:E.
    + apply (insert_call_rows_from seen d d' c Hinv E).
    + intros t r Ht Hin. destruct (Hinv t r Ht Hin) as [c0 [Hc0 Hrow]].
      exists c0. split; [apply in_or_app; left; exact Hc0|exact Hrow].
Qed.

Lemma insert_calls_initialized (cs : list call) (d : db) :
  documents d <> None -> documents (insert_calls d cs) <> None.
Proof.
  unfold insert_calls. revert d.
  induction cs as [|c cs IH]; intros d H; cbn [fold_left]; [exact H|].
  apply IH. destruct (insert_call d c) as [d'|] eqn:E; [|exact H].
  unfold insert_call in E. apply insert_document_rows in E.
  destruct E as [t [t' [_ [_ [Ht' _]]]]]. congruence.
Qed.

Lemma load_rows_of_calls (cs : list call) (rs : list row) :
  Forall (fun c => Numpy.well_formed (arg_embedding c)) cs ->
  (forall r, In r rs -> exists c, In c cs /\ row_of_call r c) ->
  exists docs,
    load_rows rs = Ok docs
    /\ Forall2 loaded rs docs
    /\ forall doc, In doc docs -> exists c, In c cs /\ document_of_call doc c.
Proof.
  intros Hwf. induction rs as [|r rs IH]; intro Hrows.
  - exists []. repeat split; [constructor|intros doc []].
  - destruct IH as [docs [Hload [Hl Hdocs]]];
      [intros r' Hin; apply Hrows; right; exact Hin|].
    destruct (Hrows r (or_introl eq_refl)) as [c [Hc Hrow]].
    destruct Hrow as [Hp [Htx [Hh [Hblob [Hsz Hmt]]]]].
    rewrite Forall_forall in Hwf.
    pose proof (save_load _ _ (Hwf c Hc) Hblob) as Hback.
    exists ({| doc_id := id r; doc_path := path r; doc_text := text r;
               doc_hash := hash r; doc_embedding := arg_embedding c;
               doc_file_size := file_size r;
               doc_modified_time := modified_time r |} :: docs).
    split; [|split].
    + cbn [load_rows]. unfold deserialize_embedding. rewrite Hback. cbn [bind].
      rewrite Hload. reflexivity.
    + constructor; [|exact Hl]. unfold loaded. cbn. repeat split. exact Hback.
    + intros doc [<-|Hin]; [|apply Hdocs; exact Hin].
      exists c. split; [exact Hc|]. unfold document_of_call. cbn.
      repeat split; assumption.
Qed.

Lemma loaded_map {A} (f : row -> A) (g : document -> A)
      (rs : list row) (docs : list document) :
  (forall r doc, loaded r doc -> g doc = f r) ->
  Forall2 loaded rs docs -> map g docs = map f rs.
Proof.
  intro H. induction 1 as [|r doc rs docs Hl _ IH]; [reflexivity|].
  cbn [map]. rewrite IH, (H r doc Hl). reflexivity.
Qed.

(** X6. A store that was created by [init_db] and then went through any
    calls of [insert_document] with well-formed arrays can always be read:
    [get_all_documents] succeeds, lists no path twice, lists the ids in
    strictly increasing order, and every document it lists is what one of the
    calls passed, the array included, with the time as the REAL column gives
    it back. *)
Theorem get_all_documents_after_calls (cs : list call) :
  Forall (fun c => Numpy.well_formed (arg_embedding c)) cs ->
  exists docs,
    get_all_documents (insert_calls (init_db empty_db) cs) = Ok docs
    /\ NoDup (map doc_path docs)
    /\ StronglySorted Z.lt (map doc_id docs)
    /\ forall doc, In doc docs -> exists c, In c cs /\ document_of_call doc c.
Proof.
  intro Hwf.
  pose proof (insert_calls_consistent cs (init_db empty_db)
                ltac:(repeat split; constructor)) as Hcons.
  pose proof (insert_calls_initialized cs (init_db empty_db) ltac:(discriminate))
    as Hinit.
  pose proof (insert_calls_rows_from cs [] (init_db empty_db)) as Hfrom.
  unfold get_all_documents, consistent in *.
  destruct (documents (insert_calls (init_db empty_db) cs)) as [t|];
    [|congruence].
  destruct Hcons as [Hsorted [_ Hnodup]].
  destruct (load_rows_of_calls cs (rows t) Hwf) as [docs [Hload [Hl Hdocs]]].
  { intros r Hin. apply (Hfrom ltac:(intros t0 r0 Ht0 Hin0; cbn in Ht0;
                                       injection Ht0 as <-; destruct Hin0)
                                t r eq_refl Hin). }
  exists docs. split; [exact Hload|]. split; [|split; [|exact Hdocs]].
  - rewrite (loaded_map path doc_path _ _ ltac:(intros r doc Hld; apply Hld) Hl).
    exact Hnodup.
  - rewrite (loaded_map id doc_id _ _ ltac:(intros r doc Hld; apply Hld) Hl).
    exact Hsorted.
Qed.

(** X7. Without [init_db] nothing works and nothing is written: on a
    database that has no table, every read operation raises the
    [OperationalError] of the missing table and [insert_document] raises as
    well; once [init_db] has run on it, the store is empty. *)
Theorem missing_table (d : db) :
  documents d = None ->
  (forall h, check_existing_hash d h = no_such_table)
  /\ get_all_documents d = no_such_table
  /\ get_document_count d = no_such_table
  /\ (forall p, document_exists_by_path d p = no_such_table)
  /\ (forall p tx h e fsz mt,
        exists err, insert_document d p tx h e fsz mt = Raise err)
  /\ get_document_count (init_db d) = Ok 0%Z
  /\ get_all_documents (init_db d) = Ok []
  /\ (forall p, document_exists_by_path (init_db d) p = Ok false)
  /\ (forall h, check_existing_hash (init_db d) h = Ok None).
Proof.
  intro H.
  unfold check_existing_hash, get_all_documents, get_document_count,
    document_exists_by_path, insert_document, init_db.
  rewrite H. cbn [documents rows load_rows List.length existsb find].
  repeat split; try reflexivity.
  intros p tx h e fsz mt. destruct (serialize_embedding e) as [blob|err];
    cbn [bind]; unfold no_such_table; eauto.
Qed.

End StoreFacts.

(** ** Cleaning keeps what can be seen *)

Section VisibleFacts.

Lemma linebreak_isspace (c : codepoint) :
  Str.is_linebreak c = true -> Str.isspace c = true.
Proof.
  unfold Str.is_linebreak. intro H.
  repeat (apply orb_true_iff in H; destruct H as [H|H]);
    apply N.eqb_eq in H; subst c; reflexivity.
Qed.

Lemma blank_isspace (c : codepoint) : Re.is_blank c = true -> Str.isspace c = true.
Proof.
  unfold Re.is_blank. intro H.
  apply orb_true_iff in H; destruct H as [H|H];
    apply N.eqb_eq in H; subst c; reflexivity.
Qed.

Lemma visible_app (a b : pystr) : visible (a ++ b) = visible a ++ visible b.
Proof. apply filter_app. Qed.

Lemma visible_space (c : codepoint) (s : pystr) :
  Str.isspace c = true -> visible (c :: s) = visible s.
Proof. intro H. unfold visible. cbn [filter]. rewrite H. reflexivity. Qed.

Lemma visible_crlf_replaced (s : pystr) :
  visible (Str.replace [Str.CR; Str.LF] [Str.LF] s) = visible s.
Proof.
  unfold Str.replace.
  assert (H : forall n s, (List.length s <= n)%nat ->
            visible (Str.replace_from [Str.CR; Str.LF] [Str.LF] 0 s) = visible s).
  { clear s. induction n as [|n IH]; intros s Hlen.
    - destruct s; [reflexivity|simpl in Hlen; lia].
    - destruct s as [|c s']; [reflexivity|]. cbn [List.length] in Hlen.
      cbn [Str.replace_from Str.startswith List.length pred].
      destruct (N.eqb_spec Str.CR c) as [<-|Hc].
      + destruct s' as [|d s'']; cbn [andb].
        * cbn [Str.replace_from]. reflexivity.
        * destruct (N.eqb_spec Str.LF d) as [<-|Hd]; cbn [andb].
          -- cbn [app Str.replace_from].
             rewrite !visible_space by reflexivity.
             apply IH. cbn [List.length] in Hlen. lia.
          -- unfold visible at 1 2. cbn [filter]. fold (visible (d :: s'')).
             fold (visible (Str.replace_from [Str.CR; Str.LF] [Str.LF] 0 (d :: s''))).
             rewrite IH by lia. reflexivity.
      + cbn [andb]. unfold visible at 1 2. cbn [filter]. fold (visible s').
        fold (visible (Str.replace_from [Str.CR; Str.LF] [Str.LF] 0 s')).
        rewrite IH by lia. reflexivity. }
  apply (H (List.length s)). lia.
Qed.

Lemma visible_newlines (s : pystr) : visible (universal_newlines s) = visible s.
Proof.
  unfold universal_newlines. rewrite replace_char.
  rewrite <- (visible_crlf_replaced s).
  generalize (Str.replace [Str.CR; Str.LF] [Str.LF] s). intro l.
  induction l as [|c l IH]; [reflexivity|].
  cbn [map]. destruct (N.eqb_spec c Str.CR) as [->|Hc].
  - rewrite !visible_space by reflexivity. exact IH.
  - unfold visible in *. cbn [filter]. rewrite IH. reflexivity.
Qed.

Lemma visible_splitlines (s : pystr) :
  visible (List.concat (Str.splitlines s)) = visible s.
Proof.
  assert (H : forall n s, (List.length s <= n)%nat ->
            visible (List.concat (Str.splitlines s)) = visible s).
  { clear s. induction n as [|n IH]; intros s Hlen.
    - destruct s; [reflexivity|simpl in Hlen; lia].
    - destruct s as [|c s']; [reflexivity|]. cbn [List.length] in Hlen.
      cbn [Str.splitlines]. destruct (Str.is_linebreak c) eqn:Hc.
      + rewrite (visible_space c) by (apply linebreak_isspace; exact Hc).
        cbn [List.concat app].
        destruct (c =? Str.CR); [|apply IH; lia].
        destruct s' as [|d s'']; [reflexivity|].
        destruct (N.eqb_spec d Str.LF) as [->|Hd]; [|apply IH; lia].
        rewrite visible_space by reflexivity. apply IH.
        cbn [List.length] in Hlen. lia.
      + specialize (IH s' ltac:(lia)).
        destruct (Str.splitlines s') as [|l ls].
        * cbn [List.concat app] in *. unfold visible in *. cbn [filter].
          rewrite <- IH. reflexivity.
        * cbn [List.concat app] in *. unfold visible in *. cbn [filter].
          rewrite IH. reflexivity. }
  apply (H (List.length s)). lia.
Qed.

Lemma visible_sub_blanks (b : bool) (s : pystr) :
  visible (Re.sub_blanks_from b s) = visible s.
Proof.
  revert b. induction s as [|c s IH]; intro b; [reflexivity|].
  cbn [Re.sub_blanks_from]. destruct (Re.is_blank c) eqn:Hc.
  - rewrite (visible_space c) by (apply blank_isspace; exact Hc).
    destruct b; [apply IH|]. rewrite visible_space by reflexivity. apply IH.
  - unfold visible in *. cbn [filter]. rewrite IH. reflexivity.
Qed.

Lemma visible_lstrip (s : pystr) : visible (Str.lstrip s) = visible s.
Proof.
  induction s as [|c s IH]; [reflexivity|].
  cbn [Str.lstrip]. destruct (Str.isspace c) eqn:Hc; [|reflexivity].
  rewrite (visible_space c) by exact Hc. exact IH.
Qed.

Lemma visible_strip (s : pystr) : visible (Str.strip s) = visible s.
Proof.
  unfold Str.strip, Str.rstrip. unfold visible at 1.
  rewrite filter_rev. fold (visible (Str.lstrip (rev (Str.lstrip s)))).
  rewrite visible_lstrip. unfold visible at 1. rewrite filter_rev, rev_involutive.
  apply visible_lstrip.
Qed.

Lemma visible_clean_line (l : pystr) : visible (clean_line l) = visible l.
Proof. unfold clean_line, Re.sub_blanks. rewrite visible_strip. apply visible_sub_blanks. Qed.

Lemma visible_join (lines : list pystr) :
  visible (Str.join [Str.LF] lines) = visible (List.concat lines).
Proof.
  induction lines as [|l lines IH]; [reflexivity|].
  destruct lines as [|l' lines'].
  - cbn [Str.join List.concat]. rewrite app_nil_r. reflexivity.
  - rewrite join_cons. cbn [List.concat] in *. rewrite !visible_app.
    rewrite visible_space by reflexivity. rewrite IH, visible_app. reflexivity.
Qed.

Lemma concat_nonempty (lines : list pystr) :
  List.concat (filter Str.nonempty lines) = List.concat lines.
Proof.
  induction lines as [|l lines IH]; [reflexivity|].
  cbn [filter]. destruct l as [|c l]; cbn [Str.nonempty List.concat app]; [exact IH|].
  rewrite IH. reflexivity.
Qed.

Lemma visible_clean_lines (lines : list pystr) :
  visible (List.concat (map clean_line lines)) = visible (List.concat lines).
Proof.
  induction lines as [|l lines IH]; [reflexivity|].
  cbn [map List.concat]. rewrite !visible_app, IH, visible_clean_line. reflexivity.
Qed.

Lemma visible_clean_text (text : pystr) : visible (_clean_text text) = visible text.
Proof.
  rewrite clean_text_lines, visible_join, concat_nonempty, visible_clean_lines.
  rewrite visible_splitlines. apply visible_newlines.
Qed.

Lemma visible_nil_iff (s : pystr) : visible s = [] <-> forallb Str.isspace s = true.
Proof.
  unfold visible. induction s as [|c s IH]; [split; reflexivity|].
  cbn [filter forallb]. destruct (Str.isspace c); cbn [negb andb].
  - exact IH.
  - split; discriminate.
Qed.

(** X8. Cleaning only touches white space: the characters of the text that
    are not white space come out of [_clean_text] unchanged, all of them and
    in the same order; and so the cleaned text is empty exactly when the text
    is made of white space only. *)
Theorem clean_text_keeps_visible (text : pystr) :
  visible (_clean_text text) = visible text
  /\ (_clean_text text = [] <-> forallb Str.isspace text = true).
Proof.
  split; [apply visible_clean_text|].
  rewrite <- visible_nil_iff, <- visible_clean_text. split.
  - intros ->. reflexivity.
  - intro Hv. destruct (clean_text_tidy_lines text) as [lines [Hjoin Htidy]].
    rewrite Hjoin in *. destruct lines as [|l lines]; [reflexivity|].
    exfalso. inversion Htidy as [|x y Hl _]; subst.
    destruct Hl as [Hne [_ [_ [Hhead _]]]].
    destruct l as [|c l]; [congruence|].
    specialize (Hhead c l eq_refl).
    assert (Hstart : exists rest, Str.join [Str.LF] ((c :: l) :: lines) = c :: rest).
    { destruct lines; [exists l; reflexivity|]. rewrite join_cons. eexists. reflexivity. }
    destruct Hstart as [rest Hrest]. rewrite Hrest in Hv.
    unfold visible in Hv. cbn [filter] in Hv. rewrite Hhead in Hv. discriminate.
Qed.

End VisibleFacts.

(** ** The parsers' share of extraction *)

Section ParserFacts.

Variable env : libraries.
Variable fs : filesystem.

Lemma fold_pages (pages : list pdf_page) (acc : list pystr) :
  fold_left
    (fun pages page =>
       match page with
       | Ok (Some content) =>
           if Str.nonempty content then pages ++ [content] else pages
       | Ok None => pages
       | Raise _ => pages
       end) pages acc
  = acc ++ page_texts pages.
Proof.
  revert acc. induction pages as [|pg pages IH]; intro acc.
  - cbn. rewrite app_nil_r. reflexivity.
  - cbn [fold_left]. rewrite IH. unfold page_texts. cbn [flat_map].
    destruct pg as [[content|]|e]; [|reflexivity|reflexivity].
    destruct (Str.nonempty content); [|reflexivity].
    rewrite <- app_assoc. reflexivity.
Qed.

(** X9. [_extract_pdf] fails only before the pages: with the
    [ImportError] that names the package when pdfplumber is absent, or with
    the exception of [pdfplumber.open] itself. Once the file is open, no page
    can fail the document: the result is the non-empty page texts in page
    order, joined by newlines, whatever the other pages raised or returned. *)
Theorem extract_pdf_pages (filepath : pystr) (nd : node) :
  fs filepath = Some nd ->
  (pdfplumber_open env = None ->
   _extract_pdf env fs filepath
   = Raise (ImportError
       (lit "pdfplumber is required for PDF extraction. Run: pip install pdfplumber")))
  /\ (forall open_ e,
        pdfplumber_open env = Some open_ -> open_ nd = Raise e ->
        _extract_pdf env fs filepath = Raise e)
  /\ (forall open_ pages,
        pdfplumber_open env = Some open_ -> open_ nd = Ok pages ->
        _extract_pdf env fs filepath = Ok (Str.join [Str.LF] (page_texts pages))
        /\ forall before after e,
             pages = before ++ Raise e :: after ->
             page_texts pages = page_texts (before ++ after)).
Proof.
  intro Hnode. unfold _extract_pdf. rewrite Hnode. split; [|split].
  - intros ->. reflexivity.
  - intros open_ e -> ->. reflexivity.
  - intros open_ pages -> ->. cbn [bind]. rewrite fold_pages. split; [reflexivity|].
    intros before after e ->. unfold page_texts.
    rewrite !flat_map_app. reflexivity.
Qed.

Lemma fold_cells (row acc : list pystr) :
  fold_left
    (fun paragraphs cell =>
       if Str.nonempty (Str.strip cell) then paragraphs ++ [cell] else paragraphs)
    row acc
  = acc ++ filter (fun cell => Str.nonempty (Str.strip cell)) row.
Proof.
  revert acc. induction row as [|cell row IH]; intro acc.
  - cbn. rewrite app_nil_r. reflexivity.
  - cbn [fold_left filter]. rewrite IH.
    destruct (Str.nonempty (Str.strip cell)); [|reflexivity].
    rewrite <- app_assoc. reflexivity.
Qed.

Lemma fold_rows (table : list (list pystr)) (acc : list pystr) :
  fold_left
    (fun paragraphs row =>
       fold_left
         (fun paragraphs cell =>
            if Str.nonempty (Str.strip cell) then paragraphs ++ [cell] else paragraphs)
         row paragraphs)
    table acc
  = acc ++ filter (fun cell => Str.nonempty (Str.strip cell)) (List.concat table).
Proof.
  revert acc. induction table as [|row table IH]; intro acc.
  - cbn. rewrite app_nil_r. reflexivity.
  - cbn [fold_left List.concat]. rewrite IH, fold_cells, filter_app, <- app_assoc.
    reflexivity.
Qed.

Lemma fold_tables (tbls : list (list (list pystr))) (acc : list pystr) :
  fold_left
    (fun paragraphs table =>
       fold_left
         (fun paragraphs row =>
            fold_left
              (fun paragraphs cell =>
                 if Str.nonempty (Str.strip cell) then paragraphs ++ [cell]
                 else paragraphs)
              row paragraphs)
         table paragraphs)
    tbls acc
  = acc ++ filter (fun cell => Str.nonempty (Str.strip cell))
                  (List.concat (List.concat tbls)).
Proof.
  revert acc. induction tbls as [|table tbls IH]; intro acc.
  - cbn. rewrite app_nil_r. reflexivity.
  - cbn [fold_left List.concat]. rewrite IH, fold_rows, concat_app, filter_app,
      <- app_assoc. reflexivity.
Qed.

(** X10. [_extract_docx] keeps every paragraph, the empty ones too, and
    after them every table cell that is not blank, table by table and row by
    row, all joined by newlines; it fails only with the [ImportError] that
    names the package when python-docx is absent, or with the exception of
    [Document] itself. *)
Theorem extract_docx_paragraphs_and_cells (filepath : pystr) (nd : node) :
  fs filepath = Some nd ->
  (docx_Document env = None ->
   _extract_docx env fs filepath
   = Raise (ImportError
       (lit "python-docx is required for DOCX extraction. Run: pip install python-docx")))
  /\ (forall Document e,
        docx_Document env = Some Document -> Document nd = Raise e ->
        _extract_docx env fs filepath = Raise e)
  /\ (forall Document doc,
        docx_Document env = Some Document -> Document nd = Ok doc ->
        _extract_docx env fs filepath
        = Ok (Str.join [Str.LF] (paragraphs doc ++ cell_texts doc))).
Proof.
  intro Hnode. unfold _extract_docx. rewrite Hnode. split; [|split].
  - intros ->. reflexivity.
  - intros Document e -> ->. reflexivity.
  - intros Document doc -> ->. cbn [bind]. rewrite fold_tables. reflexivity.
Qed.

(** X11. [_extract_txt] settles at the second encoding: a regular file is
    read as UTF-8 when its bytes are well-formed UTF-8 and otherwise as
    Latin-1, one code point below 256 per byte up to the translation of line
    ends, so Windows-1252, ASCII and the replacement character never come
    into play; the text has no carriage return; and a directory raises
    [IsADirectoryError], which the fallback does not catch. *)
Theorem extract_txt_utf8_or_latin1 (filepath : pystr) :
  (forall content,
     fs filepath = Some (File content) ->
     _extract_txt fs filepath
     = Ok (universal_newlines
             (match Codecs.utf8_decode Codecs.strict (map Byte.to_N content) with
              | Some s => s
              | None => map Byte.to_N content
              end))
     /\ (forall raw, _extract_txt fs filepath = Ok raw -> ~ In Str.CR raw)
     /\ (Codecs.utf8_decode Codecs.strict (map Byte.to_N content) = None ->
         forall raw, _extract_txt fs filepath = Ok raw ->
                     Forall (fun c => c < 256) raw))
  /\ (fs filepath = Some Directory ->
      _extract_txt fs filepath = Raise IsADirectoryError).
Proof.
  split.
  - intros content Hfile.
    assert (Hread : _extract_txt fs filepath
                    = Ok (universal_newlines
                            (match Codecs.utf8_decode Codecs.strict
                                     (map Byte.to_N content) with
                             | Some s => s
                             | None => map Byte.to_N content
                             end))).
    { unfold _extract_txt.
      rewrite (try_encodings_first_decoding fs filepath content) by exact Hfile.
      cbn [first_decoding Codecs.decode].
      destruct (Codecs.utf8_decode Codecs.strict (map Byte.to_N content));
        reflexivity. }
    split; [exact Hread|]. split.
    + intros raw Hraw. rewrite Hread in Hraw. injection Hraw as <-.
      apply universal_newlines_no_cr.
    + intros Hbad raw Hraw. rewrite Hread, Hbad in Hraw. injection Hraw as <-.
      unfold universal_newlines. rewrite replace_char.
      assert (Hbytes : forall l : list N,
                Forall (fun c => c < 256) l ->
                Forall (fun c => c < 256)
                       (Str.replace [Str.CR; Str.LF] [Str.LF] l)).
      { intros l Hl. unfold Str.replace. generalize 0%nat.
        induction Hl as [|c l Hc _ IH]; intro skip; [constructor|].
        cbn [Str.replace_from]. destruct skip; [|apply IH].
        destruct (Str.startswith [Str.CR; Str.LF] (c :: l)).
        - cbn [app]. constructor; [reflexivity|apply IH].
        - constructor; [exact Hc|apply IH]. }
      apply Forall_map. eapply Forall_impl; [|apply Hbytes].
      * intros c Hc. cbv beta. destruct (c =? Str.CR); [reflexivity|exact Hc].
      * apply Forall_map. apply Forall_forall. intros b _.
        destruct b; vm_compute; reflexivity.
  - intro Hdir. unfold _extract_txt, try_encodings, read_text.
    rewrite Hdir. reflexivity.
Qed.

End ParserFacts.

(** ** The command line *)

Section CliFacts.

Import Cli.

Variable app : application.

Lemma main_of_call (a : args) :
  main app a =
  match call app a with
  | (out, Return _) => (out, Finished)
  | (out, Throw KeyboardInterrupt) =>
      (out ++ [Str.LF :: lit "[Interrupted]"], Exited 0)
  | (out, Throw (SystemExit status)) => (out, Uncaught (SystemExit status))
  | (out, Throw (NotImplementedError msg)) =>
      match notice a with
      | Some line => (out ++ [line], Finished)
      | None =>
          (out ++ [Str.LF :: lit "[Fatal Error] " ++
                   str_of app (NotImplementedError msg)],
           Uncaught (NotImplementedError msg))
      end
  | (out, Throw (Error e)) =>
      (out ++ [Str.LF :: lit "[Fatal Error] " ++ str_of app (Error e)],
       Uncaught (Error e))
  end.
Proof.
  unfold main, func, cmd_index, cmd_search, cmd_duplicates, cmd_cluster,
    unless_not_implemented.
  destruct a as [directory | query topk | threshold | k]; cbn [call notice];
    [ destruct (index_directory app directory)
        as [out [u | [ | status | msg | e]]]
    | destruct (search app query topk) as [out [u | [ | status | msg | e]]]
    | destruct (find_duplicates app threshold)
        as [out [u | [ | status | msg | e]]]
    | destruct (cluster_documents app k)
        as [out [u | [ | status | msg | e]]] ];
    reflexivity.
Qed.

(** X12.  A command whose module is still a stub ends normally: when the
    function that [search], [duplicates] or [cluster] calls raises
    [NotImplementedError], [main] returns after the function's output and one
    notice line, and prints no fatal error.  [index] has no such handler: the
    same exception from [index_directory] leaves [main], after the fatal-error
    line. *)
Theorem stub_commands (a : args) (out : list pystr) (msg : pystr) :
  call app a = (out, Throw (NotImplementedError msg)) ->
  match a with
  | Index _ =>
      main app a =
      (out ++ [Str.LF :: lit "[Fatal Error] " ++
               str_of app (NotImplementedError msg)],
       Uncaught (NotImplementedError msg))
  | _ =>
      exists line, notice a = Some line /\
        main app a = (out ++ [line], Finished)
  end.
Proof.
  intros Hcall. rewrite main_of_call, Hcall.
  destruct a; cbn [notice]; try reflexivity; eexists; split; reflexivity.
Qed.

(** X13.  [main] hides no failure and loses no output.  Whatever the command,
    the lines printed start with the lines the application printed; the
    process exits with a status only on [KeyboardInterrupt], and the status
    is 0; and [main] returns normally only when the application function
    returned or, for a command other than [index], raised
    [NotImplementedError].  In every other case the exception the function
    raised is the one that leaves [main]. *)
Theorem main_hides_nothing (a : args) :
  let (out0, r) := call app a in
  let (out, e) := main app a in
  (exists more, out = out0 ++ more /\ (List.length more <= 1)%nat) /\
  (forall status, e = Exited status ->
     r = Throw KeyboardInterrupt /\ status = 0%Z) /\
  (e = Finished ->
     (exists u, r = Return u) \/
     (exists msg, r = Throw (NotImplementedError msg) /\ notice a <> None)) /\
  (forall x, r = Throw x -> x <> KeyboardInterrupt ->
     (forall msg, x = NotImplementedError msg -> notice a = None) ->
     e = Uncaught x).
Proof.
  rewrite main_of_call.
  destruct (call app a) as [out0 [u | [ | status | msg | e]]];
    [ | | | destruct (notice a) as [line | ] eqn:Hn | ];
    (split;
     [ first [ exists []; split; [symmetry; apply app_nil_r | cbn; lia]
             | eexists; split; [reflexivity | cbn; lia] ]
     | split;
       [ intros status' H; first [discriminate | split; congruence]
       | split;
         [ intros H;
           first [ discriminate
                 | left; eexists; reflexivity
                 | right; eexists; split; [reflexivity | congruence] ]
         | intros x Hx Hk Hni;
           first [ discriminate
                 | congruence
                 | injection Hx as <-; specialize (Hni _ eq_refl);
                   discriminate ] ] ] ]).
Qed.

End CliFacts.

(** ** The further properties at the sample inputs *)

Lemma sample_paths_differ : lit "docs/b.txt" <> lit "docs/a.txt".
Proof. intro H. vm_compute in H. discriminate. Qed.

(** X1 at the sample store: [docs/a.txt] is stored again, [docs/b.txt] is
    left alone. *)
Lemma insert_document_other_paths_witness :
  exists store',
    Database.insert_document Sample.store (lit "docs/a.txt") (lit "a c") (lit "h2")
                             Sample.array None None = Ok store'
    /\ Database.document_exists_by_path store' (lit "docs/a.txt") = Ok true
    /\ Database.records_of store' (lit "docs/b.txt")
       = Database.records_of Sample.store (lit "docs/b.txt").
Proof.
  destruct (Database.insert_document Sample.store (lit "docs/a.txt") (lit "a c")
              (lit "h2") Sample.array None None) as [store'|err] eqn:Hins;
    [|vm_compute in Hins; discriminate].
  exists store'. split; [reflexivity|].
  destruct (insert_document_other_paths _ _ _ _ _ _ _ _ Hins) as [Hknown Hother].
  split; [exact Hknown|].
  apply (Hother (lit "docs/b.txt") sample_paths_differ).
Defined.

(** X2 at the sample store and a path it does not hold. *)
Lemma insert_document_new_path_witness :
  exists store' n,
    Database.insert_document Sample.store (lit "docs/c.txt") (lit "c") (lit "h3")
                             Sample.array None None = Ok store'
    /\ Database.get_document_count Sample.store = Ok n
    /\ Database.get_document_count store' = Ok (n + 1)%Z.
Proof.
  destruct (Database.insert_document Sample.store (lit "docs/c.txt") (lit "c")
              (lit "h3") Sample.array None None) as [store'|err] eqn:Hins;
    [|vm_compute in Hins; discriminate].
  assert (Hnew : Database.document_exists_by_path Sample.store (lit "docs/c.txt")
                 = Ok false) by (vm_compute; reflexivity).
  destruct (insert_document_new_path _ _ _ _ _ _ _ _ Hnew Hins)
    as [n [Hbefore [Hafter _]]].
  exists store', n. split; [reflexivity|]. split; assumption.
Defined.

(** X3 at the sample store: [docs/a.txt] moves from the hash [h1] to the
    hash [h2]. *)
Lemma insert_document_drops_old_hash_witness :
  exists store',
    Database.insert_document Sample.store (lit "docs/a.txt") (lit "a c") (lit "h2")
                             Sample.array None None = Ok store'
    /\ (exists q, Database.check_existing_hash store' (lit "h2") = Ok (Some q))
    /\ Database.check_existing_hash store' (lit "h1") <> Ok (Some (lit "docs/a.txt")).
Proof.
  destruct (Database.insert_document Sample.store (lit "docs/a.txt") (lit "a c")
              (lit "h2") Sample.array None None) as [store'|err] eqn:Hins;
    [|vm_compute in Hins; discriminate].
  exists store'. split; [reflexivity|].
  destruct (insert_document_drops_old_hash _ _ _ _ _ _ _ _ Hins) as [Hfound Honly].
  split; [exact Hfound|].
  intro Hold. apply Honly in Hold. vm_compute in Hold. discriminate.
Defined.

(** X4 at the sample store. *)
Lemma get_all_documents_after_insert_witness :
  exists docs store' new_id,
    Database.get_all_documents Sample.store = Ok docs
    /\ Database.insert_document Sample.store (lit "docs/a.txt") (lit "a c") (lit "h2")
                                Sample.array None (Some Database.NEGATIVE_ZERO)
       = Ok store'
    /\ Database.get_all_documents store'
       = Ok (filter (fun doc => negb (str_eqb (Database.doc_path doc) (lit "docs/a.txt")))
                    docs
             ++ [{| Database.doc_id := new_id;
                    Database.doc_path := lit "docs/a.txt";
                    Database.doc_text := lit "a c";
                    Database.doc_hash := lit "h2";
                    Database.doc_embedding := Sample.array;
                    Database.doc_file_size := None;
                    Database.doc_modified_time := Some 0 |}]).
Proof.
  destruct (Database.get_all_documents Sample.store) as [docs|err] eqn:Hall;
    [|vm_compute in Hall; discriminate].
  destruct (Database.insert_document Sample.store (lit "docs/a.txt") (lit "a c")
              (lit "h2") Sample.array None (Some Database.NEGATIVE_ZERO))
    as [store'|err] eqn:Hins;
    [|vm_compute in Hins; discriminate].
  destruct (get_all_documents_after_insert _ _ _ _ _ _ _ _ _
              sample_array_well_formed Hall Hins) as [new_id [Hread _]].
  exists docs, store', new_id. split; [reflexivity|]. split; [reflexivity|].
  exact Hread.
Defined.

(** X5 at the sample store. *)
Lemma reads_agree_witness :
  exists docs,
    Database.get_all_documents Sample.store = Ok docs
    /\ Database.get_document_count Sample.store = Ok (Z.of_nat (List.length docs)).
Proof.
  destruct (Database.get_all_documents Sample.store) as [docs|err] eqn:Hall;
    [|vm_compute in Hall; discriminate].
  exists docs. split; [reflexivity|].
  apply (reads_agree _ _ Hall).
Defined.

(** X6 at the two sample calls. *)
Lemma get_all_documents_after_calls_witness :
  exists docs,
    Database.get_all_documents Sample.store = Ok docs
    /\ NoDup (map Database.doc_path docs)
    /\ StronglySorted Z.lt (map Database.doc_id docs).
Proof.
  assert (Hwf : Forall (fun c => Numpy.well_formed (Database.arg_embedding c))
                       Sample.calls).
  { repeat constructor; apply sample_array_well_formed. }
  destruct (get_all_documents_after_calls Sample.calls Hwf)
    as [docs [Hall [Hpaths [Hids _]]]].
  exists docs. split; [exact Hall|]. split; assumption.
Defined.

(** X7 at the empty database. *)
Lemma missing_table_witness :
  Database.get_all_documents Database.empty_db = Database.no_such_table
  /\ Database.get_document_count (Database.init_db Database.empty_db) = Ok 0%Z.
Proof.
  destruct (missing_table Database.empty_db eq_refl)
    as [_ [Hall [_ [_ [_ [Hcount _]]]]]].
  split; assumption.
Defined.

(** X9 at a PDF whose second page fails. *)
Lemma extract_pdf_pages_witness :
  _extract_pdf Sample.reader Sample.fs_distinct Sample.pdf
  = Ok (lit "one" ++ [Str.LF] ++ lit "two").
Proof.
  assert (Hnode : Sample.fs_distinct Sample.pdf = Some (File [x25; x50; x44; x46]))
    by (vm_compute; reflexivity).
  destruct (extract_pdf_pages Sample.reader Sample.fs_distinct Sample.pdf _ Hnode)
    as [_ [_ Hpages]].
  destruct (Hpages _ _ eq_refl eq_refl) as [Htext _].
  rewrite Htext. vm_compute. reflexivity.
Defined.

(** X10 at a document with an empty paragraph and a blank cell. *)
Lemma extract_docx_paragraphs_and_cells_witness :
  _extract_docx Sample.reader (fun _ => Some (File [])) (lit "docs/report.docx")
  = Ok (lit "title" ++ [Str.LF] ++ [Str.LF] ++ lit "cell").
Proof.
  destruct (extract_docx_paragraphs_and_cells Sample.reader (fun _ => Some (File []))
              (lit "docs/report.docx") (File []) eq_refl) as [_ [_ Hdoc]].
  rewrite (Hdoc _ _ eq_refl eq_refl). vm_compute. reflexivity.
Defined.

(** X12 at an application whose search module is a stub. *)
Lemma stub_commands_witness :
  Cli.main Sample.app (Cli.Search (lit "invoice") 5)
  = ([lit "[Search] Not yet implemented. Coming in Phase 3."], Cli.Finished).
Proof.
  destruct (stub_commands Sample.app (Cli.Search (lit "invoice") 5) [] [] eq_refl)
    as [line [Hline Hmain]].
  cbn [Cli.notice] in Hline. injection Hline as <-. exact Hmain.
Defined.

(** ** The extension [extract_text] goes by *)

Section ExtensionFacts.

Variable env : libraries.
Variable fs : filesystem.

Lemma rfind_from_app (c : N) (a b : list N) (i found : Z) :
  Os.rfind_from c i found (a ++ b)
  = Os.rfind_from c (i + Z.of_nat (List.length a))%Z (Os.rfind_from c i found a) b.
Proof.
  revert i found. induction a as [|x a IH]; intros i found.
  - cbn. rewrite Z.add_0_r. reflexivity.
  - cbn [app Os.rfind_from List.length]. rewrite IH.
    f_equal. lia.
Qed.

Lemma rfind_from_notin (c : N) (s : list N) (i found : Z) :
  ~ In c s -> Os.rfind_from c i found s = found.
Proof.
  revert i found. induction s as [|x s IH]; intros i found Hin; [reflexivity|].
  cbn [Os.rfind_from].
  destruct (N.eqb_spec x c) as [->|_]; [exfalso; apply Hin; left; reflexivity|].
  apply IH. intro H. apply Hin. right. exact H.
Qed.

Lemma rfind_from_range (c : N) (s : list N) (i found : Z) :
  (found < i)%Z ->
  (found <= Os.rfind_from c i found s < i + Z.of_nat (List.length s))%Z.
Proof.
  revert i found. induction s as [|x s IH]; intros i found Hlt.
  - cbn. lia.
  - cbn [Os.rfind_from List.length].
    destruct (x =? c).
    + specialize (IH (i + 1)%Z i ltac:(lia)). lia.
    + specialize (IH (i + 1)%Z found ltac:(lia)). lia.
Qed.

Lemma rfind_from_dots (n : nat) (i found : Z) :
  Os.rfind_from 46 i found (repeat 46 n)
  = match n with O => found | S m => (i + Z.of_nat m)%Z end.
Proof.
  revert i found. induction n as [|n IH]; intros i found; [reflexivity|].
  cbn [repeat Os.rfind_from]. rewrite IH. cbn [N.eqb Pos.eqb].
  destruct n; lia.
Qed.

Lemma str_eqb_cons (c : N) (a b : pystr) : str_eqb (c :: a) (c :: b) = str_eqb a b.
Proof.
  destruct (str_eqb a b) eqn:H.
  - apply str_eqb_eq in H. subst. apply str_eqb_refl.
  - apply str_eqb_neq in H. apply str_eqb_neq. congruence.
Qed.

Lemma lower_ascii (u : pystr -> pystr) (s : pystr) :
  Forall (fun c => c < 128) s ->
  Str.lower_with u (46 :: s) = 46 :: Str.lower_with u s.
Proof.
  intro H. unfold Str.lower_with.
  assert (Hs : forallb (fun c => c <? 128) s = true).
  { apply forallb_forall. rewrite Forall_forall in H.
    intros c Hc. apply N.ltb_lt. apply H. exact Hc. }
  cbn [forallb]. rewrite Hs. reflexivity.
Qed.

(** The extension of a name with a stem and a dot after it. *)
Lemma splitext_stem (dir stem ext : pystr) :
  ~ In 47 stem -> (exists c, In c stem /\ c <> 46) ->
  ~ In 47 ext -> ~ In 46 ext ->
  Os.splitext (dir ++ stem ++ 46 :: ext) = (dir ++ stem, 46 :: ext).
Proof.
  intros Hstem [c [Hc Hdot]] Hsep Hext.
  unfold Os.splitext.
  assert (Hd : Os.rfind 46 (dir ++ stem ++ 46 :: ext)
               = Z.of_nat (List.length (dir ++ stem))).
  { unfold Os.rfind. rewrite app_assoc, rfind_from_app.
    cbn [Os.rfind_from]. cbn [N.eqb Pos.eqb].
    rewrite rfind_from_notin by exact Hext. lia. }
  assert (Hs : Os.rfind 47 (dir ++ stem ++ 46 :: ext) = Os.rfind 47 dir).
  { unfold Os.rfind. rewrite rfind_from_app.
    apply rfind_from_notin. intro H. apply in_app_or in H.
    destruct H as [H|[H|H]]; [apply Hstem; exact H|discriminate|apply Hsep; exact H]. }
  rewrite Hd, Hs.
  pose proof (rfind_from_range 47 dir 0 (-1) ltac:(lia)) as Hr.
  fold (Os.rfind 47 dir) in Hr.
  assert (Hlt : (Os.rfind 47 dir <? Z.of_nat (List.length (dir ++ stem)))%Z = true).
  { apply Z.ltb_lt. rewrite length_app. lia. }
  rewrite Hlt. cbn [andb].
  assert (Hsome : existsb (fun c => negb (c =? 46))
                    (Os.slice (dir ++ stem ++ 46 :: ext) (Os.rfind 47 dir + 1)
                       (Z.of_nat (List.length (dir ++ stem)))) = true).
  { apply existsb_exists. exists c. split.
    - unfold Os.slice.
      set (k := Z.to_nat (Os.rfind 47 dir + 1)).
      assert (Hk : (k <= List.length dir)%nat) by (unfold k; lia).
      rewrite skipn_app.
      replace (k - List.length dir)%nat with 0%nat by lia.
      cbn [skipn]. rewrite app_assoc.
      rewrite firstn_exact.
      + apply in_or_app. right. exact Hc.
      + rewrite !length_app, length_skipn. unfold k. lia.
    - apply negb_true_iff. apply N.eqb_neq. exact Hdot. }
  rewrite Hsome. rewrite Nat2Z.id, app_assoc.
  rewrite firstn_exact, skipn_exact by reflexivity. reflexivity.
Qed.

(** The extension of a name that is nothing but leading dots and a rest
    without any. *)
Lemma splitext_dots (dir rest : pystr) (n : nat) :
  dir = [] \/ (exists d, dir = d ++ [47]) ->
  ~ In 47 rest -> ~ In 46 rest ->
  Os.splitext (dir ++ repeat 46 n ++ rest) = (dir ++ repeat 46 n ++ rest, []).
Proof.
  intros Hdir Hsep Hdot. unfold Os.splitext.
  assert (Hs : Os.rfind 47 (dir ++ repeat 46 n ++ rest)
               = (Z.of_nat (List.length dir) - 1)%Z).
  { unfold Os.rfind. rewrite rfind_from_app.
    rewrite (rfind_from_notin 47 (repeat 46 n ++ rest)).
    - destruct Hdir as [->|[d ->]]; [reflexivity|].
      rewrite rfind_from_app. cbn [Os.rfind_from]. cbn [N.eqb Pos.eqb].
      rewrite length_app. cbn [List.length]. lia.
    - intro H. apply in_app_or in H. destruct H as [H|H]; [|apply Hsep; exact H].
      apply repeat_spec in H. discriminate. }
  assert (Hd : Os.rfind 46 (dir ++ repeat 46 n ++ rest)
               = match n with
                 | O => Os.rfind 46 dir
                 | S m => (Z.of_nat (List.length dir) + Z.of_nat m)%Z
                 end).
  { unfold Os.rfind. rewrite !rfind_from_app.
    rewrite rfind_from_notin by exact Hdot.
    rewrite rfind_from_dots. destruct n; [reflexivity|]. lia. }
  rewrite Hs, Hd. destruct n as [|m].
  - assert (Hlt : (Z.of_nat (List.length dir) - 1 <? Os.rfind 46 dir)%Z = false).
    { apply Z.ltb_ge. destruct Hdir as [->|[d ->]]; [cbn; lia|].
      unfold Os.rfind. rewrite rfind_from_app. cbn [Os.rfind_from].
      cbn [N.eqb Pos.eqb].
      pose proof (rfind_from_range 46 d 0 (-1) ltac:(lia)).
      rewrite length_app. cbn [List.length]. lia. }
    rewrite Hlt. reflexivity.
  - assert (Hnone : existsb (fun c => negb (c =? 46))
                      (Os.slice (dir ++ repeat 46 (S m) ++ rest)
                         (Z.of_nat (List.length dir) - 1 + 1)
                         (Z.of_nat (List.length dir) + Z.of_nat m)) = false).
    { unfold Os.slice.
      replace (Z.to_nat (Z.of_nat (List.length dir) - 1 + 1)) with (List.length dir)
        by lia.
      replace (Z.to_nat (Z.of_nat (List.length dir) + Z.of_nat m
                         - (Z.of_nat (List.length dir) - 1 + 1))) with m by lia.
      rewrite skipn_exact by reflexivity.
      replace (repeat 46 (S m)) with (repeat 46 m ++ [46])
        by (rewrite <- repeat_cons; reflexivity).
      rewrite <- app_assoc, firstn_exact by apply repeat_length.
      clear. induction m as [|m IH]; [reflexivity|].
      cbn [repeat existsb]. rewrite IH. reflexivity. }
    rewrite Hnone, andb_false_r. reflexivity.
Qed.

(** X14.  [extract_text] goes by the text after the last dot of the file
    name, in any mix of upper and lower case: for an existing path whose name
    has a stem that is not all dots, the parser is chosen by the lowercased
    extension, directories and dots earlier in the path play no part, and the
    message of the [ValueError] for any other extension quotes it in lower
    case. *)
Theorem extract_text_by_extension (dir stem ext : pystr) :
  let path := dir ++ stem ++ 46 :: ext in
  let low := Str.lower_with (unicode_lower env) ext in
  ~ In 47 stem -> (exists c, In c stem /\ c <> 46) ->
  ~ In 47 ext -> ~ In 46 ext -> Forall (fun c => c < 128) ext ->
  Os.exists_ fs path = true ->
  extract_text env fs path
  = if str_eqb low (lit "pdf")
    then raw <- _extract_pdf env fs path ;; Ok (_clean_text raw)
    else if str_eqb low (lit "docx")
    then raw <- _extract_docx env fs path ;; Ok (_clean_text raw)
    else if str_eqb low (lit "txt")
    then raw <- _extract_txt fs path ;; Ok (_clean_text raw)
    else Raise (ValueError (lit "Unsupported file type '." ++ low
                              ++ lit "'. Supported: .pdf, .docx, .txt")).
Proof.
  intros path low Hstem Hsome Hsep Hdot Hascii Hex.
  assert (Hlow : Str.lower_with (unicode_lower env) (snd (Os.splitext path))
                 = 46 :: low).
  { unfold path. rewrite (splitext_stem dir stem ext) by assumption.
    cbn [snd]. apply lower_ascii. exact Hascii. }
  unfold extract_text. rewrite Hex, Hlow. cbn [negb].
  change (lit ".pdf") with (46 :: lit "pdf").
  change (lit ".docx") with (46 :: lit "docx").
  change (lit ".txt") with (46 :: lit "txt").
  rewrite !str_eqb_cons.
  destruct (str_eqb low (lit "pdf")); [reflexivity|].
  destruct (str_eqb low (lit "docx")); [reflexivity|].
  destruct (str_eqb low (lit "txt")); reflexivity.
Qed.

(** X15.  A name without an extension is never extracted, whatever the file
    holds: for an existing path whose last component has no dot, or only
    leading dots as [.txt] and [..pdf] have, [extract_text] raises the
    [ValueError] of an unsupported type with an empty extension in the
    message; a dot in a directory name does not count. *)
Theorem extract_text_without_extension (dir rest : pystr) (n : nat) :
  let path := dir ++ repeat 46 n ++ rest in
  dir = [] \/ (exists d, dir = d ++ [47]) ->
  ~ In 47 rest -> ~ In 46 rest ->
  Os.exists_ fs path = true ->
  extract_text env fs path
  = Raise (ValueError (lit "Unsupported file type ''. Supported: .pdf, .docx, .txt")).
Proof.
  intros path Hdir Hsep Hdot Hex.
  assert (Hext : snd (Os.splitext path) = []).
  { unfold path. rewrite (splitext_dots dir rest n) by assumption. reflexivity. }
  unfold extract_text. rewrite Hex, Hext. reflexivity.
Qed.

End ExtensionFacts.

Ltac not_in_literal :=
  let H := fresh in
  intro H; cbn in H; repeat (destruct H as [H|H]; [discriminate|]); exact H.

(** X14 at a text file whose extension is in upper case. *)
Lemma extract_text_by_extension_witness :
  extract_text Sample.env (fun _ => Some (File Sample.messy)) (lit "docs/a.TXT")
  = (raw <- _extract_txt (fun _ => Some (File Sample.messy)) (lit "docs/a.TXT") ;;
     Ok (_clean_text raw)).
Proof.
  apply (extract_text_by_extension Sample.env (fun _ => Some (File Sample.messy))
           (lit "docs/") (lit "a") (lit "TXT")).
  - not_in_literal.
  - exists 97. split; [left; reflexivity|discriminate].
  - not_in_literal.
  - not_in_literal.
  - cbn. repeat (apply Forall_cons; [reflexivity|]). apply Forall_nil.
  - reflexivity.
Defined.

(** X15 at a file named [.txt] in a directory with a dot in its name. *)
Lemma extract_text_without_extension_witness :
  extract_text Sample.env (fun _ => Some (File Sample.messy)) (lit "my.docs/.txt")
  = Raise (ValueError (lit "Unsupported file type ''. Supported: .pdf, .docx, .txt")).
Proof.
  apply (extract_text_without_extension Sample.env
           (fun _ => Some (File Sample.messy)) (lit "my.docs/") (lit "txt") 1).
  - right. exists (lit "my.docs"). reflexivity.
  - not_in_literal.
  - not_in_literal.
  - reflexivity.
Defined.

(** ** Embeddings as blobs *)

Section SerializationFacts.

Import Numpy.

(** The header of [np.save] followed by too few bytes of data. *)
Lemma read_array_data (a : ndarray) (hl : N) (pad : pystr) (data : bytes) :
  valid_dtype (dt a) = true ->
  hl = N.of_nat (List.length (header_text a ++ pad)) ->
  hl < 65536 -> hl <= MAX_HEADER_SIZE ->
  forallb (fun c => (c =? Str.SP) || (c =? Str.LF)) pad = true ->
  N.of_nat (List.length data) < itemsize (dt a) * size (shape a) ->
  read_array 2
    (pack_le 2 hl ++ (header_text a ++ pad) ++ map Byte.to_N data)
    (map Sha256.byte_of_N (pack_le 2 hl)
       ++ map Sha256.byte_of_N (header_text a ++ pad) ++ data)
  = invalid "EOF: reading array data".
Proof.
  intros Hv Hhl Hsmall Hmax Hpad Hdata.
  assert (Hlen : List.length (header_text a ++ pad) = N.to_nat hl)
    by (rewrite Hhl, Nat2N.id; reflexivity).
  unfold read_array. cbv zeta.
  assert (H1 : Nat.ltb (List.length (pack_le 2 hl ++ (header_text a ++ pad)
                                       ++ map Byte.to_N data)) 2 = false).
  { apply Nat.ltb_ge. rewrite length_app, pack_le_length. lia. }
  rewrite H1.
  rewrite (firstn_exact (pack_le 2 hl)) by apply pack_le_length.
  rewrite (skipn_exact (pack_le 2 hl)) by apply pack_le_length.
  rewrite (skipn_exact (map Sha256.byte_of_N (pack_le 2 hl)))
    by (rewrite length_map; apply pack_le_length).
  rewrite (pack_le_2 hl Hsmall).
  assert (H2 : (N.of_nat (List.length ((header_text a ++ pad)
                                         ++ map Byte.to_N data)) <? hl) = false).
  { apply N.ltb_ge. rewrite length_app, Nat2N.inj_add, <- Hhl. lia. }
  rewrite H2.
  assert (H3 : (MAX_HEADER_SIZE <? hl) = false) by (apply N.ltb_ge; exact Hmax).
  rewrite H3.
  rewrite (firstn_exact (header_text a ++ pad)) by exact Hlen.
  rewrite (parse_header_text a pad Hv Hpad).
  rewrite Hv. cbn [negb].
  rewrite (skipn_exact (map Sha256.byte_of_N (header_text a ++ pad)))
    by (rewrite length_map; exact Hlen).
  apply N.ltb_lt in Hdata. rewrite Hdata. reflexivity.
Qed.

(** Fewer bytes than the length field announces. *)
Lemma read_array_header_eof (s : list N) (raw : bytes) (hl : N) :
  ((2 <= List.length s)%nat -> unpack_le (firstn 2 s) = hl) ->
  (List.length s < 2 + N.to_nat hl)%nat ->
  read_array 2 s raw = invalid "EOF: reading array header".
Proof.
  intros Hhl Hlen. unfold read_array.
  destruct (Nat.ltb (List.length s) 2) eqn:E; [reflexivity|].
  apply Nat.ltb_ge in E. cbv zeta. rewrite (Hhl E).
  assert (H : (N.of_nat (List.length (skipn 2 s)) <? hl) = true).
  { apply N.ltb_lt. rewrite length_skipn. lia. }
  rewrite H. reflexivity.
Qed.

(** X16.  A blob stands for one array and is read whole or not at all: two
    well-formed arrays that [serialize_embedding] turns into the same bytes
    are the same array, and every proper prefix of a serialized blob makes
    [deserialize_embedding] raise, so a blob that was cut short is never taken
    for a shorter embedding. *)
Theorem serialized_blob_exact (a : ndarray) (blob : bytes) :
  well_formed a ->
  Database.serialize_embedding a = Ok blob ->
  (forall a', well_formed a' -> Database.serialize_embedding a' = Ok blob -> a' = a)
  /\ (forall n, (n < List.length blob)%nat ->
        exists e, Database.deserialize_embedding (firstn n blob) = Raise e).
Proof.
  intros Hwf Hser. unfold Database.serialize_embedding in *. split.
  - intros a' Hwf' Hser'.
    pose proof (save_load a blob Hwf Hser) as H.
    pose proof (save_load a' blob Hwf' Hser') as H'.
    congruence.
  - intros n Hn. unfold Database.deserialize_embedding.
    destruct (save_layout a Hwf)
      as [hl [pad [Hhl [Hsmall [Hmax [Hpad [Hpadsmall Hsave]]]]]]].
    assert (Hb : blob = map Sha256.byte_of_N (MAGIC_PREFIX ++ [1; 0])
                        ++ map Sha256.byte_of_N
                             (pack_le 2 hl ++ (header_text a ++ pad))
                        ++ buffer a).
    { rewrite app_assoc, <- map_app, <- app_assoc. congruence. }
    subst blob.
    set (HP := pack_le 2 hl ++ (header_text a ++ pad)) in *.
    assert (HPsmall : Forall (fun n => n < 256) HP).
    { unfold HP.
      repeat match goal with
             | |- Forall _ (_ ++ _) => apply Forall_app; split
             end;
        auto using pack_le_small, header_text_small. }
    assert (HPlen : List.length HP = (2 + N.to_nat hl)%nat).
    { unfold HP. rewrite length_app, pack_le_length, Hhl, Nat2N.id. reflexivity. }
    set (rest := map Sha256.byte_of_N HP ++ buffer a) in *.
    assert (Hrest : map Byte.to_N rest = HP ++ map Byte.to_N (buffer a)).
    { unfold rest. rewrite map_app, (bytes_roundtrip _ HPsmall). reflexivity. }
    unfold MAGIC_PREFIX in *. cbn [app map] in Hn |- *. cbn [List.length] in Hn.
    do 8 (destruct n as [|n]; [eexists; vm_compute; reflexivity|]).
    cbn [firstn]. apply Nat.succ_lt_mono in Hn. 
    do 7 apply Nat.succ_lt_mono in Hn.
    unfold load. cbn [map].
    repeat match goal with
           | |- context [Byte.to_N (Sha256.byte_of_N ?k)] =>
               change (Byte.to_N (Sha256.byte_of_N k)) with k
           end.
    cbn [expect N.eqb Pos.eqb andb orb skipn].
    rewrite <- firstn_map, Hrest.
    destruct (Nat.ltb n (List.length HP)) eqn:Hcase.
    + apply Nat.ltb_lt in Hcase. eexists.
      apply (read_array_header_eof _ _ hl).
      * rewrite length_firstn. intro H2.
        rewrite firstn_firstn.
        replace (Nat.min 2 n) with 2%nat by lia.
        unfold HP. rewrite <- app_assoc.
        rewrite (firstn_exact (pack_le 2 hl)) by apply pack_le_length.
        apply pack_le_2. exact Hsmall.
      * rewrite length_firstn. lia.
    + apply Nat.ltb_ge in Hcase. eexists.
      assert (Hraw : firstn n rest
                     = map Sha256.byte_of_N HP
                       ++ firstn (n - List.length HP) (buffer a)).
      { unfold rest. rewrite firstn_app, length_map.
        rewrite firstn_all2 by (rewrite length_map; exact Hcase). reflexivity. }
      assert (Hs : firstn n (HP ++ map Byte.to_N (buffer a))
                   = HP ++ map Byte.to_N (firstn (n - List.length HP) (buffer a))).
      { rewrite firstn_app, firstn_all2 by exact Hcase.
        rewrite firstn_map. reflexivity. }
      rewrite Hraw, Hs.
      destruct Hwf as [Hv [_ [_ [Hbuf _]]]].
      assert (Hdata : N.of_nat (List.length (firstn (n - List.length HP) (buffer a)))
                      < itemsize (dt a) * size (shape a)).
      { rewrite <- Hbuf, length_firstn.
        unfold rest in Hn. rewrite length_app, length_map in Hn. lia. }
      pose proof (read_array_data a hl pad _ Hv Hhl Hsmall Hmax Hpad Hdata) as Hread.
      unfold HP. rewrite map_app, <- !app_assoc.
      rewrite <- !app_assoc in Hread. exact Hread.
Qed.

End SerializationFacts.

(** X16 at the sample array, cut after eighty bytes. *)
Lemma serialized_blob_exact_witness :
  exists blob e,
    Database.serialize_embedding Sample.array = Ok blob
    /\ Database.deserialize_embedding (firstn 80 blob) = Raise e.
Proof.
  destruct (Database.serialize_embedding Sample.array) as [blob|err] eqn:Hser;
    [|vm_compute in Hser; discriminate].
  destruct (serialized_blob_exact Sample.array blob sample_array_well_formed Hser)
    as [_ Hcut].
  assert (Hlen : (80 < List.length blob)%nat).
  { vm_compute in Hser. injection Hser as <-. vm_compute. lia. }
  destruct (Hcut 80%nat Hlen) as [e He].
  exists blob, e. split; [reflexivity|exact He].
Defined.
